(** * Avathon toolset: path parameters, operation extraction, input schemas,
      invocation and registry

    A shallow embedding of [utils/path_handler.py], [utils/spec_parser.py]
    and [toolset.py], with the properties of the natural-language
    specification stated and settled against it.

    Modelling conventions.
    - A Python [str] is a [string] (a sequence of 8-bit characters).  All
      characters the patterns and helpers test for are ASCII, so on UTF-8
      text the functions below find the same matches in the same order; the
      model is exact for ASCII text.  [\d] is read as [0-9].
    - A Python [dict] used as a map is a [gmap]; a dictionary that is
      iterated in document order is an association list.
    - An exception is an explicit error result. *)

From Stdlib Require Import ZArith Ascii String List Sorting.Sorted.
From Stdlib Require Import Numbers.DecimalString.
From stdpp Require Import base gmap strings list fin_maps.

Local Open Scope Z_scope.
Local Open Scope nat_scope.
Local Set Warnings "-register-all".

(** ** Strings *)

Module Str.

(** [s[n:]] *)
Fixpoint drop (n : nat) (s : string) : string :=
  match n, s with
  | O, _ => s
  | S n', String _ s' => drop n' s'
  | S _, EmptyString => EmptyString
  end.

(** [s.startswith(p)] *)
Fixpoint startswith (p s : string) : bool :=
  match p, s with
  | EmptyString, _ => true
  | String a p', String b s' => if Ascii.eqb a b then startswith p' s' else false
  | String _ _, EmptyString => false
  end.

(** [p in s] for a text [p] *)
Fixpoint contains (p s : string) : bool :=
  startswith p s
  || match s with
     | EmptyString => false
     | String _ s' => contains p s'
     end.

(** [c in s] for a single character [c] *)
Fixpoint mem (c : ascii) (s : string) : bool :=
  match s with
  | EmptyString => false
  | String a s' => if Ascii.eqb c a then true else mem c s'
  end.

(** [all(f(c) for c in s)] *)
Fixpoint all (f : ascii -> bool) (s : string) : bool :=
  match s with
  | EmptyString => true
  | String a s' => f a && all f s'
  end.

(** [sep.join(l)] *)
Fixpoint join (sep : string) (l : list string) : string :=
  match l with
  | [] => ""
  | [x] => x
  | x :: l' => x +:+ sep +:+ join sep l'
  end.

(** Character codes. *)
Definition code (c : ascii) : N := N_of_ascii c.

Definition between (lo hi : N) (c : ascii) : bool :=
  (N.leb lo (code c)) && (N.leb (code c) hi).

Definition is_digit (c : ascii) : bool := between 48 57 c.
Definition is_upper (c : ascii) : bool := between 65 90 c.
Definition is_lower (c : ascii) : bool := between 97 122 c.

(** [str.upper] on ASCII letters *)
Definition upper_char (c : ascii) : ascii :=
  if is_lower c then ascii_of_N (code c - 32) else c.

Fixpoint upper (s : string) : string :=
  match s with
  | EmptyString => EmptyString
  | String a s' => String (upper_char a) (upper s')
  end.

(** Python's [str.isspace] on ASCII: TAB, LF, VT, FF, CR, FS, GS, RS, US
    and space. *)
Definition is_space (c : ascii) : bool :=
  between 9 13 c || between 28 32 c.

Fixpoint lstrip (s : string) : string :=
  match s with
  | EmptyString => EmptyString
  | String a s' => if is_space a then lstrip s' else s
  end.

Fixpoint rstrip (s : string) : string :=
  match s with
  | EmptyString => EmptyString
  | String a s' =>
      match rstrip s' with
      | EmptyString => if is_space a then EmptyString else String a EmptyString
      | r => String a r
      end
  end.

(** [s.strip()] *)
Definition strip (s : string) : string := rstrip (lstrip s).

(** [s.split(sep)[-1]] for a one-character separator: the text after
    the last [sep], or all of [s] when there is none. *)
Fixpoint last_segment (sep : ascii) (s : string) : string :=
  match s with
  | EmptyString => EmptyString
  | String a s' =>
      if Ascii.eqb a sep then last_segment sep s'
      else if mem sep s' then last_segment sep s'
      else s
  end.

End Str.

(** ** [utils/spec_parser.py]: [_clean_name] *)

(** [re.match(r"^\d", s)] *)
Definition starts_with_digit (s : string) : bool :=
  match s with
  | String a _ => Str.is_digit a
  | EmptyString => false
  end.

Definition _clean_name (s : string) : string :=
  if starts_with_digit s then "param_" +:+ s else s.

(** ** [utils/path_handler.py] *)

Record PathParameter : Type := mkPathParameter {
  pp_name : string;             (* name *)
  original_format : string;     (* the matched text, e.g. [":id"] or ["{id}"] *)
  position : nat                (* offset of the match in the template *)
}.

Global Instance PathParameter_eq_dec : EqDecision PathParameter.
Proof. solve_decision. Defined.

(** The five regular expressions all have the shape
    [prefix ([a-zA-Z0-9_]+) suffix] with literal prefix and suffix. *)
Record pattern : Type := mkPattern {
  pat_prefix : string;
  pat_suffix : string
}.

(** [[a-zA-Z0-9_]] *)
Definition is_word (c : ascii) : bool :=
  Str.is_lower c || Str.is_upper c || Str.is_digit c || Ascii.eqb c "_".

(** Matching [([a-zA-Z0-9_]+) suffix] at the head of [r]: the group is
    greedy, so the longest run of word characters after which the suffix
    matches is chosen, shorter runs being tried on backtracking.  Returns
    the length of the group. *)
Fixpoint match_group (suf : string) (r : string) : option nat :=
  match r with
  | String c r' =>
      if is_word c then
        match match_group suf r' with
        | Some k => Some (S k)
        | None => if Str.startswith suf r' then Some 1 else None
        end
      else None
  | EmptyString => None
  end.

(** [pattern.match(s)]: the match anchored at the head of [s], as the pair
    of [group(1)] and [group(0)]. *)
Definition match_here (p : pattern) (s : string) : option (string * string) :=
  if Str.startswith (pat_prefix p) s then
    match match_group (pat_suffix p) (Str.drop (String.length (pat_prefix p)) s) with
    | Some k =>
        let total := String.length (pat_prefix p) + k + String.length (pat_suffix p) in
        Some (substring (String.length (pat_prefix p)) k s, substring 0 total s)
    | None => None
    end
  else None.

(** [re.finditer(pattern, s)]: leftmost matches, scanning resumes after
    the end of each match.  [pos] is the offset of the head of [s] in the
    template and [skip] the number of characters still covered by the last
    match.  No pattern matches the empty string. *)
Fixpoint finditer_from (p : pattern) (pos skip : nat) (s : string) : list PathParameter :=
  match s with
  | EmptyString => []
  | String _ s' =>
      match skip with
      | S k => finditer_from p (S pos) k s'
      | O =>
          match match_here p s with
          | Some (nm, orig) =>
              mkPathParameter nm orig pos
                :: finditer_from p (S pos) (String.length orig - 1) s'
          | None => finditer_from p (S pos) 0 s'
          end
      end
  end.

Definition finditer (p : pattern) (s : string) : list PathParameter :=
  finditer_from p 0 0 s.

(** [PARAMETER_PATTERNS], each with its (unused) format template. *)
Definition PARAMETER_PATTERNS : list (pattern * string) :=
  [ (mkPattern "{" "}", "{{{name}}}");          (* OpenAPI: {parameter} *)
    (mkPattern ":" "", ":{name}");              (* Express/Postman: :parameter *)
    (mkPattern "{{" "}}", "{{{{{name}}}}}");    (* Postman double-brace *)
    (mkPattern "${" "}", "${{name}}");          (* ${parameter} *)
    (mkPattern "<" ">", "<{name}>") ].          (* <parameter> *)

(** [parameters.sort(key=lambda p: p.position)]: a stable sort, here by
    insertion of each element in front of the sorted rest of the list. *)
Fixpoint insert_by_position (x : PathParameter) (l : list PathParameter) : list PathParameter :=
  match l with
  | [] => [x]
  | y :: l' =>
      if Nat.leb (position x) (position y) then x :: l
      else y :: insert_by_position x l'
  end.

Fixpoint sort_by_position (l : list PathParameter) : list PathParameter :=
  match l with
  | [] => []
  | x :: l' => insert_by_position x (sort_by_position l')
  end.

(** The body of the inner loop of [extract_parameters]: the state is
    [(parameters, seen_positions)]. *)
Definition extract_step (st : list PathParameter * gset nat) (m : PathParameter)
  : list PathParameter * gset nat :=
  if decide (position m ∈ st.2) then st
  else (st.1 ++ [m], {[ position m ]} ∪ st.2).

Definition extract_scan (path_template : string) : list PathParameter * gset nat :=
  fold_left
    (fun st pf => fold_left extract_step (finditer (fst pf) path_template) st)
    PARAMETER_PATTERNS ([], ∅).

Definition extract_parameters (path_template : string) : list PathParameter :=
  sort_by_position (extract_scan path_template).1.

(** [str.replace(old, new)] for a non-empty [old]: occurrences are
    replaced left to right without overlap.  [skip] counts the characters
    of [s] still covered by the occurrence just replaced. *)
Fixpoint replace_from (old new : string) (skip : nat) (s : string) : string :=
  match s with
  | EmptyString => EmptyString
  | String c s' =>
      match skip with
      | S k => replace_from old new k s'
      | O =>
          if Str.startswith old s
          then new +:+ replace_from old new (String.length old - 1) s'
          else String c (replace_from old new 0 s')
      end
  end.

(** For an empty [old], Python inserts [new] before every character and
    at the end. *)
Fixpoint intersperse_after (new : string) (s : string) : string :=
  match s with
  | EmptyString => EmptyString
  | String c s' => String c (new +:+ intersperse_after new s')
  end.

Definition str_replace (s old new : string) : string :=
  match old with
  | EmptyString => new +:+ intersperse_after new s
  | String _ _ => replace_from old new 0 s
  end.

(** Python values that reach the toolset: the fields of a validated input
    model and decoded JSON.  Floats are left out. *)
Inductive pyval : Type :=
  | PyNone
  | PyBool (b : bool)
  | PyInt (z : Z)
  | PyStr (s : string)
  | PyList (l : list pyval)
  | PyDict (d : list (string * pyval)).

(** [str(z)] for an integer *)
Definition str_of_Z (z : Z) : string :=
  NilEmpty.string_of_int (Z.to_int z).

(** [repr(s)] for a string of printable ASCII characters: single quotes
    unless the text has a single quote and no double quote; backslash and
    the chosen quote are escaped. *)
Fixpoint repr_body (q : ascii) (s : string) : string :=
  match s with
  | EmptyString => EmptyString
  | String c s' =>
      if Ascii.eqb c "\" then String "\" (String "\" (repr_body q s'))
      else if Ascii.eqb c q then String "\" (String c (repr_body q s'))
      else String c (repr_body q s')
  end.

Definition double_quote : ascii := ascii_of_nat 34.

Definition repr_str (s : string) : string :=
  let q : ascii :=
    if Str.mem "'" s && negb (Str.mem double_quote s) then double_quote else "'"%char in
  String q (repr_body q s +:+ String q EmptyString).

(** [str(v)] and [repr(v)]; they differ on strings only. *)
Fixpoint py_repr (v : pyval) : string :=
  match v with
  | PyNone => "None"
  | PyBool true => "True"
  | PyBool false => "False"
  | PyInt z => str_of_Z z
  | PyStr s => repr_str s
  | PyList l => "[" +:+ Str.join ", " (map py_repr l) +:+ "]"
  | PyDict d =>
      "{" +:+ Str.join ", " (map (fun kv => repr_str (fst kv) +:+ ": " +:+ py_repr (snd kv)) d)
          +:+ "}"
  end.

Definition py_str (v : pyval) : string :=
  match v with
  | PyStr s => s
  | _ => py_repr v
  end.

(** [values.get(key)]: [None] both for an absent key and for a key mapped
    to [None]. *)
Definition dict_get (values : gmap string pyval) (key : string) : pyval :=
  match values !! key with
  | Some v => v
  | None => PyNone
  end.

(** The key under which [substitute_parameters] looks a token up. *)
Definition lookup_key (snake_case_keys : bool) (param : PathParameter) : string :=
  if snake_case_keys then _clean_name (pp_name param) else pp_name param.

(** The body of the loop of [substitute_parameters]: the state is
    [(path, missing)]. *)
Definition substitute_step (values : gmap string pyval) (snake_case_keys : bool)
    (st : string * list string) (param : PathParameter) : string * list string :=
  let key := lookup_key snake_case_keys param in
  match dict_get values key with
  | PyNone => (st.1, st.2 ++ [pp_name param])
  | value => (str_replace st.1 (original_format param) (py_str value), st.2)
  end.

Definition substitute_parameters (path_template : string)
    (values : gmap string pyval) (snake_case_keys : bool) : string * list string :=
  fold_left (substitute_step values snake_case_keys)
            (extract_parameters path_template) (path_template, []).

Definition validate_path (path : string) : bool * list string :=
  match extract_parameters path with
  | [] => (true, [])
  | remaining => (false, map pp_name remaining)
  end.

(** ** [utils/spec_parser.py]: operations and their extraction *)

(** A JSON schema object; only its ["type"] entry is ever read. *)
Record Schema : Type := mkSchema {
  schema_type : option string
}.

(** The dictionary [iter_operations] builds for a parameter, with the keys
    [name], [in], [required], [schema] and [description]. *)
Record ParameterDescriptor : Type := mkParameterDescriptor {
  pd_name : option string;
  pd_in : option string;
  pd_required : bool;
  pd_schema : Schema;
  pd_description : string
}.

Record Operation : Type := mkOperation {
  op_name : string;
  op_method : string;
  path_template : string;
  tag_path : list string;
  op_description : string;
  parameters : list ParameterDescriptor;
  request_body_schema : option Schema
}.

(** The specification document, in the shape of the input contract: every
    entry the extractor reads with [.get] is optional. *)
Record ParameterObject : Type := mkParameterObject {
  po_ref : option string;            (* "$ref" *)
  po_name : option string;
  po_in : option string;
  po_required : option bool;
  po_schema : option Schema;
  po_description : option string
}.

Record MediaType : Type := mkMediaType {
  mt_schema : option Schema
}.

Record RequestBody : Type := mkRequestBody {
  rb_content : option (gmap string MediaType)
}.

Record OperationObject : Type := mkOperationObject {
  oo_operationId : option string;
  oo_tags : option (list string);
  oo_description : option string;
  oo_summary : option string;
  oo_parameters : option (list ParameterObject);
  oo_requestBody : option RequestBody
}.

Record OpenAPI : Type := mkOpenAPI {
  oas_paths : list (string * list (string * OperationObject));
  oas_components_parameters : gmap string ParameterObject
}.

(** [x or y] on optional strings: [None] and the empty string are false. *)
Definition str_or (x : option string) (y : string) : string :=
  match x with
  | Some (String a s) => String a s
  | _ => y
  end.

Definition HTTP_METHODS : list string := ["GET"; "POST"; "PUT"; "PATCH"; "DELETE"].

(** The empty dictionary [{}] that [global_params.get(ref, {})] falls back to. *)
Definition empty_parameter_object : ParameterObject :=
  mkParameterObject None None None None None None.

(** The parameter object a list entry stands for: itself, or the shared
    parameter its ["$ref"] names. *)
Definition resolve_parameter (global_params : gmap string ParameterObject)
    (p : ParameterObject) : ParameterObject :=
  match po_ref p with
  | Some ref =>
      match global_params !! Str.last_segment "/" ref with
      | Some q => q
      | None => empty_parameter_object
      end
  | None => p
  end.

Definition make_descriptor (global_params : gmap string ParameterObject)
    (p : ParameterObject) : ParameterDescriptor :=
  let p := resolve_parameter global_params p in
  {| pd_name := po_name p;
     pd_in := po_in p;
     pd_required := match po_required p with Some b => b | None => false end;
     pd_schema := match po_schema p with Some s => s | None => mkSchema None end;
     pd_description := match po_description p with Some d => d | None => "" end |}.

(** The schema under [content["application/json"]].  The test [if rb:]
    only skips an empty object, which has no [content] either. *)
Definition body_schema_of (rb : option RequestBody) : option Schema :=
  match rb with
  | Some rb =>
      match rb_content rb with
      | Some content =>
          match content !! "application/json" with
          | Some mt => mt_schema mt
          | None => None
          end
      | None => None
      end
  | None => None
  end.

(** One [yield] of [iter_operations]. *)
Definition make_operation (global_params : gmap string ParameterObject)
    (path method : string) (op : OperationObject) : Operation :=
  {| op_name := str_or (oo_operationId op) (method +:+ "_" +:+ path);
     op_method := Str.upper method;
     path_template := path;
     tag_path := match oo_tags op with Some l => l | None => [] end;
     op_description :=
       Str.strip (str_or (oo_description op) (str_or (oo_summary op) ""));
     parameters :=
       map (make_descriptor global_params)
           (match oo_parameters op with Some l => l | None => [] end);
     request_body_schema := body_schema_of (oo_requestBody op) |}.

Definition operations_of_path (global_params : gmap string ParameterObject)
    (entry : string * list (string * OperationObject)) : list Operation :=
  flat_map
    (fun mo : string * OperationObject =>
       if bool_decide (Str.upper (fst mo) ∈ HTTP_METHODS)
       then [make_operation global_params (fst entry) (fst mo) (snd mo)]
       else [])
    (snd entry).

Definition iter_operations (oas : OpenAPI) : list Operation :=
  flat_map (operations_of_path (oas_components_parameters oas)) (oas_paths oas).

(** ** [utils/spec_parser.py]: the input model *)

Inductive py_type : Type :=
  | TStr | TInt | TFloat | TBool
  | TListAny                      (* List[Any] *)
  | TDictStrAny                   (* Dict[str, Any] *)
  | TDictStrStr                   (* Dict[str, str] *)
  | TOptional (t : py_type).

Inductive field_default : Type :=
  | Ellipsis                      (* required *)
  | Default (v : pyval).

(** A pair [(type, Field(default=..., description=...))]. *)
Record FieldSpec : Type := mkFieldSpec {
  field_type : py_type;
  field_default_value : field_default;
  field_description : string
}.

Record InputModel : Type := mkInputModel {
  model_name : string;
  model_fields : gmap string FieldSpec
}.

Definition type_of_tag (t : option string) : py_type :=
  match t with
  | Some "integer" => TInt
  | Some "number" => TFloat
  | Some "boolean" => TBool
  | Some "array" => TListAny
  | Some "object" => TDictStrAny
  | _ => TStr
  end.

(** [str(x)] for an optional string inside an f-string. *)
Definition str_of_option (x : option string) : string :=
  match x with
  | Some s => s
  | None => "None"
  end.

Definition parameter_field (p : ParameterDescriptor) : FieldSpec :=
  let py := type_of_tag (schema_type (pd_schema p)) in
  {| field_type := if pd_required p then py else TOptional py;
     field_default_value := if pd_required p then Ellipsis else Default PyNone;
     field_description :=
       Str.strip ("[" +:+ str_of_option (pd_in p) +:+ "] " +:+ pd_description p) |}.

(** The first loop of [_build_input_model_from_operation].  [_clean_name]
    raises [TypeError] on a parameter without a name: the result is [None]. *)
Fixpoint map_parameters (ps : list ParameterDescriptor) (fields : gmap string FieldSpec)
  : option (gmap string FieldSpec) :=
  match ps with
  | [] => Some fields
  | p :: ps' =>
      match pd_name p with
      | Some name => map_parameters ps' (<[ _clean_name name := parameter_field p ]> fields)
      | None => None
      end
  end.

(** [{"page", "per_page"} & param_names or ("cursor" in param_names)] *)
Definition has_pagination (op : Operation) : bool :=
  let param_names := map pd_name (parameters op) in
  bool_decide (Some "page" ∈ param_names) || bool_decide (Some "per_page" ∈ param_names)
  || bool_decide (Some "cursor" ∈ param_names).

Definition body_field : FieldSpec :=
  mkFieldSpec (TOptional TDictStrAny) (Default PyNone) "JSON request body".

Definition extra_headers_field : FieldSpec :=
  mkFieldSpec (TOptional TDictStrStr) (Default PyNone) "Optional extra headers".

Definition include_all_field : FieldSpec :=
  mkFieldSpec (TOptional TBool) (Default (PyBool false))
              "If True, fetch all pages/cursor results.".

Definition _build_input_model_from_operation (op : Operation) : option InputModel :=
  match map_parameters (parameters op) ∅ with
  | Some fields =>
      let fields :=
        match request_body_schema op with
        | Some _ => <[ "body" := body_field ]> fields
        | None => fields
        end in
      let fields := <[ "extra_headers" := extra_headers_field ]> fields in
      let fields :=
        if has_pagination op then <[ "include_all" := include_all_field ]> fields
        else fields in
      Some (mkInputModel (_clean_name (op_name op) +:+ "_Input") fields)
  | None => None
  end.

(** ** [toolset.py]: the registry *)

(** The two dictionaries of an [AvathonToolset]. *)
Record Toolset : Type := mkToolset {
  _operations_by_name : gmap string Operation;
  _registry : gmap string string
}.

(** What [__init__] assigns, and what the [except] branch of
    [_load_operations] assigns again. *)
Definition empty_toolset : Toolset := mkToolset ∅ ∅.

(** [op.description or f"{op.method} {op.path_template}"] *)
Definition describe (op : Operation) : string :=
  str_or (Some (op_description op)) (op_method op +:+ " " +:+ path_template op).

(** The body of the loop of [_load_operations]. *)
Definition register (ts : Toolset) (op : Operation) : Toolset :=
  let tool_name := _clean_name (op_name op) in
  {| _operations_by_name := <[ tool_name := op ]> (_operations_by_name ts);
     _registry := <[ tool_name := describe op ]> (_registry ts) |}.

(** A computation that may raise: the value, or the text of the exception. *)
Inductive exc (A : Type) : Type :=
  | Return (a : A)
  | Raise (msg : string).
Arguments Return {A} a.
Arguments Raise {A} msg.

Section Loading.

(** The stored document, and the two steps that may raise: reading it
    ([_load_spec_file]) and walking it ([list(OpenAPIExtractor(spec)
    .iter_operations())]). *)
Variable document : Type.
Variable _load_spec_file : exc document.
Variable extract : document -> exc (list Operation).

(** The [try] block of [_load_operations], run on the toolset [ts]: the
    toolset as the block leaves it, and the exception if one was raised. *)
Definition load_body (ts : Toolset) : Toolset * option string :=
  match _load_spec_file with
  | Raise e => (ts, Some e)
  | Return oas_spec =>
      match extract oas_spec with
      | Raise e => (ts, Some e)
      | Return oas_ops => (fold_left register oas_ops ts, None)
      end
  end.

Definition _load_operations (ts : Toolset) : Toolset :=
  match load_body ts with
  | (ts', None) => ts'
  | (_, Some _) => empty_toolset
  end.

(** [AvathonToolset()] *)
Definition AvathonToolset_init : Toolset := _load_operations empty_toolset.

End Loading.

(** Loading a document of the modelled shape: extraction does not raise. *)
Definition load_openapi (oas : OpenAPI) : Toolset :=
  AvathonToolset_init OpenAPI (Return oas) (fun d => Return (iter_operations d)).

(** Lookup by tool name, as [get_tool_schema] and [create_toolset] do. *)
Definition get_operation (ts : Toolset) (tool_name : string) : option Operation :=
  _operations_by_name ts !! tool_name.

(** ** [toolset.py]: invocation *)

(** A validated instance of the input model.  The [extra_headers] field
    always has type [Optional[Dict[str, str]]]; the [body] field has type
    [Optional[Dict[str, Any]]] when the operation has a request body. *)
Record ToolInput : Type := mkToolInput {
  ti_fields : gmap string pyval;
  ti_body : option (list (string * pyval));
  ti_extra_headers : option (list (string * string))
}.

(** [exclude_none]: a field whose value is [None] is left out. *)
Definition not_none (v : pyval) : option pyval :=
  match v with
  | PyNone => None
  | _ => Some v
  end.

(** [input_data.model_dump(exclude_none=True)] *)
Definition model_dump (input_data : ToolInput) : gmap string pyval :=
  let kw := omap not_none (delete "extra_headers" (ti_fields input_data)) in
  let kw :=
    match ti_body input_data with
    | Some b => <[ "body" := PyDict b ]> kw
    | None => kw
    end in
  match ti_extra_headers input_data with
  | Some h => <[ "extra_headers" := PyDict (map (fun kv => (fst kv, PyStr (snd kv))) h) ]> kw
  | None => kw
  end.

Record Request : Type := mkRequest {
  req_method : string;
  req_path : string;
  req_params : option (gmap string pyval);
  req_json_body : option pyval;
  req_headers : option (gmap string string)
}.

(** An [httpx.Response]: the status code, the decoded body ([None] when
    [response.json()] raises) and the text. *)
Record Response : Type := mkResponse {
  status_code : Z;
  resp_json : option pyval;
  resp_text : string
}.

(** The failure classes of the error taxonomy; every [raise ModelRetry]
    of [tool_func] belongs to one of them. *)
Inductive failure : Type :=
  | MissingPathParameter
  | UnresolvedPathTemplate
  | AuthenticationFailure
  | AuthorizationFailure
  | NotFound
  | InvalidRequest
  | RemoteUnavailable
  | UnclassifiedTransportError.

Global Instance failure_eq_dec : EqDecision failure.
Proof. solve_decision. Defined.

Inductive outcome : Type :=
  | Success (result : pyval)
  | ModelRetry (kind : failure) (message : string).

(** [repr(l)] for a list of strings, as [f"{missing}"] prints it. *)
Definition repr_str_list (l : list string) : string :=
  "[" +:+ Str.join ", " (map repr_str l) +:+ "]".

(** [str(e)] of the [TypeError] that [re.match] raises on [None]. *)
Definition TypeError_none : string :=
  "expected string or bytes-like object, got 'NoneType'".

(** The body of the loop over [op.parameters]: the state is
    [(query_params, request_headers)]. *)
Definition route_parameter (kwargs : gmap string pyval)
    (st : gmap string pyval * gmap string string) (param : ParameterDescriptor)
  : exc (gmap string pyval * gmap string string) :=
  match pd_name param with
  | None => Raise TypeError_none
  | Some param_name =>
      match kwargs !! _clean_name param_name with
      | Some PyNone | None => Return st
      | Some value =>
          match pd_in param with
          | Some "query" => Return (<[ param_name := value ]> st.1, st.2)
          | Some "header" => Return (st.1, <[ param_name := py_str value ]> st.2)
          | _ => Return st
          end
      end
  end.

Fixpoint route_parameters (kwargs : gmap string pyval)
    (params : list ParameterDescriptor) (st : gmap string pyval * gmap string string)
  : exc (gmap string pyval * gmap string string) :=
  match params with
  | [] => Return st
  | p :: params' =>
      match route_parameter kwargs st p with
      | Return st' => route_parameters kwargs params' st'
      | Raise e => Raise e
      end
  end.

(** [request_headers.update(extra_headers)] when [extra_headers] is true. *)
Definition update_headers (headers : gmap string string) (extra : option pyval)
  : gmap string string :=
  match extra with
  | Some (PyDict d) =>
      fold_left (fun h kv => <[ fst kv := py_str (snd kv) ]> h) d headers
  | _ => headers
  end.

Definition none_if_empty {V : Type} (m : gmap string V) : option (gmap string V) :=
  if decide (m = ∅) then None else Some m.

(** [response.raise_for_status()] of httpx: an [HTTPStatusError] unless the
    status is a success (2xx). *)
Definition raises_for_status (r : Response) : bool :=
  negb ((200 <=? status_code r)%Z && (status_code r <=? 299)%Z).

(** [error_data.get('message', 'Bad request')], ["Bad request"] as well
    when the body does not decode to a dictionary. *)
Definition bad_request_message (r : Response) : string :=
  match resp_json r with
  | Some (PyDict d) =>
      match list_find (fun kv => fst kv = "message") d with
      | Some (_, (_, v)) => py_str v
      | None => "Bad request"
      end
  | _ => "Bad request"
  end.

(** The handler of [HTTPStatusError]. *)
Definition classify_status (op : Operation) (r : Response) : outcome :=
  let status := status_code r in
  if (status =? 401)%Z then
    ModelRetry AuthenticationFailure
      "Authentication failed (401). Please check your AVATHON_API_KEY."
  else if (status =? 403)%Z then
    ModelRetry AuthorizationFailure
      ("Access denied (403). You may not have permission for this resource in "
         +:+ op_name op +:+ ".")
  else if (status =? 404)%Z then
    ModelRetry NotFound
      ("Resource not found (404). Please verify the parameters are correct for "
         +:+ op_name op +:+ ".")
  else if (status =? 400)%Z then
    ModelRetry InvalidRequest
      ("Invalid request (400): " +:+ bad_request_message r
         +:+ ". Please check your parameters for " +:+ op_name op +:+ ".")
  else if (500 <=? status)%Z then
    ModelRetry RemoteUnavailable
      ("Avathon server error (" +:+ str_of_Z status
         +:+ "). The service may be temporarily unavailable.")
  else
    ModelRetry UnclassifiedTransportError
      ("API error (" +:+ str_of_Z status +:+ ") for " +:+ op_name op
         +:+ ". Please check your request.").

(** The handling of a response that was received. *)
Definition handle_response (op : Operation) (r : Response) : outcome :=
  if raises_for_status r then classify_status op r
  else
    match resp_json r with
    | Some v => Success v
    | None =>
        Success (PyDict [("data", PyStr (resp_text r));
                         ("status_code", PyInt (status_code r))])
    end.

(** The outermost handler: any other exception. *)
Definition execution_failed (op : Operation) (e : string) : outcome :=
  ModelRetry UnclassifiedTransportError
    ("Tool execution failed for " +:+ op_name op +:+ ": " +:+ e
       +:+ ". Please check your parameters and try again.").

Section Invocation.

(** The transport collaborator: [get_avathon_client()] may raise, and so
    may [client.request]. *)
Variable get_avathon_client : exc (Request -> exc Response).

(** [tool_func] for the operation [op]: the outcome, and the requests
    issued through the client, in order. *)
Definition tool_func (op : Operation) (input_data : ToolInput)
  : outcome * list Request :=
  match get_avathon_client with
  | Raise e => (execution_failed op e, [])
  | Return client =>
      let kwargs := model_dump input_data in
      let '(path, missing) :=
        substitute_parameters (path_template op) kwargs false in
      match missing with
      | _ :: _ =>
          (ModelRetry MissingPathParameter
             ("Missing required path parameters: " +:+ Str.join ", " missing
                +:+ ". Please provide values for: " +:+ repr_str_list missing), [])
      | [] =>
          match validate_path path with
          | (false, remaining) =>
              (ModelRetry UnresolvedPathTemplate
                 ("Failed to substitute all parameters in " +:+ op_name op
                    +:+ ". Unresolved: " +:+ Str.join ", " remaining), [])
          | (true, _) =>
              let request_body := kwargs !! "body" in
              let extra_headers := kwargs !! "extra_headers" in
              let kwargs := delete "extra_headers" (delete "body" kwargs) in
              match route_parameters kwargs (parameters op) (∅, ∅) with
              | Raise e => (execution_failed op e, [])
              | Return (query_params, request_headers) =>
                  let request_headers := update_headers request_headers extra_headers in
                  let request :=
                    {| req_method := op_method op;
                       req_path := path;
                       req_params := none_if_empty query_params;
                       req_json_body := request_body;
                       req_headers := none_if_empty request_headers |} in
                  match client request with
                  | Raise e => (execution_failed op e, [request])
                  | Return response => (handle_response op response, [request])
                  end
              end
          end
      end
  end.

End Invocation.

(** ** Vocabulary of the properties: tokens and texts *)

Definition is_none (v : pyval) : bool :=
  match v with
  | PyNone => true
  | _ => false
  end.

(** A token whose lookup key has no value, or the value [None]. *)
Definition unmapped (values : gmap string pyval) (snake_case_keys : bool)
    (param : PathParameter) : bool :=
  is_none (dict_get values (lookup_key snake_case_keys param)).

(** The path after the replacement of the text of one token by its value. *)
Definition replace_token (values : gmap string pyval) (f : bool)
    (path : string) (p : PathParameter) : string :=
  str_replace path (original_format p) (py_str (dict_get values (lookup_key f p))).

(** The names [tool_func] reports: those of the placeholders of the
    template that have no value in the dumped input. *)
Definition missing_names (op : Operation) (input_data : ToolInput) : list string :=
  map pp_name
    (filter (fun p => unmapped (model_dump input_data) false p = true)
            (extract_parameters (path_template op))).

(** A non-empty run of word characters. *)
Definition word (w : string) : Prop := w <> "" /\ Str.all is_word w = true.

(** The text of a match: prefix, name, suffix of one of the patterns. *)
Definition placeholder_text (nm o : string) : Prop :=
  exists pat, pat ∈ map fst PARAMETER_PATTERNS
    /\ word nm /\ o = pat_prefix pat +:+ nm +:+ pat_suffix pat.

Definition hot (c : ascii) : bool :=
  Ascii.eqb c "{" || Ascii.eqb c ":" || Ascii.eqb c "<".

Definition inert (s : string) : bool := Str.all (fun c => negb (hot c)) s.

(** Every hot character of [s] begins an occurrence of a text of [A]. *)
Fixpoint covered (A : string -> Prop) (s : string) : Prop :=
  match s with
  | EmptyString => True
  | String c s' =>
      (hot c = true -> exists o, A o /\ Str.startswith o (String c s') = true)
      /\ covered A s'
  end.

Definition texts (tokens : list PathParameter) : list string :=
  map original_format tokens.

(** No token written [{name}] comes before the first token written
    [{{name}}]. [seen] holds the texts of the tokens already passed. *)
Fixpoint wrapped_first (seen : list string) (tokens : list PathParameter) : bool :=
  match tokens with
  | [] => true
  | r :: rest =>
      let wrapped := "{" +:+ original_format r +:+ "}" in
      (negb (bool_decide (wrapped ∈ texts rest)) || bool_decide (wrapped ∈ seen))
      && wrapped_first (original_format r :: seen) rest
  end.

(** Every token has a value, and the text of every value is inert. *)
Definition values_fit (values : gmap string pyval) (f : bool)
    (tokens : list PathParameter) : bool :=
  forallb (fun p => negb (unmapped values f p)
                    && inert (py_str (dict_get values (lookup_key f p)))) tokens.

(** Every hot character of the template is at the offset of a token. *)
Fixpoint cover_from (positions : list nat) (pos : nat) (s : string) : bool :=
  match s with
  | EmptyString => true
  | String c s' =>
      (negb (hot c) || bool_decide (pos ∈ positions))
      && cover_from positions (S pos) s'
  end.

Definition placeholders_cover (t : string) : bool :=
  cover_from (map position (extract_parameters t)) 0 t.

(** One token comes at a smaller offset than another. *)
Definition offset_lt (p q : PathParameter) : Prop := position p < position q.

(** ** Vocabulary of the properties: specifications and models *)

(** The entries of the parameter list of an operation object. *)
Definition declared_parameters (oo : OperationObject) : list ParameterObject :=
  match oo_parameters oo with
  | Some l => l
  | None => []
  end.

(** The required flag as a parameter object writes it: false when it is
    not written. *)
Definition written_required (q : ParameterObject) : bool :=
  match po_required q with
  | Some b => b
  | None => false
  end.

(** A descriptor is the copy of an entry of a parameter list: it has the
    name, the location and the required flag that the entry, dereferenced,
    writes. *)
Definition copies_entry (gp : gmap string ParameterObject)
    (pd : ParameterDescriptor) (p : ParameterObject) : Prop :=
  pd_name pd = po_name (resolve_parameter gp p)
  /\ pd_in pd = po_in (resolve_parameter gp p)
  /\ pd_required pd = written_required (resolve_parameter gp p).

(** The specification writes [required: true] on every path parameter:
    checked on each entry of each parameter list after dereferencing. *)
Definition declares_required (gp : gmap string ParameterObject) (p : ParameterObject) : bool :=
  let q := resolve_parameter gp p in
  match po_in q with
  | Some "path" => match po_required q with Some true => true | _ => false end
  | _ => true
  end.

Definition path_parameters_declared_required (oas : OpenAPI) : bool :=
  forallb
    (fun entry : string * list (string * OperationObject) =>
       forallb
         (fun mo : string * OperationObject =>
            forallb (declares_required (oas_components_parameters oas))
                    (declared_parameters (snd mo)))
         (snd entry))
    (oas_paths oas).

Definition all_named (op : Operation) : bool :=
  forallb (fun p => bool_decide (is_Some (pd_name p))) (parameters op).

(** ** The statements of the specification that the code does not meet *)

(** C1 as the specification states it: a value for every placeholder name is
    enough for the substituted path to validate. *)
Definition complete_values_validate : Prop :=
  forall (t : string) (values : gmap string pyval) (f : bool),
    (forall p, p ∈ extract_parameters t -> unmapped values f p = false) ->
    validate_path (substitute_parameters t values f).1 = (true, []).

(** C2 as the specification states it: an input that lacks a value for one
    of the operation's path-location parameters fails with the missing-path-
    parameter error, and nothing is sent. *)
Definition absent_path_parameter_fails : Prop :=
  forall (client : Request -> exc Response) (op : Operation) (input_data : ToolInput)
         (pd : ParameterDescriptor) (name : string),
    pd ∈ parameters op ->
    pd_in pd = Some "path" ->
    pd_name pd = Some name ->
    model_dump input_data !! _clean_name name = None ->
    exists msg,
      tool_func (Return client) op input_data = (ModelRetry MissingPathParameter msg, []).

(** C10 as the specification states it: the occurrence of a name mapped to
    [None] is still in the returned path, and the name is reported. *)
Definition none_occurrence_kept : Prop :=
  forall (t : string) (values : gmap string pyval) (f : bool) (param : PathParameter),
    param ∈ extract_parameters t ->
    values !! lookup_key f param = Some PyNone ->
    Str.contains (original_format param) (substitute_parameters t values f).1 = true
    /\ pp_name param ∈ (substitute_parameters t values f).2.

(** C3 as the specification states it: every unmapped placeholder name is
    in the missing list exactly once. *)
Definition each_missing_name_once : Prop :=
  forall (t : string) (values : gmap string pyval) (f : bool) (param : PathParameter),
    param ∈ extract_parameters t ->
    unmapped values f param = true ->
    count_occ string_dec (substitute_parameters t values f).2 (pp_name param) = 1.

(** C6 as the specification states it: a path parameter of an extracted
    operation is required. *)
Definition path_implies_required : Prop :=
  forall (oas : OpenAPI) (op : Operation) (pd : ParameterDescriptor),
    op ∈ iter_operations oas ->
    pd ∈ parameters op ->
    pd_in pd = Some "path" ->
    pd_required pd = true.

(** C7 as the specification states it, on the registry: every extracted
    operation is found again under its cleaned name. *)
Definition name_round_trips : Prop :=
  forall (oas : OpenAPI) (op : Operation),
    op ∈ iter_operations oas ->
    get_operation (load_openapi oas) (_clean_name (op_name op)) = Some op.

(** C9 as the specification states it: the field is there exactly for the
    operations that have both [page] and [per_page], or [cursor]. *)
Definition include_all_iff_both_or_cursor : Prop :=
  forall (op : Operation) (m : InputModel),
    _build_input_model_from_operation op = Some m ->
    (is_Some (model_fields m !! "include_all")
     <-> (Some "page" ∈ map pd_name (parameters op)
          /\ Some "per_page" ∈ map pd_name (parameters op))
         \/ Some "cursor" ∈ map pd_name (parameters op)).

(** ** Sample operations and specifications *)

Definition plant_operation : Operation :=
  {| op_name := "plant";
     op_method := "GET";
     path_template := "/Plant/{plantId}";
     tag_path := ["Plants"];
     op_description := "Plant details";
     parameters := [ mkParameterDescriptor (Some "plantId") (Some "path") true
                       (mkSchema (Some "integer")) "" ];
     request_body_schema := None |}.

Definition plant_input : ToolInput :=
  mkToolInput (<["plantId" := PyInt 123]> ∅) None None.

Definition plant_request : Request :=
  mkRequest "GET" "/Plant/123" None None None.

Definition always (status : Z) : Request -> exc Response :=
  fun _ => Return (mkResponse status None "").

Definition items_operation : Operation :=
  {| op_name := "items";
     op_method := "GET";
     path_template := "/items";
     tag_path := [];
     op_description := "";
     parameters := [ mkParameterDescriptor (Some "id") (Some "path") false
                       (mkSchema (Some "string")) "" ];
     request_body_schema := None |}.

Definition report_operation : Operation :=
  {| op_name := "report";
     op_method := "GET";
     path_template := "/reports/{format}";
     tag_path := [];
     op_description := "";
     parameters := [ mkParameterDescriptor (Some "format") (Some "query") false
                       (mkSchema (Some "string")) "" ];
     request_body_schema := None |}.

Definition plant_entry_without_flag : OpenAPI :=
  {| oas_paths :=
       [ ("/Plant/{plantId}",
          [ ("get",
             mkOperationObject (Some "plant") None None None
               (Some [ mkParameterObject None (Some "plantId") (Some "path") (Some false)
                         None None ])
               None) ]) ];
     oas_components_parameters := ∅ |}.

Definition plant_without_flag : Operation :=
  {| op_name := "plant"; op_method := "GET"; path_template := "/Plant/{plantId}";
     tag_path := []; op_description := "";
     parameters := [ mkParameterDescriptor (Some "plantId") (Some "path") false
                       (mkSchema None) "" ];
     request_body_schema := None |}.

Definition plant_entry : OpenAPI :=
  {| oas_paths :=
       [ ("/Plant/{plantId}",
          [ ("get",
             mkOperationObject (Some "plant") (Some ["Plants"]) None (Some " Plant details ")
               (Some [ mkParameterObject (Some "#/components/parameters/plantId")
                         None None None None None;
                       mkParameterObject None (Some "page") (Some "query") None
                         (Some (mkSchema (Some "integer"))) None ])
               None) ]) ];
     oas_components_parameters :=
       <["plantId" := mkParameterObject None (Some "plantId") (Some "path") (Some true)
                        (Some (mkSchema (Some "integer"))) (Some "Plant id") ]> ∅ |}.

(** The operation object of [plant_entry]: the first parameter is a
    reference, the second writes no [required] entry. *)
Definition plant_object : OperationObject :=
  mkOperationObject (Some "plant") (Some ["Plants"]) None (Some " Plant details ")
    (Some [ mkParameterObject (Some "#/components/parameters/plantId")
              None None None None None;
            mkParameterObject None (Some "page") (Some "query") None
              (Some (mkSchema (Some "integer"))) None ])
    None.

Definition get_entry (operationId : string) : list (string * OperationObject) :=
  [ ("get", mkOperationObject (Some operationId) None None None None None) ].

Definition colliding_entries : OpenAPI :=
  {| oas_paths := [ ("/first", get_entry "123resource");
                    ("/second", get_entry "param_123resource") ];
     oas_components_parameters := ∅ |}.

Definition digit_entries : OpenAPI :=
  {| oas_paths := [ ("/first", get_entry "123resource");
                    ("/second", [ ("get", mkOperationObject None None None None None None) ]) ];
     oas_components_parameters := ∅ |}.

Definition paged_operation : Operation :=
  {| op_name := "assets";
     op_method := "GET";
     path_template := "/assets";
     tag_path := [];
     op_description := "";
     parameters := [ mkParameterDescriptor (Some "page") (Some "query") false
                       (mkSchema (Some "integer")) "Page number" ];
     request_body_schema := None |}.

Definition paged_model : InputModel :=
  {| model_name := "assets_Input";
     model_fields :=
       <["include_all" := include_all_field]>
         (<["extra_headers" := extra_headers_field]>
            (<["page" := mkFieldSpec (TOptional TInt) (Default PyNone) "[query] Page number"]> ∅))
  |}.

(** * Further parts of the code *)

(** The scan keeps a token for every offset it has seen. *)
Definition seen_have_tokens (st : list PathParameter * gset nat) : Prop :=
  forall k, k ∈ st.2 -> exists p, p ∈ st.1 /\ position p = k.

(** What follows the name is not a word character. *)
Definition head_is_word (s : string) : bool :=
  match s with
  | String c _ => is_word c
  | EmptyString => false
  end.

(** ** [get_parameter_info] *)





(** ** [create_robust_path_handler] *)

(** The client default that stands in for a missing name, if there is one:
    [default_company_id] for [company_id] and [default_project_id] for
    [project_id], when the key is in [client_defaults]. *)
Definition default_for (client_defaults : gmap string pyval) (param : string)
  : option pyval :=
  if decide (param = "company_id") then client_defaults !! "default_company_id"
  else if decide (param = "project_id") then client_defaults !! "default_project_id"
  else None.

(** The three [path.replace] calls for a default. *)
Definition fill_default (path param value : string) : string :=
  let path := str_replace path (":" +:+ param) value in
  let path := str_replace path ("{" +:+ param +:+ "}") value in
  str_replace path ("{{" +:+ param +:+ "}}") value.

(** The body of the loop over [missing]: the state is
    [(path, still_missing)]. *)
Definition default_step (client_defaults : gmap string pyval)
    (st : string * list string) (param : string) : string * list string :=
  match default_for client_defaults param with
  | Some v => (fill_default st.1 param (py_str v), st.2)
  | None => (st.1, st.2 ++ [param])
  end.

(** [substitute_path(kwargs, client_defaults)] for the operation [op]: the
    pair of the path and the error message, one of which is [None]. *)
Definition substitute_path (op : Operation) (kwargs client_defaults : gmap string pyval)
  : option string * option string :=
  let all_values := kwargs ∪ client_defaults in
  let '(path, missing) := substitute_parameters (path_template op) all_values true in
  let '(path, still_missing) :=
    fold_left (default_step client_defaults) missing (path, []) in
  match still_missing with
  | _ :: _ =>
      (None, Some ("Missing required parameters: " +:+ Str.join ", " still_missing))
  | [] =>
      match validate_path path with
      | (false, remaining) =>
          (None, Some ("Failed to substitute parameters: " +:+ Str.join ", " remaining))
      | (true, _) => (Some path, None)
      end
  end.

Definition company_items : Operation :=
  {| op_name := "items";
     op_method := "GET";
     path_template := "/companies/:company_id/projects/{project_id}/items/{{id}}";
     tag_path := [];
     op_description := "";
     parameters := [];
     request_body_schema := None |}.

(** ** The input model: its fields *)

(** The field name of a parameter: its cleaned name. *)
Definition field_key (p : ParameterDescriptor) : option string :=
  _clean_name <$> pd_name p.

Definition dangling_reference : OperationObject :=
  mkOperationObject (Some "plant") None None None
    (Some [ mkParameterObject (Some "#/components/parameters/plantId")
              (Some "ignored") (Some "path") (Some true) None None ])
    None.

(** ** [_schema_to_field] *)

(** A JSON schema with the entries [_schema_to_field] reads. *)
Inductive JsonSchema : Type :=
  | mkJsonSchema (js_type : option string) (js_items : option JsonSchema)
                 (js_description : option string).

(** The type annotations [_schema_to_field] builds. *)
Inductive annotation : Type :=
  | AAny | AStr | AInt | AFloat | ABool
  | AList (item : annotation)
  | ADictStrAny
  | AOptional (a : annotation).

(** What [_schema_to_field] returns for the empty schema [{}] when not
    required. *)
Definition empty_schema_field : annotation * field_default * string :=
  (AOptional AAny, Default PyNone, "").

(** [_schema_to_field(name, schema, required)]: the annotation, the
    default and the description of the field.  The name is only extended,
    never read. *)
Fixpoint _schema_to_field (schema : JsonSchema) (required : bool)
  : annotation * field_default * string :=
  match schema with
  | mkJsonSchema t items description =>
      let desc := match description with Some d => d | None => "" end in
      let typ :=
        match t with
        | Some "string" => AStr
        | Some "integer" => AInt
        | Some "number" => AFloat
        | Some "boolean" => ABool
        | Some "array" =>
            let item :=
              match items with
              | Some i => _schema_to_field i false
              | None => empty_schema_field
              end in
            AList item.1.1
        | Some "object" => ADictStrAny
        | _ => AAny
        end in
      (if required then typ else AOptional typ,
       if required then Ellipsis else Default PyNone,
       desc)
  end.

Definition is_optional (a : annotation) : bool :=
  match a with
  | AOptional _ => true
  | _ => false
  end.

Definition js_type_of (s : JsonSchema) : option string :=
  match s with mkJsonSchema t _ _ => t end.

(** ** The registry: the two dictionaries agree *)

(** Every stored operation is stored under its cleaned name and described
    in the registry, and the registry has no other name. *)
Definition dictionaries_agree (ts : Toolset) : Prop :=
  forall name,
    match _operations_by_name ts !! name with
    | Some op => _registry ts !! name = Some (describe op)
                 /\ name = _clean_name (op_name op)
    | None => _registry ts !! name = None
    end.

(** ** [get_tools] *)

(** [str.lower] on ASCII letters *)
Definition lower_char (c : ascii) : ascii :=
  if Str.is_upper c then ascii_of_N (Str.code c + 32) else c.

Fixpoint str_lower (s : string) : string :=
  match s with
  | EmptyString => EmptyString
  | String a s' => String (lower_char a) (str_lower s')
  end.

(** [d[k] = v] on a dictionary kept as the list of its items: a key that
    is there keeps its place. *)
Fixpoint dict_set {V : Type} (k : string) (v : V) (items : list (string * V))
  : list (string * V) :=
  match items with
  | [] => [(k, v)]
  | (k', v') :: rest =>
      if decide (k = k') then (k, v) :: rest else (k', v') :: dict_set k v rest
  end.

(** The search filter: some term is, in lower case, a part of the lowered
    text [name description]. *)
Definition matches_search (search_terms : list string) (tool_name description : string)
  : bool :=
  let text := str_lower (tool_name +:+ " " +:+ description) in
  existsb (fun term => Str.contains (str_lower term) text) search_terms.

(** The method filter: an operation that is known must have one of the
    methods, which are compared in upper case. *)
Definition matches_methods (ts : Toolset) (methods : list string) (tool_name : string)
  : bool :=
  match _operations_by_name ts !! tool_name with
  | Some op => bool_decide (op_method op ∈ map Str.upper methods)
  | None => true
  end.

(** The category filter: some category is, in lower case, one of the
    lowered tags of the operation, when the operation is known. *)
Definition matches_categories (ts : Toolset) (categories : list string)
    (tool_name : string) : bool :=
  match _operations_by_name ts !! tool_name with
  | Some op =>
      existsb (fun cat => bool_decide (str_lower cat ∈ map str_lower (tag_path op)))
              categories
  | None => true
  end.

(** The three tests of one iteration; an empty list (or [None]) switches a
    filter off. *)
Definition passes_filters (ts : Toolset) (search_terms categories methods : list string)
    (tool_name description : string) : bool :=
  (match search_terms with
   | [] => true
   | _ => matches_search search_terms tool_name description
   end)
  && (match methods with [] => true | _ => matches_methods ts methods tool_name end)
  && (match categories with
      | [] => true
      | _ => matches_categories ts categories tool_name
      end).

(** The loop of [get_tools] over [self._registry.items()], from the
    results so far. *)
Fixpoint get_tools_loop (ts : Toolset) (search_terms categories methods : list string)
    (limit : Z) (items results : list (string * string)) : list (string * string) :=
  match items with
  | [] => results
  | (tool_name, description) :: rest =>
      if (limit <=? Z.of_nat (length results))%Z then results
      else if passes_filters ts search_terms categories methods tool_name description
      then get_tools_loop ts search_terms categories methods limit rest
             (dict_set tool_name description results)
      else get_tools_loop ts search_terms categories methods limit rest results
  end.

(** [get_tools]; [items] is [self._registry.items()], the registry in the
    order in which its names were first stored. *)
Definition get_tools (ts : Toolset) (items : list (string * string))
    (search_terms categories methods : list string) (limit : Z)
  : list (string * string) :=
  get_tools_loop ts search_terms categories methods limit items [].

(** ** [get_tool_schema] *)

(** An entry of the ["parameters"] list of a tool schema. *)
Record ParameterSchema : Type := mkParameterSchema {
  ps_name : option string;
  ps_in : option string;
  ps_required : bool;
  ps_type : string;
  ps_description : string
}.

(** The dictionary [get_tool_schema] returns for a known tool. *)
Record ToolSchema : Type := mkToolSchema {
  sch_name : string;
  sch_description : string;
  sch_method : string;
  sch_path : string;
  sch_tags : list string;
  sch_parameters : list ParameterSchema;
  sch_has_request_body : bool
}.

Definition parameter_schema (p : ParameterDescriptor) : ParameterSchema :=
  {| ps_name := pd_name p;
     ps_in := pd_in p;
     ps_required := pd_required p;
     ps_type := match schema_type (pd_schema p) with Some t => t | None => "string" end;
     ps_description := pd_description p |}.

(** [get_tool_schema(tool_name)]: the schema, or the dictionary
    [{"error": ...}] as its message. *)
Definition get_tool_schema (ts : Toolset) (tool_name : string) : string + ToolSchema :=
  match _operations_by_name ts !! tool_name with
  | None => inl ("Tool '" +:+ tool_name +:+ "' not found")
  | Some op =>
      inr {| sch_name := tool_name;
             sch_description := describe op;
             sch_method := op_method op;
             sch_path := path_template op;
             sch_tags := tag_path op;
             sch_parameters := map parameter_schema (parameters op);
             sch_has_request_body :=
               match request_body_schema op with Some _ => true | None => false end |}
  end.

(** ** Invocation: the request *)

(** The keyword arguments left after [body] and [extra_headers] are
    popped. *)
Definition parameter_kwargs (input_data : ToolInput) : gmap string pyval :=
  delete "extra_headers" (delete "body" (model_dump input_data)).

(** The value sent for the parameter [name]: the one under its cleaned
    name, if it is there and not [None]. *)
Definition sent_value (kwargs : gmap string pyval) (name : string) : option pyval :=
  match kwargs !! _clean_name name with
  | Some PyNone | None => None
  | Some v => Some v
  end.

(** The operation declares a parameter [name] at the location [loc]. *)
Definition declared_at (op : Operation) (loc name : string) : bool :=
  existsb (fun pd => bool_decide (pd_name pd = Some name /\ pd_in pd = Some loc))
          (parameters op).

(** The header that [extra_headers] sets for [k]: the dictionary is read
    in order, so the last binding of a key stands. *)
Definition extra_header (input_data : ToolInput) (k : string) : option string :=
  match ti_extra_headers input_data with
  | Some h => (list_to_map (reverse h) : gmap string string) !! k
  | None => None
  end.

Definition search_operation : Operation :=
  {| op_name := "search";
     op_method := "GET";
     path_template := "/assets";
     tag_path := [];
     op_description := "";
     parameters := [ mkParameterDescriptor (Some "page") (Some "query") false
                       (mkSchema (Some "integer")) "";
                     mkParameterDescriptor (Some "tenant") (Some "header") false
                       (mkSchema (Some "integer")) "" ];
     request_body_schema := None |}.

Definition search_input : ToolInput :=
  mkToolInput (<["page" := PyInt 2]> (<["tenant" := PyInt 7]> ∅)) None
              (Some [("tenant", "9"); ("trace", "on")]).

Definition search_request : Request :=
  mkRequest "GET" "/assets" (Some (<["page" := PyInt 2]> ∅)) None
            (Some (<["tenant" := "9"]> (<["trace" := "on"]> ∅))).

(** An operation without request body that declares a query parameter
    named [body]. *)
Definition notes_operation : Operation :=
  {| op_name := "notes";
     op_method := "GET";
     path_template := "/notes";
     tag_path := [];
     op_description := "";
     parameters := [ mkParameterDescriptor (Some "page") (Some "query") false
                       (mkSchema (Some "integer")) "";
                     mkParameterDescriptor (Some "body") (Some "query") false
                       (mkSchema (Some "string")) "" ];
     request_body_schema := None |}.

Definition notes_input : ToolInput :=
  mkToolInput (<["page" := PyInt 2]> (<["body" := PyStr "text"]> ∅)) None None.

Definition notes_request : Request :=
  mkRequest "GET" "/notes" (Some (<["page" := PyInt 2]> ∅)) (Some (PyStr "text")) None.

Definition code_operation : Operation :=
  {| op_name := "code";
     op_method := "GET";
     path_template := "/codes/{2fa}";
     tag_path := [];
     op_description := "";
     parameters := [ mkParameterDescriptor (Some "2fa") (Some "path") true
                       (mkSchema (Some "string")) "" ];
     request_body_schema := None |}.

Definition code_model : InputModel :=
  {| model_name := "code_Input";
     model_fields :=
       <["extra_headers" := extra_headers_field]>
         (<["param_2fa" := mkFieldSpec TStr Ellipsis "[path]"]> ∅) |}.

Definition code_input : ToolInput :=
  mkToolInput (<["param_2fa" := PyStr "1234"]> ∅) None None.

(** ** [client.py] *)

(** [s.rstrip(c)] for a one-character [c] *)
Fixpoint rstrip_char (c : ascii) (s : string) : string :=
  match s with
  | EmptyString => EmptyString
  | String a s' =>
      match rstrip_char c s' with
      | EmptyString => if Ascii.eqb a c then EmptyString else String a EmptyString
      | r => String a r
      end
  end.

(** The truth value of an [Optional[str]]: [None] and [""] are false. *)
Definition truthy (s : option string) : bool :=
  match s with
  | Some (String _ _) => true
  | _ => false
  end.

(** The fields of an [AvathonClient] that [__init__] computes. *)
Record AvathonClient : Type := mkAvathonClient {
  api_key : string;
  base_url : string
}.

(** [AvathonClient.__init__]; [getenv] is [os.getenv("AVATHON_API_KEY")]. *)
Definition AvathonClient_init (getenv : option string) (api_key : option string)
    (deployment : string) (base_url : option string) : exc AvathonClient :=
  let key := if truthy api_key then api_key else getenv in
  match key with
  | Some (String a k) =>
      Return
        {| api_key := String a k;
           base_url :=
             match base_url with
             | Some (String b u) => rstrip_char "/" (String b u)
             | _ => "https://" +:+ deployment +:+ ".apm.sparkcognition.com/v2"
             end |}
  | _ => Raise "AVATHON_API_KEY environment variable or api_key parameter required"
  end.

(** The last character of a text. *)
Fixpoint last_char (s : string) : option ascii :=
  match s with
  | EmptyString => None
  | String a EmptyString => Some a
  | String _ s' => last_char s'
  end.

(** [n] slashes *)
Fixpoint slashes (n : nat) : string :=
  match n with
  | O => ""
  | S n' => String "/" (slashes n')
  end.

(** * Properties *)

(** ** Substitution: the list of missing names *)

Lemma substitute_step_unmapped values f st param :
  unmapped values f param = true ->
  substitute_step values f st param = (st.1, st.2 ++ [pp_name param]).
Proof.
  unfold unmapped, substitute_step. intros H.
  destruct (dict_get values (lookup_key f param)); simpl in H; congruence.
Qed.

Lemma substitute_step_mapped values f st param :
  unmapped values f param = false ->
  substitute_step values f st param
  = (str_replace st.1 (original_format param)
       (py_str (dict_get values (lookup_key f param))), st.2).
Proof.
  unfold unmapped, substitute_step. intros H.
  destruct (dict_get values (lookup_key f param)); simpl in H; congruence.
Qed.

(** The missing names of a run of the loop: the names of the unmapped
    tokens, in the order of the tokens. *)
Lemma substitute_loop_missing values f tokens : forall st,
  (fold_left (substitute_step values f) tokens st).2
  = st.2 ++ map pp_name (filter (fun p => unmapped values f p = true) tokens).
Proof.
  induction tokens as [|p tokens IH]; intros st; simpl.
  - by rewrite app_nil_r.
  - rewrite IH. rewrite filter_cons.
    destruct (decide (unmapped values f p = true)) as [Hu|Hu].
    + rewrite substitute_step_unmapped by done. simpl. by rewrite <- app_assoc.
    + apply not_true_is_false in Hu.
      rewrite substitute_step_mapped by done. done.
Qed.

Lemma dict_get_insert_none values k key :
  dict_get (<[k := PyNone]> values) key = dict_get (delete k values) key.
Proof.
  unfold dict_get. destruct (decide (k = key)) as [->|Hne].
  - by rewrite lookup_insert_eq, lookup_delete_eq.
  - by rewrite lookup_insert_ne, lookup_delete_ne.
Qed.

Lemma substitute_step_ext values values' f :
  (forall key, dict_get values key = dict_get values' key) ->
  forall st param, substitute_step values f st param = substitute_step values' f st param.
Proof. intros H st param. unfold substitute_step. by rewrite H. Qed.

Lemma fold_left_ext {A B : Type} (g h : A -> B -> A) (l : list B) :
  (forall a b, g a b = h a b) -> forall a, fold_left g l a = fold_left h l a.
Proof.
  intros H. induction l as [|b l IH]; intros a; simpl; [done|].
  by rewrite H, IH.
Qed.

Lemma substitute_parameters_ext values values' t f :
  (forall key, dict_get values key = dict_get values' key) ->
  substitute_parameters t values f = substitute_parameters t values' f.
Proof.
  intros H. unfold substitute_parameters.
  apply fold_left_ext. by apply substitute_step_ext.
Qed.

(** C3, counterexample: with no values, the template [/a/{x}/b/{x}] has the
    missing list [x, x]: the name is reported once per occurrence. *)
Lemma missing_names_repeat_counterexample :
  substitute_parameters "/a/{x}/b/{x}" ∅ false = ("/a/{x}/b/{x}", ["x"; "x"])
  /\ ~ each_missing_name_once.
Proof.
  assert (E : substitute_parameters "/a/{x}/b/{x}" ∅ false = ("/a/{x}/b/{x}", ["x"; "x"]))
    by (vm_compute; reflexivity).
  split; [exact E|].
  intros H.
  specialize (H "/a/{x}/b/{x}" ∅ false (mkPathParameter "x" "{x}" 3)).
  rewrite E in H.
  assert (H1 : mkPathParameter "x" "{x}" 3 ∈ extract_parameters "/a/{x}/b/{x}").
  { replace (extract_parameters "/a/{x}/b/{x}")
      with [mkPathParameter "x" "{x}" 3; mkPathParameter "x" "{x}" 9]
      by (vm_compute; reflexivity).
    apply list_elem_of_here. }
  specialize (H H1 eq_refl). vm_compute in H. discriminate H.
Qed.

(** The missing list: the names of the unmapped tokens, in token order. *)
Lemma substitute_missing (t : string) (values : gmap string pyval) (f : bool) :
  (substitute_parameters t values f).2
  = map pp_name (filter (fun p => unmapped values f p = true) (extract_parameters t)).
Proof. unfold substitute_parameters. by rewrite substitute_loop_missing. Qed.

(** C3, amended: the missing list of [substitute_parameters] holds the name
    of every extracted token whose key has no value, once per token and in
    offset order; so a name is listed as often as unmapped tokens carry it,
    and at least once. *)
Theorem missing_names_per_token (t : string) (values : gmap string pyval) (f : bool) :
  (substitute_parameters t values f).2
  = map pp_name (filter (fun p => unmapped values f p = true) (extract_parameters t))
  /\ (forall p, p ∈ extract_parameters t -> unmapped values f p = true ->
                pp_name p ∈ (substitute_parameters t values f).2)
  /\ forall nm,
       count_occ string_dec (substitute_parameters t values f).2 nm
       = length (filter (fun p => unmapped values f p = true /\ pp_name p = nm)
                        (extract_parameters t)).
Proof.
  rewrite substitute_missing. split; [done|]. split.
  - intros p Hp Hu. apply list_elem_of_fmap. exists p. split; [done|].
    by apply list_elem_of_filter.
  - intros nm.
    induction (extract_parameters t) as [|p l IH]; [done|].
    rewrite !filter_cons.
    destruct (decide (unmapped values f p = true)) as [Hu|Hu].
    + simpl. destruct (string_dec (pp_name p) nm) as [Hn|Hn].
      * rewrite decide_True by done. simpl. by rewrite IH.
      * rewrite decide_False by tauto. done.
    + rewrite decide_False by tauto. done.
Qed.

Lemma missing_names_per_token_witness :
  "x" ∈ (substitute_parameters "/a/{x}/b/{x}" ∅ false).2.
Proof.
  apply (proj1 (proj2 (missing_names_per_token "/a/{x}/b/{x}" ∅ false))
           (mkPathParameter "x" "{x}" 3)).
  - vm_compute. apply list_elem_of_here.
  - vm_compute. reflexivity.
Defined.

(** The path of a run of the loop: only the tokens that have a value
    change it, each by the replacement of its text. *)
Lemma substitute_loop_path values f tokens : forall st,
  (fold_left (substitute_step values f) tokens st).1
  = fold_left (replace_token values f)
      (filter (fun p => unmapped values f p = false) tokens) st.1.
Proof.
  induction tokens as [|p tokens IH]; intros st; simpl; [done|].
  rewrite IH, filter_cons.
  destruct (decide (unmapped values f p = false)) as [Hu|Hu].
  - by rewrite substitute_step_mapped.
  - apply not_false_is_true in Hu. by rewrite substitute_step_unmapped.
Qed.

(** C10: in [/:id/:id_type] with [id] mapped to 5 and [id_type] to [None]
    (or absent, the result is the same), the name [id_type] is reported
    missing, but its occurrence is not left as written: the replacement of
    the text [:id] also rewrites the head of [:id_type], and the returned
    path is [/5/5_type]. *)
Theorem replace_rewrites_longer_placeholder :
  substitute_parameters "/:id/:id_type"
    (<["id" := PyInt 5]> (<["id_type" := PyNone]> ∅)) false
  = ("/5/5_type", ["id_type"])
  /\ substitute_parameters "/:id/:id_type" (<["id" := PyInt 5]> ∅) false
     = ("/5/5_type", ["id_type"])
  /\ Str.contains ":id_type" "/5/5_type" = false
  /\ ~ none_occurrence_kept.
Proof.
  assert (E : substitute_parameters "/:id/:id_type"
                (<["id" := PyInt 5]> (<["id_type" := PyNone]> ∅)) false
              = ("/5/5_type", ["id_type"])) by (vm_compute; reflexivity).
  split; [exact E|]. split; [vm_compute; reflexivity|]. split; [reflexivity|].
  intros H.
  destruct (H "/:id/:id_type" (<["id" := PyInt 5]> (<["id_type" := PyNone]> ∅)) false
              (mkPathParameter "id_type" ":id_type" 5)) as [Hc _].
  - replace (extract_parameters "/:id/:id_type")
      with [mkPathParameter "id" ":id" 1; mkPathParameter "id_type" ":id_type" 5]
      by (vm_compute; reflexivity).
    apply list_elem_of_further, list_elem_of_here.
  - vm_compute. reflexivity.
  - rewrite E in Hc. vm_compute in Hc. discriminate Hc.
Qed.

(** X28: a name mapped to [None] is treated as an absent name: the result
    is that for the mapping without the name; the loop step of every token
    looked up under that name puts no value in, leaves the path as it is
    and appends the token's name, which is in the returned missing list;
    and the only replacements made are those of the texts of the tokens
    that have a value, one after the other. *)
Theorem none_value_as_absent (t : string) (values : gmap string pyval)
    (f : bool) (k : string) :
  values !! k = Some PyNone ->
  substitute_parameters t values f = substitute_parameters t (delete k values) f
  /\ (forall param st,
        lookup_key f param = k ->
        substitute_step values f st param = (st.1, st.2 ++ [pp_name param])
        /\ substitute_step (delete k values) f st param = (st.1, st.2 ++ [pp_name param]))
  /\ (forall param,
        param ∈ extract_parameters t ->
        lookup_key f param = k ->
        pp_name param ∈ (substitute_parameters t values f).2)
  /\ (substitute_parameters t values f).1
     = fold_left (replace_token values f)
         (filter (fun p => unmapped values f p = false /\ lookup_key f p <> k)
                 (extract_parameters t)) t.
Proof.
  intros Hk.
  assert (Hu : forall param, lookup_key f param = k -> unmapped values f param = true).
  { intros param <-. unfold unmapped, dict_get. by rewrite Hk. }
  assert (Hd : forall param, lookup_key f param = k ->
                 unmapped (delete k values) f param = true).
  { intros param <-. unfold unmapped, dict_get. by rewrite lookup_delete_eq. }
  split; [|split; [|split]].
  - apply substitute_parameters_ext. intros key.
    rewrite <- dict_get_insert_none. by rewrite insert_id.
  - intros param st Hp. split; apply substitute_step_unmapped; auto.
  - intros param Hin Hp.
    rewrite substitute_missing.
    apply list_elem_of_fmap. exists param. split; [done|].
    apply list_elem_of_filter. auto.
  - unfold substitute_parameters. rewrite substitute_loop_path. simpl.
    f_equal. apply list_filter_iff. intros p. split; [|tauto].
    intros Hm. split; [done|]. intros Hp. apply Hu in Hp. congruence.
Qed.

Lemma none_value_as_absent_witness :
  substitute_parameters "/a/{x}/b/:y" (<["x" := PyNone]> (<["y" := PyStr "7"]> ∅)) false
  = substitute_parameters "/a/{x}/b/:y" (delete "x" (<["x" := PyNone]> (<["y" := PyStr "7"]> ∅))) false.
Proof.
  apply (none_value_as_absent "/a/{x}/b/:y"
           (<["x" := PyNone]> (<["y" := PyStr "7"]> ∅)) false "x").
  vm_compute. reflexivity.
Defined.

(** ** Strings: prefixes, suffixes and membership *)

Lemma append_nil_l (s : string) : "" +:+ s = s.
Proof. reflexivity. Qed.

Lemma append_cons (a : ascii) (s t : string) :
  String a s +:+ t = String a (s +:+ t).
Proof. reflexivity. Qed.

Ltac str_simpl := rewrite ?append_cons, ?append_nil_l in *; simpl in *.

Lemma append_nil_r (s : string) : s +:+ "" = s.
Proof. induction s as [|a s IH]; str_simpl; [done|]. by rewrite IH. Qed.

Lemma append_assoc (a b c : string) : (a +:+ b) +:+ c = a +:+ b +:+ c.
Proof. induction a as [|x a IH]; str_simpl; [done|]. by rewrite IH. Qed.

Lemma length_append (a b : string) :
  String.length (a +:+ b) = String.length a + String.length b.
Proof. induction a as [|x a IH]; str_simpl; [done|]. by rewrite IH. Qed.

Lemma eqb_ascii_refl (a : ascii) : Ascii.eqb a a = true.
Proof. by apply Ascii.eqb_eq. Qed.

Lemma startswith_append (p s : string) : Str.startswith p (p +:+ s) = true.
Proof.
  induction p as [|a p IH]; str_simpl; [done|]. by rewrite eqb_ascii_refl.
Qed.

Lemma startswith_split (p s : string) :
  Str.startswith p s = true -> s = p +:+ Str.drop (String.length p) s.
Proof.
  revert s. induction p as [|a p IH]; intros s H; str_simpl; [done|].
  destruct s as [|b s]; [done|].
  destruct (Ascii.eqb a b) eqn:E; [|done].
  apply Ascii.eqb_eq in E as ->. f_equal. by apply IH.
Qed.

Lemma drop_append (p s : string) : Str.drop (String.length p) (p +:+ s) = s.
Proof. induction p as [|a p IH]; str_simpl; done. Qed.

Lemma drop_nil (n : nat) : Str.drop n "" = "".
Proof. by destruct n. Qed.

Lemma drop_drop (n m : nat) (s : string) :
  Str.drop n (Str.drop m s) = Str.drop (m + n) s.
Proof.
  revert s. induction m as [|m IH]; intros s; simpl; [done|].
  destruct s as [|a s]; [by rewrite drop_nil|]. apply IH.
Qed.

Lemma length_drop (n : nat) (s : string) :
  String.length (Str.drop n s) = String.length s - n.
Proof.
  revert s. induction n as [|n IH]; intros s; simpl; [lia|].
  destruct s as [|a s]; simpl; [done|]. apply IH.
Qed.

Lemma mem_append (c : ascii) (a b : string) :
  Str.mem c (a +:+ b) = Str.mem c a || Str.mem c b.
Proof.
  induction a as [|x a IH]; str_simpl; [done|].
  destruct (Ascii.eqb c x); [done|]. apply IH.
Qed.

Lemma all_append (f : ascii -> bool) (a b : string) :
  Str.all f (a +:+ b) = Str.all f a && Str.all f b.
Proof.
  induction a as [|x a IH]; str_simpl; [done|]. by rewrite IH, andb_assoc.
Qed.

Lemma mem_all_false (f : ascii -> bool) (c : ascii) (s : string) :
  Str.all f s = true -> f c = false -> Str.mem c s = false.
Proof.
  intros Hs Hc. induction s as [|a s IH]; simpl in *; [done|].
  apply andb_prop in Hs as [Ha Hs].
  destruct (Ascii.eqb c a) eqn:E; [|by apply IH].
  apply Ascii.eqb_eq in E as ->. congruence.
Qed.

(** [substring 0 n] is the prefix of length [n], [substring n m] a piece
    of what follows the first [n] characters. *)
Lemma substring_drop (n m : nat) (s : string) :
  substring n m s = substring 0 m (Str.drop n s).
Proof.
  revert s. induction n as [|n IH]; intros s; simpl; [done|].
  destruct s as [|a s]; [by destruct m|]. apply IH.
Qed.

Lemma substring_append (a b : string) :
  substring 0 (String.length a) (a +:+ b) = a.
Proof.
  induction a as [|x a IH]; str_simpl; [by destruct b|]. by rewrite IH.
Qed.

Lemma substring_append_more (a b : string) (n : nat) :
  substring 0 (String.length a + n) (a +:+ b) = a +:+ substring 0 n b.
Proof.
  induction a as [|x a IH]; str_simpl; [done|]. by rewrite IH.
Qed.

Lemma all_cons (f : ascii -> bool) (a : ascii) (s : string) :
  Str.all f (String a s) = f a && Str.all f s.
Proof. reflexivity. Qed.

Lemma startswith_cons (a b : ascii) (p s : string) :
  Str.startswith (String a p) (String b s)
  = if Ascii.eqb a b then Str.startswith p s else false.
Proof. reflexivity. Qed.

(** ** Tokens *)

Lemma match_group_sound suf : forall r k,
  match_group suf r = Some k ->
  exists w rest, r = w +:+ suf +:+ rest /\ String.length w = k /\ word w.
Proof.
  induction r as [|c r IH]; intros k H; simpl in H; [done|].
  destruct (is_word c) eqn:Hc; [|done].
  destruct (match_group suf r) as [k'|] eqn:Hm.
  - injection H as <-.
    destruct (IH k' eq_refl) as (w & rest & -> & Hl & Hne & Hw).
    exists (String c w), rest. split; [by rewrite append_cons|].
    split; [simpl; by rewrite Hl|]. split; [done|].
    by rewrite all_cons, Hc, Hw.
  - destruct (Str.startswith suf r) eqn:Hs; [|done]. injection H as <-.
    exists (String c ""), (Str.drop (String.length suf) r).
    split; [rewrite append_cons, append_nil_l; f_equal; by apply startswith_split|].
    split; [done|]. split; [done|]. by rewrite all_cons, Hc.
Qed.

Lemma match_here_sound pat s nm o :
  match_here pat s = Some (nm, o) ->
  word nm /\ o = pat_prefix pat +:+ nm +:+ pat_suffix pat /\ Str.startswith o s = true.
Proof.
  unfold match_here. destruct (Str.startswith (pat_prefix pat) s) eqn:Hp; [|done].
  destruct (match_group _ _) as [k|] eqn:Hm; [|done].
  apply match_group_sound in Hm as (w & rest & Hr & Hl & Hw).
  apply startswith_split in Hp. rewrite Hr in Hp.
  intros [= <- <-]. rewrite substring_drop, Hr, <- Hl.
  rewrite substring_append. split; [done|].
  assert (E : substring 0 (String.length (pat_prefix pat) + String.length w
                           + String.length (pat_suffix pat)) s
              = pat_prefix pat +:+ w +:+ pat_suffix pat).
  { rewrite Hp at 1. rewrite <- Nat.add_assoc, substring_append_more.
    f_equal. rewrite substring_append_more. f_equal. apply substring_append. }
  rewrite E. split; [done|].
  rewrite Hp at 1. rewrite <- !append_assoc, append_assoc. apply startswith_append.
Qed.

Lemma finditer_from_elem pat : forall s pos skip p,
  p ∈ finditer_from pat pos skip s ->
  exists k, position p = pos + k
    /\ match_here pat (Str.drop k s) = Some (pp_name p, original_format p).
Proof.
  induction s as [|c s IH]; intros pos skip p H; simpl in H.
  - by apply elem_of_nil in H.
  - assert (Hrec : forall skip', p ∈ finditer_from pat (S pos) skip' s ->
              exists k, position p = pos + k
                /\ match_here pat (Str.drop k (String c s))
                   = Some (pp_name p, original_format p)).
    { intros skip' H'. destruct (IH _ _ _ H') as (k & Hk & Hm).
      exists (S k). split; [lia|done]. }
    destruct skip as [|skip]; [|by eapply Hrec].
    destruct (match_here pat (String c s)) as [[nm o]|] eqn:Hm; [|by eapply Hrec].
    apply elem_of_cons in H as [->|H]; [|by eapply Hrec].
    exists 0. simpl. split; [lia|done].
Qed.

Lemma insert_by_position_elem x l p :
  p ∈ insert_by_position x l <-> p = x \/ p ∈ l.
Proof.
  induction l as [|y l IH]; simpl.
  - rewrite list_elem_of_singleton, elem_of_nil. tauto.
  - destruct (position x <=? position y).
    + by rewrite elem_of_cons.
    + rewrite !elem_of_cons, IH. tauto.
Qed.

Lemma sort_by_position_elem l p : p ∈ sort_by_position l <-> p ∈ l.
Proof.
  induction l as [|x l IH]; simpl; [done|].
  by rewrite insert_by_position_elem, elem_of_cons, IH.
Qed.

Lemma extract_steps_elem ms : forall st p,
  p ∈ (fold_left extract_step ms st).1 -> p ∈ st.1 \/ p ∈ ms.
Proof.
  induction ms as [|m ms IH]; intros st p H; simpl in H; [by left|].
  apply IH in H as [H|H]; [|right; by apply list_elem_of_further].
  unfold extract_step in H. case_decide; simpl in H; [by left|].
  apply elem_of_app in H as [H|H]; [by left|].
  apply list_elem_of_singleton in H as ->. right. apply list_elem_of_here.
Qed.

Lemma extract_scan_elem t p :
  p ∈ (extract_scan t).1 ->
  exists pat, pat ∈ map fst PARAMETER_PATTERNS /\ p ∈ finditer pat t.
Proof.
  unfold extract_scan.
  assert (G : forall pats st,
    p ∈ (fold_left (fun st (pf : pattern * string) =>
                      fold_left extract_step (finditer (fst pf) t) st) pats st).1 ->
    p ∈ st.1 \/ exists pat, pat ∈ map fst pats /\ p ∈ finditer pat t).
  { induction pats as [|pf pats IH]; intros st H; simpl in H; [by left|].
    apply IH in H as [H|(pat & Hpat & H)].
    - apply extract_steps_elem in H as [H|H]; [by left|].
      right. exists (fst pf). split; [apply list_elem_of_here|done].
    - right. exists pat. split; [by apply list_elem_of_further|done]. }
  intros H. apply G in H as [H|H]; [|done]. by apply elem_of_nil in H.
Qed.

(** Every token carries the text found at its offset, and that text is a
    placeholder for the token's name in one of the notations. *)
Lemma token_sound t p :
  p ∈ extract_parameters t ->
  placeholder_text (pp_name p) (original_format p)
  /\ Str.startswith (original_format p) (Str.drop (position p) t) = true.
Proof.
  unfold extract_parameters. rewrite sort_by_position_elem.
  intros H. apply extract_scan_elem in H as (pat & Hpat & H).
  apply finditer_from_elem in H as (k & Hk & Hm). simpl in Hk. subst k.
  apply match_here_sound in Hm as (Hw & Ho & Hs).
  split; [|done]. by exists pat.
Qed.

(** ** Replacement *)

Lemma replace_from_skip old new : forall s k,
  replace_from old new k s = replace_from old new 0 (Str.drop k s).
Proof.
  induction s as [|c s IH]; intros k.
  - by rewrite drop_nil.
  - destruct k as [|k]; [done|]. simpl. apply IH.
Qed.

Lemma replace_hit old new s :
  old <> "" -> s <> "" -> Str.startswith old s = true ->
  replace_from old new 0 s
  = new +:+ replace_from old new 0 (Str.drop (String.length old) s).
Proof.
  intros Ho Hs H. destruct s as [|c s]; [done|].
  destruct old as [|a old]; [done|].
  cbn [replace_from]. rewrite H. f_equal.
  rewrite replace_from_skip. simpl. by rewrite Nat.sub_0_r.
Qed.

Lemma replace_miss old new c s :
  Str.startswith old (String c s) = false ->
  replace_from old new 0 (String c s) = String c (replace_from old new 0 s).
Proof. intros H. cbn [replace_from]. by rewrite H. Qed.

(** A text in which the first character of [old] does not occur is copied. *)
Lemma replace_skips a old' new : forall o s,
  Str.mem a o = false ->
  Str.startswith o s = true ->
  replace_from (String a old') new 0 s
  = o +:+ replace_from (String a old') new 0 (Str.drop (String.length o) s).
Proof.
  induction o as [|x o IH]; intros s Hm Hs; [done|].
  destruct s as [|y s]; [done|]. simpl in Hm, Hs.
  destruct (Ascii.eqb a x) eqn:Eax; [done|].
  destruct (Ascii.eqb x y) eqn:Exy; [|done].
  apply Ascii.eqb_eq in Exy as <-.
  rewrite replace_miss by (simpl; by rewrite Eax).
  rewrite append_cons. f_equal. simpl. by apply IH.
Qed.

(** ** Characters that can begin a placeholder *)

Lemma covered_mono (A B : string -> Prop) s :
  (forall o, A o -> B o) -> covered A s -> covered B s.
Proof.
  intros H. induction s as [|c s IH]; simpl; [done|].
  intros [Hc Hs]. split; [|by apply IH].
  intros Hh. destruct (Hc Hh) as (o & Ho & Hp). exists o. auto.
Qed.

Lemma covered_drop A n : forall s, covered A s -> covered A (Str.drop n s).
Proof.
  induction n as [|n IH]; intros s H; simpl; [done|].
  destruct s as [|c s]; [done|]. apply IH. by destruct H.
Qed.

Lemma covered_inert_append A v s :
  inert v = true -> covered A s -> covered A (v +:+ s).
Proof.
  intros Hv Hs. induction v as [|c v IH]; [done|].
  unfold inert in Hv. rewrite all_cons in Hv. apply andb_prop in Hv as [Hc Hv].
  rewrite append_cons. simpl. split; [|by apply IH].
  intros Hh. rewrite Hh in Hc. done.
Qed.

Lemma covered_nothing s : covered (fun _ => False) s -> inert s = true.
Proof.
  induction s as [|c s IH]; simpl; [done|].
  intros [Hc Hs]. unfold inert. rewrite all_cons.
  apply andb_true_intro. split; [|by apply IH].
  destruct (hot c); [|done]. by destruct (Hc eq_refl) as (? & [] & _).
Qed.

(** Two runs of word characters that end at the same closing character
    are the same run. *)
Lemma word_run_unique (e : ascii) : forall w' w rest,
  is_word e = false ->
  Str.all is_word w' = true -> Str.all is_word w = true ->
  Str.startswith (w' +:+ String e "") (w +:+ String e rest) = true ->
  w' = w.
Proof.
  induction w' as [|x w' IH]; intros w rest He Hw' Hw H.
  - destruct w as [|y w]; [done|]. rewrite append_nil_l, append_cons in H.
    simpl in H. destruct (Ascii.eqb e y) eqn:E; [|done].
    apply Ascii.eqb_eq in E as <-. rewrite all_cons, He in Hw. done.
  - rewrite all_cons in Hw'. apply andb_prop in Hw' as [Hx Hw'].
    destruct w as [|y w].
    + rewrite append_nil_l, append_cons in H. simpl in H.
      destruct (Ascii.eqb x e) eqn:E; [|done].
      apply Ascii.eqb_eq in E as ->. congruence.
    + rewrite !append_cons in H. simpl in H.
      destruct (Ascii.eqb x y) eqn:E; [|done].
      apply Ascii.eqb_eq in E as ->.
      rewrite all_cons in Hw. apply andb_prop in Hw as [_ Hw].
      f_equal. by eapply IH.
Qed.

Lemma placeholder_text_cases nm o :
  placeholder_text nm o ->
  word nm
  /\ (o = "{" +:+ nm +:+ "}" \/ o = ":" +:+ nm +:+ "" \/ o = "{{" +:+ nm +:+ "}}"
      \/ o = "${" +:+ nm +:+ "}" \/ o = "<" +:+ nm +:+ ">").
Proof.
  intros (pat & Hpat & Hw & ->). split; [done|]. simpl in Hpat.
  repeat (apply elem_of_cons in Hpat as [->|Hpat]); simpl; auto 6.
  by apply elem_of_nil in Hpat.
Qed.

Lemma survives_unmet a old' new o s :
  Str.mem a o = false ->
  Str.startswith o s = true ->
  Str.startswith o (replace_from (String a old') new 0 s) = true.
Proof.
  intros Hm Hs. rewrite (replace_skips _ _ _ _ _ Hm Hs). apply startswith_append.
Qed.

(** An occurrence of a placeholder text [o] that begins with a hot
    character keeps its place when the occurrences of another placeholder
    text [old] that do not begin at its first character are replaced, unless
    [o] is [old] wrapped in braces. *)
Lemma occurrence_survives old new o c o' s nmold nmo :
  placeholder_text nmold old ->
  placeholder_text nmo o ->
  o = String c o' ->
  hot c = true ->
  o <> "{" +:+ old +:+ "}" ->
  Str.startswith o' s = true ->
  Str.startswith o' (replace_from old new 0 s) = true.
Proof.
  intros Hold Ho Hco Hc Hne Hs. subst o.
  apply placeholder_text_cases in Hold as [[_ Hwold] Hold].
  apply placeholder_text_cases in Ho as [[Hnm Hwo] Ho].
  assert (Hnw : forall a, is_word a = false -> Str.mem a nmo = false)
    by (intros a; apply mem_all_false; done).
  destruct Ho as [Ho|[Ho|[Ho|[Ho|Ho]]]];
    rewrite ?append_cons, ?append_nil_l in Ho; injection Ho as -> ->;
    try discriminate Hc.
  - (* {name} *)
    destruct Hold as [-> | [-> | [-> | [-> | ->]]]]; rewrite ?append_cons, ?append_nil_l;
      (apply survives_unmet; [rewrite mem_append, Hnw by done; done | done]).
  - (* :name *)
    destruct Hold as [-> | [-> | [-> | [-> | ->]]]]; rewrite ?append_cons, ?append_nil_l;
      (apply survives_unmet; [rewrite mem_append, Hnw by done; done | done]).
  - (* {{name}} *)
    destruct s as [|y s]; [done|]. rewrite startswith_cons in Hs.
    destruct (Ascii.eqb "{" y) eqn:Ey; [|done]. apply Ascii.eqb_eq in Ey as <-.
    assert (Hin : Str.mem "{" (nmo +:+ "}}") = false)
      by (rewrite mem_append, Hnw by done; done).
    assert (Hkeep : forall a old',
              Str.startswith (String a old') (String "{" s) = false ->
              Str.mem a (nmo +:+ "}}") = false ->
              Str.startswith (String "{" (nmo +:+ "}}"))
                (replace_from (String a old') new 0 (String "{" s)) = true).
    { intros a old' Hmiss Hmem. rewrite replace_miss by done.
      rewrite startswith_cons, eqb_ascii_refl. by apply survives_unmet. }
    assert (Hother : forall a old',
              Ascii.eqb a "{" = false -> Str.mem a (nmo +:+ "}}") = false ->
              Str.startswith (String "{" (nmo +:+ "}}"))
                (replace_from (String a old') new 0 (String "{" s)) = true).
    { intros a old' Ha Hmem. apply Hkeep; [|done]. rewrite startswith_cons. by rewrite Ha. }
    destruct Hold as [-> | [-> | [-> | [-> | ->]]]]; rewrite ?append_cons, ?append_nil_l in *.
    + (* old = {name'} *)
      apply Hkeep; [|done].
      rewrite startswith_cons, eqb_ascii_refl.
      apply not_true_is_false. intros Hp.
      apply startswith_split in Hs. rewrite Hs in Hp.
      change (nmo +:+ "}}") with (nmo +:+ String "}" (String "}" "")) in Hp.
      rewrite append_assoc, append_cons, append_cons, append_nil_l in Hp.
      apply word_run_unique in Hp; [|done..]. subst nmold.
      apply Hne. f_equal. f_equal. rewrite append_assoc. reflexivity.
    + apply Hother; [done|]. rewrite mem_append, Hnw by done; done.
    + (* old = {{name'}} *)
      apply Hkeep; [|done].
      rewrite startswith_cons, eqb_ascii_refl.
      destruct nmo as [|z nmo]; [done|].
      rewrite append_cons in Hs. destruct s as [|z' s]; [done|].
      rewrite startswith_cons in Hs. destruct (Ascii.eqb z z') eqn:Ez; [|done].
      apply Ascii.eqb_eq in Ez as <-. rewrite startswith_cons.
      destruct (Ascii.eqb "{" z) eqn:Ez; [|done].
      apply Ascii.eqb_eq in Ez as <-. rewrite all_cons in Hwo. done.
    + apply Hother; [done|]. rewrite mem_append, Hnw by done; done.
    + apply Hother; [done|]. rewrite mem_append, Hnw by done; done.
  - (* <name> *)
    destruct Hold as [-> | [-> | [-> | [-> | ->]]]]; rewrite ?append_cons, ?append_nil_l;
      (apply survives_unmet; [rewrite mem_append, Hnw by done; done | done]).
Qed.

Lemma placeholder_text_nonempty nm o : placeholder_text nm o -> o <> "".
Proof.
  intros H. apply placeholder_text_cases in H as [_ H].
  destruct H as [-> | [-> | [-> | [-> | ->]]]]; rewrite append_cons; done.
Qed.

Lemma str_replace_nonempty s old new :
  old <> "" -> str_replace s old new = replace_from old new 0 s.
Proof. by destruct old. Qed.

(** Replacing the occurrences of one placeholder text by an inert value
    removes that text from the texts needed to cover the hot characters. *)
Lemma covered_replace (A : string -> Prop) old new nmold :
  placeholder_text nmold old ->
  inert new = true ->
  (forall o, A o -> exists nm, placeholder_text nm o) ->
  ~ A ("{" +:+ old +:+ "}") ->
  forall s, covered A s ->
    covered (fun o => A o /\ o <> old) (replace_from old new 0 s).
Proof.
  intros Hold Hnew Hshape Hwrap s.
  assert (Hne : old <> "") by (by eapply placeholder_text_nonempty).
  remember (String.length s) as n eqn:Hn.
  revert s Hn. induction n as [n IH] using lt_wf_ind. intros s Hn Hcov.
  destruct s as [|c s]; [done|].
  destruct (Str.startswith old (String c s)) eqn:Hst.
  - rewrite replace_hit by done.
    apply covered_inert_append; [done|].
    apply (IH (String.length (Str.drop (String.length old) (String c s)))).
    + rewrite length_drop. subst n. destruct old; [done|]. simpl. lia.
    + reflexivity.
    + by apply covered_drop.
  - rewrite replace_miss by done.
    destruct Hcov as [Hc Hcov]. split.
    + intros Hh. destruct (Hc Hh) as (o & Ho & Hp).
      exists o. split.
      * split; [done|]. intros ->. congruence.
      * destruct (Hshape o Ho) as [nmo Hsh].
        destruct o as [|x o']; [by apply placeholder_text_nonempty in Hsh|].
        rewrite startswith_cons in Hp |- *.
        destruct (Ascii.eqb x c) eqn:Exc; [|done].
        apply Ascii.eqb_eq in Exc. subst x.
        eapply occurrence_survives; eauto.
        intros E. apply Hwrap. by rewrite <- E.
    + apply (IH (String.length s)); [subst n; simpl; lia|done|done].
Qed.

(** ** The substitution loop *)

Lemma substitute_loop_covered values f : forall rest seen st,
  (forall p, p ∈ rest -> placeholder_text (pp_name p) (original_format p)) ->
  values_fit values f rest = true ->
  wrapped_first seen rest = true ->
  covered (fun o => o ∈ texts rest /\ o ∉ seen) st.1 ->
  inert (fold_left (substitute_step values f) rest st).1 = true.
Proof.
  induction rest as [|r rest IH]; intros seen st Hsh Hfit Hwf Hcov; simpl.
  - apply covered_nothing. eapply covered_mono; [|exact Hcov].
    intros o [Ho _]. by apply elem_of_nil in Ho.
  - simpl in Hfit, Hwf.
    apply andb_prop in Hfit as [Hr Hfit]. apply andb_prop in Hr as [Hmapped Hinert].
    apply andb_prop in Hwf as [Hw Hwf].
    apply negb_true_iff in Hmapped.
    apply (IH (original_format r :: seen)); [| done | done |].
    + intros p Hp. apply Hsh. by apply list_elem_of_further.
    + rewrite substitute_step_mapped by done. simpl.
      assert (Hr : placeholder_text (pp_name r) (original_format r))
        by (apply Hsh; apply list_elem_of_here).
      rewrite str_replace_nonempty by (by eapply placeholder_text_nonempty).
      eapply covered_mono; [|eapply covered_replace; [exact Hr | exact Hinert | | | exact Hcov]].
      * intros o [[Ho Hs] Hne]. simpl in Ho.
        apply elem_of_cons in Ho as [Ho|Ho]; [done|].
        split; [done|]. rewrite not_elem_of_cons. done.
      * intros o [Ho _]. unfold texts in Ho.
        apply list_elem_of_fmap in Ho as (p & -> & Hp). eauto.
      * intros [Ho Hs]. simpl in Ho.
        apply elem_of_cons in Ho as [Ho|Ho].
        { apply (f_equal String.length) in Ho.
          rewrite !length_append in Ho. simpl in Ho. lia. }
        apply orb_prop in Hw as [Hw|Hw].
        { apply negb_true_iff, bool_decide_eq_false in Hw. done. }
        { apply bool_decide_eq_true in Hw. done. }
Qed.

Lemma cover_from_covered t : forall s pos,
  Str.drop pos t = s ->
  cover_from (map position (extract_parameters t)) pos s = true ->
  covered (fun o => o ∈ texts (extract_parameters t) /\ o ∉ @nil string) s.
Proof.
  induction s as [|c s IH]; intros pos Hd Hc; [done|].
  simpl in Hc. apply andb_prop in Hc as [Hhere Hrest]. split.
  - intros Hh. rewrite Hh in Hhere. simpl in Hhere.
    apply bool_decide_eq_true in Hhere.
    apply list_elem_of_fmap in Hhere as (p & -> & Hp).
    exists (original_format p). split.
    + split; [|apply not_elem_of_nil].
      apply list_elem_of_fmap. by exists p.
    + rewrite <- Hd. by apply token_sound.
  - apply (IH (S pos)); [|done].
    replace (S pos) with (pos + 1) by lia.
    rewrite <- drop_drop, Hd. done.
Qed.

(** A text without hot characters has no token. *)
Lemma inert_prefix p s :
  inert s = true -> Str.startswith p s = true -> inert p = true.
Proof.
  intros Hs Hp. apply startswith_split in Hp. rewrite Hp in Hs.
  unfold inert in *. rewrite all_append in Hs. by apply andb_prop in Hs as [Hs _].
Qed.

Lemma inert_no_match pat s :
  pat ∈ map fst PARAMETER_PATTERNS -> inert s = true -> match_here pat s = None.
Proof.
  intros Hpat Hs. unfold match_here.
  destruct (Str.startswith (pat_prefix pat) s) eqn:Hp; [|done].
  apply (inert_prefix _ _ Hs) in Hp. simpl in Hpat.
  repeat (apply elem_of_cons in Hpat as [->|Hpat]); try discriminate Hp.
  by apply elem_of_nil in Hpat.
Qed.

Lemma inert_finditer pat : forall s pos skip,
  pat ∈ map fst PARAMETER_PATTERNS -> inert s = true ->
  finditer_from pat pos skip s = [].
Proof.
  induction s as [|c s IH]; intros pos skip Hpat Hs; [done|].
  assert (Hs' : inert s = true).
  { unfold inert in *. rewrite all_cons in Hs. by apply andb_prop in Hs as [_ Hs]. }
  cbn [finditer_from]. destruct skip as [|k]; [|by apply IH].
  rewrite inert_no_match by done. by apply IH.
Qed.

Lemma inert_no_tokens s : inert s = true -> extract_parameters s = [].
Proof.
  intros Hs. unfold extract_parameters, extract_scan.
  assert (G : forall pats st,
    (forall pf, pf ∈ pats -> fst pf ∈ map fst PARAMETER_PATTERNS) ->
    fold_left (fun st (pf : pattern * string) =>
                 fold_left extract_step (finditer (fst pf) s) st) pats st = st).
  { induction pats as [|pf pats IH]; intros st H; simpl; [done|].
    unfold finditer at 2. rewrite inert_finditer; [|apply H; apply list_elem_of_here|done].
    simpl. apply IH. intros pf' Hpf'. apply H. by apply list_elem_of_further. }
  rewrite G; [done|].
  intros pf Hpf. apply list_elem_of_fmap. by exists pf.
Qed.

Lemma validate_path_inert s : inert s = true -> validate_path s = (true, []).
Proof. intros Hs. unfold validate_path. by rewrite inert_no_tokens. Qed.

(** C1, counterexample: a value is put into the path as it is, and the
    path is scanned again: with the value [a:b] for [name], the path for
    [/files/{name}] is [/files/a:b], in which [:b] is a placeholder. *)
Lemma complete_values_counterexample :
  substitute_parameters "/files/{name}" (<["name" := PyStr "a:b"]> ∅) false
  = ("/files/a:b", [])
  /\ validate_path "/files/a:b" = (false, ["b"])
  /\ ~ complete_values_validate.
Proof.
  assert (E : substitute_parameters "/files/{name}" (<["name" := PyStr "a:b"]> ∅) false
              = ("/files/a:b", [])) by (vm_compute; reflexivity).
  assert (V : validate_path "/files/a:b" = (false, ["b"])) by (vm_compute; reflexivity).
  split; [exact E|]. split; [exact V|].
  intros H. specialize (H "/files/{name}" (<["name" := PyStr "a:b"]> ∅) false).
  rewrite E in H. simpl in H. rewrite V in H.
  enough (Hf : (false, ["b"]) = (true, @nil string)) by discriminate Hf.
  apply H. intros p Hp.
  replace (extract_parameters "/files/{name}")
    with [mkPathParameter "name" "{name}" 7] in Hp by (vm_compute; reflexivity).
  apply list_elem_of_singleton in Hp as ->. vm_compute. reflexivity.
Qed.

(** C1, amended: when every placeholder of the template has a value whose
    text has none of the characters [{], [:] and [<], every such character
    of the template begins a placeholder, and no name is written [{name}]
    before it is first written [{{name}}], then [substitute_parameters]
    reports no missing name and [validate_path] accepts the path it returns,
    with an empty list of remaining names. *)
Theorem substitute_then_validate (t : string) (values : gmap string pyval) (f : bool) :
  values_fit values f (extract_parameters t) = true ->
  placeholders_cover t = true ->
  wrapped_first [] (extract_parameters t) = true ->
  (substitute_parameters t values f).2 = []
  /\ validate_path (substitute_parameters t values f).1 = (true, []).
Proof.
  intros Hfit Hcov Hwf. split.
  - rewrite substitute_missing.
    unfold values_fit in Hfit. rewrite forallb_forall in Hfit.
    destruct (filter _ _) as [|p l] eqn:E; [done|].
    assert (Hp : p ∈ filter (fun p => unmapped values f p = true) (extract_parameters t))
      by (rewrite E; apply list_elem_of_here).
    apply list_elem_of_filter in Hp as [Hu Hp].
    apply list_elem_of_In, Hfit in Hp. rewrite Hu in Hp. done.
  - apply validate_path_inert. unfold substitute_parameters.
    apply (substitute_loop_covered values f _ []); try done.
    + intros p Hp. by apply (token_sound t).
    + simpl. by apply (cover_from_covered t t 0).
Qed.

Lemma substitute_then_validate_witness :
  substitute_parameters "/companies/{company_id}/projects/:project_id/items"
    (<["company_id" := PyStr "123"]> (<["project_id" := PyStr "456"]> ∅)) false
  = ("/companies/123/projects/456/items", [])
  /\ (substitute_parameters "/companies/{company_id}/projects/:project_id/items"
        (<["company_id" := PyStr "123"]> (<["project_id" := PyStr "456"]> ∅)) false).2 = []
  /\ validate_path
       (substitute_parameters "/companies/{company_id}/projects/:project_id/items"
          (<["company_id" := PyStr "123"]> (<["project_id" := PyStr "456"]> ∅)) false).1
     = (true, []).
Proof.
  split; [vm_compute; reflexivity|].
  apply (substitute_then_validate "/companies/{company_id}/projects/:project_id/items"
           (<["company_id" := PyStr "123"]> (<["project_id" := PyStr "456"]> ∅)) false).
  - vm_compute. reflexivity.
  - vm_compute. reflexivity.
  - vm_compute. reflexivity.
Defined.

(** Each of the three conditions is needed.  A value with a hot character
    is a placeholder of the result; a hot character of the template outside
    the tokens can join a value; and [{a}] replaced before [{{a}}] leaves a
    value in braces. *)
Example hot_value_remains :
  validate_path
    (substitute_parameters "/files/{name}" (<["name" := PyStr "{id}"]> ∅) false).1
  = (false, ["id"]).
Proof. vm_compute. reflexivity. Qed.

Example uncovered_character_joins :
  placeholders_cover "<a:b>" = false
  /\ substitute_parameters "<a:b>" (<["b" := PyStr "1"]> ∅) false = ("<a1>", [])
  /\ validate_path "<a1>" = (false, ["a1"]).
Proof. repeat split; vm_compute; reflexivity. Qed.

Example single_before_double_remains :
  wrapped_first [] (extract_parameters "/x/{a}/y/{{a}}") = false
  /\ substitute_parameters "/x/{a}/y/{{a}}" (<["a" := PyStr "1"]> ∅) false
     = ("/x/1/y/{1}", [])
  /\ validate_path "/x/1/y/{1}" = (false, ["1"]).
Proof. repeat split; vm_compute; reflexivity. Qed.

(** The conditions hold for templates in the other notations as well. *)
Example mixed_notations_fit :
  let t := "/projects/:project_id/submittals/{{id}}.pdf?v=${rev}&t=<kind>" in
  let values : gmap string pyval :=
    <["project_id" := PyInt 456]> (<["id" := PyStr "789"]>
      (<["rev" := PyStr "r2"]> (<["kind" := PyBool true]> ∅))) in
  values_fit values false (extract_parameters t) = true
  /\ placeholders_cover t = true
  /\ wrapped_first [] (extract_parameters t) = true
  /\ substitute_parameters t values false
     = ("/projects/456/submittals/789.pdf?v=r2&t=True", []).
Proof. repeat split; vm_compute; reflexivity. Qed.

(** ** Extraction: order and offsets *)

Lemma extract_step_fresh st m :
  NoDup (map position st.1) /\ (forall p, p ∈ st.1 -> position p ∈ st.2) ->
  NoDup (map position (extract_step st m).1)
  /\ (forall p, p ∈ (extract_step st m).1 -> position p ∈ (extract_step st m).2).
Proof.
  intros [Hnd Hseen]. unfold extract_step. case_decide as Hm; [done|]. simpl.
  split.
  - rewrite map_app. simpl. apply NoDup_app. split; [done|]. split.
    + intros x Hx Hx'. apply list_elem_of_singleton in Hx'. subst x.
      apply list_elem_of_fmap in Hx as (p & Hp & Hin). apply Hm. rewrite Hp. by apply Hseen.
    + apply NoDup_singleton.
  - intros p Hp. apply elem_of_app in Hp as [Hp|Hp].
    + apply elem_of_union_r. by apply Hseen.
    + apply list_elem_of_singleton in Hp as ->. apply elem_of_union_l. by apply elem_of_singleton.
Qed.

Lemma extract_scan_fresh t : NoDup (map position (extract_scan t).1).
Proof.
  unfold extract_scan.
  assert (Inner : forall ms st,
    NoDup (map position st.1) /\ (forall p, p ∈ st.1 -> position p ∈ st.2) ->
    NoDup (map position (fold_left extract_step ms st).1)
    /\ (forall p, p ∈ (fold_left extract_step ms st).1
                  -> position p ∈ (fold_left extract_step ms st).2)).
  { induction ms as [|m ms IH]; intros st H; simpl; [done|].
    apply IH. by apply extract_step_fresh. }
  assert (Outer : forall pats st,
    NoDup (map position st.1) /\ (forall p, p ∈ st.1 -> position p ∈ st.2) ->
    NoDup (map position
             (fold_left (fun st (pf : pattern * string) =>
                           fold_left extract_step (finditer (fst pf) t) st) pats st).1)).
  { induction pats as [|pf pats IH]; intros st H; simpl; [by destruct H|].
    apply IH. by apply Inner. }
  apply Outer. simpl. split; [apply NoDup_nil_2|].
  intros p Hp. by apply elem_of_nil in Hp.
Qed.

Lemma insert_by_position_sorted x l :
  StronglySorted offset_lt l ->
  position x ∉ map position l ->
  StronglySorted offset_lt (insert_by_position x l).
Proof.
  intros Hs Hx. induction Hs as [|y l Hs IH Hy]; simpl.
  - repeat constructor.
  - simpl in Hx. apply not_elem_of_cons in Hx as [Hxy Hx].
    destruct (position x <=? position y) eqn:E.
    + apply Nat.leb_le in E. constructor; [by constructor|].
      constructor; [unfold offset_lt; lia|].
      eapply Forall_impl; [exact Hy|]. intros z Hz. unfold offset_lt in *. lia.
    + apply Nat.leb_gt in E. constructor; [by apply IH|].
      apply Forall_forall. intros z Hz.
      apply insert_by_position_elem in Hz as [->|Hz].
      * unfold offset_lt. lia.
      * rewrite Forall_forall in Hy. by apply Hy.
Qed.

Lemma sort_by_position_sorted l :
  NoDup (map position l) -> StronglySorted offset_lt (sort_by_position l).
Proof.
  induction l as [|x l IH]; simpl; intros Hnd; [constructor|].
  apply NoDup_cons in Hnd as [Hx Hnd].
  apply insert_by_position_sorted; [by apply IH|].
  intros Hin. apply Hx.
  apply list_elem_of_fmap in Hin as (p & Hp & Hin).
  apply (proj1 (sort_by_position_elem _ _)) in Hin.
  apply list_elem_of_fmap. by exists p.
Qed.

(** X1: the tokens of a template come in strictly ascending offsets: they
    are in the order in which they are written, and no two of them are at
    the same offset. *)
Lemma extract_parameters_ascending t :
  StronglySorted offset_lt (extract_parameters t).
Proof. apply sort_by_position_sorted, extract_scan_fresh. Qed.

(** C4: for the template [{{id}}], a single occurrence in the double-brace
    notation, [extract_parameters] returns two tokens: the double-brace match
    at offset 0 and the single-brace match at offset 1 inside it.  The check
    on offsets does not catch it, the two matches beginning one character
    apart. *)
Theorem double_brace_yields_two_tokens :
  extract_parameters "{{id}}"
  = [ mkPathParameter "id" "{{id}}" 0; mkPathParameter "id" "{id}" 1 ]
  /\ length (extract_parameters "{{id}}") = 2.
Proof. split; vm_compute; reflexivity. Qed.

(** ** Invocation *)

Lemma classify_status_401 op r :
  status_code r = 401%Z ->
  classify_status op r
  = ModelRetry AuthenticationFailure
      "Authentication failed (401). Please check your AVATHON_API_KEY.".
Proof. intros H. unfold classify_status. by rewrite H. Qed.

Lemma handle_response_401 op r :
  status_code r = 401%Z ->
  handle_response op r
  = ModelRetry AuthenticationFailure
      "Authentication failed (401). Please check your AVATHON_API_KEY.".
Proof.
  intros H. unfold handle_response, raises_for_status. rewrite H. simpl.
  by apply classify_status_401.
Qed.

(** What [tool_func] does once a request has been issued: the response, if
    one comes back, decides the outcome. *)
Lemma tool_func_dispatched client op input_data o req reqs :
  tool_func (Return client) op input_data = (o, req :: reqs) ->
  reqs = []
  /\ match client req with
     | Return response => o = handle_response op response
     | Raise e => o = execution_failed op e
     end.
Proof.
  unfold tool_func.
  destruct (substitute_parameters _ _ _) as [path missing].
  destruct missing; [|intros [=]].
  destruct (validate_path path) as [[] remaining]; [|intros [=]].
  destruct (route_parameters _ _ _) as [[q h]|e]; [|intros [=]].
  match goal with |- context [client ?r] => destruct (client r) eqn:E end;
    intros [= <- <- <-]; rewrite E; done.
Qed.

(** C5: whenever the response to the request of an invocation has status
    401, the outcome is the authentication failure, with the advice to check
    the API key; its class is not [UnclassifiedTransportError]. *)
Theorem status_401_is_authentication_failure
    (client : Request -> exc Response) (op : Operation) (input_data : ToolInput)
    (o : outcome) (req : Request) (reqs : list Request) (response : Response) :
  tool_func (Return client) op input_data = (o, req :: reqs) ->
  client req = Return response ->
  status_code response = 401%Z ->
  o = ModelRetry AuthenticationFailure
        "Authentication failed (401). Please check your AVATHON_API_KEY."
  /\ forall msg, o <> ModelRetry UnclassifiedTransportError msg.
Proof.
  intros Ht Hc Hs.
  destruct (tool_func_dispatched _ _ _ _ _ _ Ht) as [_ Ho].
  rewrite Hc in Ho. rewrite Ho, (handle_response_401 _ _ Hs).
  split; [done|]. intros msg [=].
Qed.

Lemma status_401_is_authentication_failure_witness :
  ModelRetry AuthenticationFailure
    "Authentication failed (401). Please check your AVATHON_API_KEY."
  = ModelRetry AuthenticationFailure
      "Authentication failed (401). Please check your AVATHON_API_KEY."
  /\ forall msg,
       ModelRetry AuthenticationFailure
         "Authentication failed (401). Please check your AVATHON_API_KEY."
       <> ModelRetry UnclassifiedTransportError msg.
Proof.
  apply (status_401_is_authentication_failure (always 401) plant_operation
           plant_input _ plant_request [] (mkResponse 401 None "")).
  - vm_compute. reflexivity.
  - reflexivity.
  - reflexivity.
Defined.

(** C2, counterexample: the missing names are those of the placeholders of
    the template, whatever the declared locations are.  An operation that
    declares the path parameter [id] and has the template [/items] is sent
    without [id]; and for the template [/reports/{format}] with [format]
    declared in the query, the value of [format] is put into the path. *)
Lemma absent_path_parameter_counterexample :
  tool_func (Return (always 200)) items_operation (mkToolInput ∅ None None)
  = (Success (PyDict [("data", PyStr ""); ("status_code", PyInt 200)]),
     [mkRequest "GET" "/items" None None None])
  /\ tool_func (Return (always 200)) report_operation
       (mkToolInput (<["format" := PyStr "csv"]> ∅) None None)
     = (Success (PyDict [("data", PyStr ""); ("status_code", PyInt 200)]),
        [mkRequest "GET" "/reports/csv" (Some (<["format" := PyStr "csv"]> ∅)) None None])
  /\ ~ absent_path_parameter_fails.
Proof.
  assert (E : tool_func (Return (always 200)) items_operation (mkToolInput ∅ None None)
    = (Success (PyDict [("data", PyStr ""); ("status_code", PyInt 200)]),
       [mkRequest "GET" "/items" None None None])) by (vm_compute; reflexivity).
  split; [exact E|]. split; [vm_compute; reflexivity|].
  intros H.
  destruct (H (always 200) items_operation (mkToolInput ∅ None None)
              (mkParameterDescriptor (Some "id") (Some "path") false
                 (mkSchema (Some "string")) "") "id") as [msg Hm].
  - apply list_elem_of_here.
  - reflexivity.
  - reflexivity.
  - vm_compute. reflexivity.
  - rewrite E in Hm. discriminate Hm.
Qed.

(** C2, amended: with a client at hand, an input that has no value for some
    placeholder of the operation's path template fails with the missing-
    path-parameter error; the message lists the name of every such
    placeholder (once per occurrence) and no request is issued.  The
    substitution runs on the whole dumped input, not on the path-location
    parameters only. *)
Theorem missing_placeholder_fails_fast
    (client : Request -> exc Response) (op : Operation) (input_data : ToolInput)
    (param : PathParameter) :
  param ∈ extract_parameters (path_template op) ->
  dict_get (model_dump input_data) (pp_name param) = PyNone ->
  tool_func (Return client) op input_data
  = (ModelRetry MissingPathParameter
       ("Missing required path parameters: "
          +:+ Str.join ", " (missing_names op input_data)
          +:+ ". Please provide values for: "
          +:+ repr_str_list (missing_names op input_data)), [])
  /\ (forall p, p ∈ extract_parameters (path_template op) ->
                dict_get (model_dump input_data) (pp_name p) = PyNone ->
                pp_name p ∈ missing_names op input_data)
  /\ (substitute_parameters (path_template op) (model_dump input_data) false).2
     = missing_names op input_data.
Proof.
  intros Hin Hnone.
  assert (Hall : forall p, p ∈ extract_parameters (path_template op) ->
                dict_get (model_dump input_data) (pp_name p) = PyNone ->
                pp_name p ∈ missing_names op input_data).
  { intros p Hp Hd. unfold missing_names.
    apply list_elem_of_fmap. exists p. split; [done|].
    apply list_elem_of_filter. split; [|done].
    unfold unmapped, lookup_key. by rewrite Hd. }
  assert (Hm : (substitute_parameters (path_template op) (model_dump input_data) false).2
               = missing_names op input_data).
  { apply substitute_missing. }
  split; [|split; [exact Hall | exact Hm]].
  unfold tool_func.
  destruct (substitute_parameters _ _ _) as [path missing]. simpl in Hm. subst missing.
  specialize (Hall param Hin Hnone).
  destruct (missing_names op input_data) as [|nm l]; [|done].
  by apply elem_of_nil in Hall.
Qed.

Lemma missing_placeholder_fails_fast_witness :
  tool_func (Return (always 200)) plant_operation (mkToolInput ∅ None None)
  = (ModelRetry MissingPathParameter
       "Missing required path parameters: plantId. Please provide values for: ['plantId']",
     []).
Proof.
  destruct (missing_placeholder_fails_fast (always 200) plant_operation
              (mkToolInput ∅ None None) (mkPathParameter "plantId" "{plantId}" 7))
    as [H _].
  - vm_compute. apply list_elem_of_here.
  - vm_compute. reflexivity.
  - rewrite H. vm_compute. reflexivity.
Defined.

(** ** Extraction of operations *)

Lemma iter_operations_elem oas op :
  op ∈ iter_operations oas ->
  exists path methods method oo,
    (path, methods) ∈ oas_paths oas
    /\ (method, oo) ∈ methods
    /\ Str.upper method ∈ HTTP_METHODS
    /\ op = make_operation (oas_components_parameters oas) path method oo.
Proof.
  unfold iter_operations. intros H.
  apply list_elem_of_In, in_flat_map in H as [[path methods] [Hp H]].
  unfold operations_of_path in H. simpl in H.
  apply in_flat_map in H as [[method oo] [Hm H]]. simpl in H.
  case_bool_decide as Hu; [|by destruct H].
  destruct H as [<-|[]].
  exists path, methods, method, oo.
  repeat split; try done; by apply list_elem_of_In.
Qed.

Lemma iter_operations_intro oas path methods method oo :
  (path, methods) ∈ oas_paths oas ->
  (method, oo) ∈ methods ->
  Str.upper method ∈ HTTP_METHODS ->
  make_operation (oas_components_parameters oas) path method oo ∈ iter_operations oas.
Proof.
  intros Hp Hm Hu. unfold iter_operations.
  apply list_elem_of_In, in_flat_map. exists (path, methods).
  split; [by apply list_elem_of_In|].
  unfold operations_of_path. simpl.
  apply in_flat_map. exists (method, oo).
  split; [by apply list_elem_of_In|]. simpl.
  rewrite bool_decide_eq_true_2 by done. by left.
Qed.

(** Every descriptor is a copy of the parameter object its entry stands
    for: the location as written, the required flag as written and false
    when it is not written. *)
Lemma descriptor_copies_flag gp oo path method pd :
  pd ∈ parameters (make_operation gp path method oo) ->
  exists p, p ∈ declared_parameters oo
    /\ pd_in pd = po_in (resolve_parameter gp p)
    /\ pd_name pd = po_name (resolve_parameter gp p)
    /\ pd_required pd
       = match po_required (resolve_parameter gp p) with Some b => b | None => false end.
Proof.
  simpl. intros H. apply list_elem_of_fmap in H as [p [-> Hp]].
  exists p. split; [exact Hp|]. done.
Qed.

(** C6, counterexample: a path parameter written with [required: false]
    (or with no [required] entry) is extracted with the flag false. *)
Lemma path_implies_required_counterexample :
  iter_operations plant_entry_without_flag = [ plant_without_flag ]
  /\ ~ path_implies_required.
Proof.
  assert (E : iter_operations plant_entry_without_flag = [ plant_without_flag ])
    by (vm_compute; reflexivity).
  split; [exact E|].
  intros H.
  specialize (H plant_entry_without_flag plant_without_flag
                (mkParameterDescriptor (Some "plantId") (Some "path") false (mkSchema None) "")).
  rewrite E in H.
  specialize (H (list_elem_of_here _ _) (list_elem_of_here _ _) eq_refl).
  discriminate H.
Qed.

(** C6, amended: the descriptors of an extracted operation are the copies
    of the entries of its parameter list, one per entry and in their order:
    each has the name and the location of the dereferenced entry and the
    required flag as that entry writes it, false when it is not written;
    the location plays no part in the flag.  Hence in the extracted
    operations a path parameter is required whenever the specification
    writes [required: true] on its path parameters. *)
Theorem path_required_when_declared (oas : OpenAPI) (op : Operation) :
  op ∈ iter_operations oas ->
  (exists path methods method oo,
     (path, methods) ∈ oas_paths oas
     /\ (method, oo) ∈ methods
     /\ op = make_operation (oas_components_parameters oas) path method oo
     /\ Forall2 (copies_entry (oas_components_parameters oas))
                (parameters op) (declared_parameters oo))
  /\ (path_parameters_declared_required oas = true ->
      forall pd, pd ∈ parameters op -> pd_in pd = Some "path" -> pd_required pd = true).
Proof.
  intros Hop.
  apply iter_operations_elem in Hop as (path & methods & method & oo & Hp & Hm & _ & ->).
  split.
  - exists path, methods, method, oo. repeat split; try done.
    simpl. unfold declared_parameters.
    induction (match oo_parameters oo with Some l => l | None => [] end) as [|p l IH];
      simpl; constructor; [by repeat split|exact IH].
  - intros Hd pd Hpd Hin.
    apply descriptor_copies_flag in Hpd as (p & Hp' & Hi & _ & Hr).
    unfold path_parameters_declared_required in Hd.
    rewrite forallb_forall in Hd.
    specialize (Hd _ (proj1 (list_elem_of_In _ _) Hp)). simpl in Hd.
    rewrite forallb_forall in Hd.
    specialize (Hd _ (proj1 (list_elem_of_In _ _) Hm)). simpl in Hd.
    rewrite forallb_forall in Hd.
    specialize (Hd _ (proj1 (list_elem_of_In _ _) Hp')).
    unfold declares_required in Hd.
    rewrite <- Hi, Hin in Hd. rewrite Hr.
    destruct (po_required _) as [[]|]; done.
Qed.

Lemma path_required_when_declared_witness :
  (exists path methods method oo,
     (path, methods) ∈ oas_paths plant_entry
     /\ (method, oo) ∈ methods
     /\ make_operation (oas_components_parameters plant_entry)
          "/Plant/{plantId}" "get" plant_object
        = make_operation (oas_components_parameters plant_entry) path method oo
     /\ Forall2 (copies_entry (oas_components_parameters plant_entry))
          (parameters (make_operation (oas_components_parameters plant_entry)
                         "/Plant/{plantId}" "get" plant_object))
          (declared_parameters oo))
  /\ (forall pd,
        pd ∈ parameters (make_operation (oas_components_parameters plant_entry)
                           "/Plant/{plantId}" "get" plant_object) ->
        pd_in pd = Some "path" -> pd_required pd = true).
Proof.
  destruct (path_required_when_declared plant_entry
              (make_operation (oas_components_parameters plant_entry)
                 "/Plant/{plantId}" "get" plant_object)) as [Hcopy Hreq].
  - vm_compute. apply list_elem_of_here.
  - split; [exact Hcopy|]. apply Hreq. vm_compute. reflexivity.
Defined.

(** ** Names and the registry *)

Lemma make_operation_name gp path method oo :
  op_name (make_operation gp path method oo)
  = match oo_operationId oo with
    | Some (String a s) => String a s
    | _ => method +:+ "_" +:+ path
    end.
Proof. reflexivity. Qed.

Lemma clean_name_digit s :
  starts_with_digit s = true -> _clean_name s = "param_" +:+ s.
Proof. unfold _clean_name. by intros ->. Qed.

Lemma clean_name_other s :
  starts_with_digit s = false -> _clean_name s = s.
Proof. unfold _clean_name. by intros ->. Qed.

Lemma register_all_other ops : forall ts key,
  (forall op', op' ∈ ops -> _clean_name (op_name op') <> key) ->
  _operations_by_name (fold_left register ops ts) !! key = _operations_by_name ts !! key.
Proof.
  induction ops as [|op ops IH]; intros ts key H; simpl; [done|].
  rewrite IH.
  - simpl. apply lookup_insert_ne. apply H. apply list_elem_of_here.
  - intros op' Hop'. apply H. by apply list_elem_of_further.
Qed.

Lemma register_all_lookup before op after ts :
  (forall op', op' ∈ after -> _clean_name (op_name op') <> _clean_name (op_name op)) ->
  _operations_by_name (fold_left register (before ++ op :: after) ts)
    !! _clean_name (op_name op) = Some op.
Proof.
  intros H. rewrite fold_left_app. simpl.
  rewrite register_all_other by done. simpl. apply lookup_insert_eq.
Qed.

Lemma load_openapi_unfold oas :
  load_openapi oas = fold_left register (iter_operations oas) empty_toolset.
Proof. reflexivity. Qed.

(** C7, counterexample: the identifiers [123resource] and
    [param_123resource] are different, and both operations are stored under
    [param_123resource]; the lookup returns the second one. *)
Lemma name_round_trips_counterexample :
  (let first := make_operation ∅ "/first" "get"
                  (mkOperationObject (Some "123resource") None None None None None) in
   first ∈ iter_operations colliding_entries
   /\ _clean_name (op_name first) = "param_123resource"
   /\ get_operation (load_openapi colliding_entries) (_clean_name (op_name first))
      = Some (make_operation ∅ "/second" "get"
                (mkOperationObject (Some "param_123resource") None None None None None)))
  /\ ~ name_round_trips.
Proof.
  assert (E : get_operation (load_openapi colliding_entries) "param_123resource"
            = Some (make_operation ∅ "/second" "get"
                      (mkOperationObject (Some "param_123resource") None None None None None)))
    by (vm_compute; reflexivity).
  assert (Hin : make_operation ∅ "/first" "get"
                  (mkOperationObject (Some "123resource") None None None None None)
                ∈ iter_operations colliding_entries)
    by (vm_compute; apply list_elem_of_here).
  split.
  - simpl. split; [exact Hin|]. split; [reflexivity|]. exact E.
  - intros H. specialize (H _ _ Hin).
    change (_clean_name (op_name _)) with "param_123resource" in H.
    rewrite E in H. discriminate H.
Qed.

(** C7, amended: the name of an extracted operation is the operation
    identifier of its entry when that is present and not empty, and
    otherwise the method as written, an underscore and the path; a name that
    begins with a digit is stored under the name prefixed with [param_]; and
    looking a stored name up returns the operation, provided no operation
    extracted after it has the same cleaned name. *)
Theorem operation_name_round_trip (oas : OpenAPI) (before after : list Operation)
    (op : Operation) :
  iter_operations oas = before ++ op :: after ->
  (forall op', op' ∈ after -> _clean_name (op_name op') <> _clean_name (op_name op)) ->
  (exists path methods method oo,
      (path, methods) ∈ oas_paths oas
      /\ (method, oo) ∈ methods
      /\ op = make_operation (oas_components_parameters oas) path method oo
      /\ op_name op = match oo_operationId oo with
                      | Some (String a s) => String a s
                      | _ => method +:+ "_" +:+ path
                      end)
  /\ _clean_name (op_name op)
     = (if starts_with_digit (op_name op) then "param_" +:+ op_name op else op_name op)
  /\ get_operation (load_openapi oas) (_clean_name (op_name op)) = Some op.
Proof.
  intros Hops Hafter. split; [|split].
  - assert (Hin : op ∈ iter_operations oas).
    { rewrite Hops. apply elem_of_app. right. apply list_elem_of_here. }
    apply iter_operations_elem in Hin as (path & methods & method & oo & Hp & Hm & _ & ->).
    exists path, methods, method, oo. repeat split; done.
  - reflexivity.
  - unfold get_operation. rewrite load_openapi_unfold, Hops.
    by apply register_all_lookup.
Qed.

Lemma operation_name_round_trip_witness :
  get_operation (load_openapi digit_entries) "param_123resource"
  = Some (make_operation ∅ "/first" "get"
            (mkOperationObject (Some "123resource") None None None None None)).
Proof.
  apply (operation_name_round_trip digit_entries []
           [ make_operation ∅ "/second" "get"
               (mkOperationObject None None None None None None) ]
           (make_operation ∅ "/first" "get"
              (mkOperationObject (Some "123resource") None None None None None))).
  - vm_compute. reflexivity.
  - intros op' Hop'. apply list_elem_of_singleton in Hop'. subst op'.
    vm_compute. discriminate.
Defined.

(** C8: when reading the specification raises, or walking it does, the
    toolset that [_load_operations] leaves is the empty one, whatever it
    held before: no operation (a count of zero), an empty registry, and no
    name that can be looked up. *)
Theorem failed_load_leaves_empty_registry (document : Type)
    (load : exc document) (extract : document -> exc (list Operation)) (ts : Toolset) :
  (match load with
   | Raise _ => True
   | Return d => match extract d with Raise _ => True | Return _ => False end
   end) ->
  _load_operations document load extract ts = empty_toolset
  /\ size (_operations_by_name (_load_operations document load extract ts)) = 0
  /\ _registry (_load_operations document load extract ts) = ∅
  /\ forall name, get_operation (_load_operations document load extract ts) name = None.
Proof.
  intros H.
  assert (E : _load_operations document load extract ts = empty_toolset).
  { unfold _load_operations, load_body.
    destruct load as [d|e]; [|done].
    destruct (extract d) as [ops|e]; [done|done]. }
  rewrite E. repeat split; try done.
Qed.

Lemma failed_load_leaves_empty_registry_witness :
  _load_operations OpenAPI (Raise "[Errno 2] No such file or directory")
    (fun d => Return (iter_operations d)) (load_openapi plant_entry)
  = empty_toolset.
Proof.
  apply (failed_load_leaves_empty_registry OpenAPI
           (Raise "[Errno 2] No such file or directory")
           (fun d => Return (iter_operations d)) (load_openapi plant_entry)).
  exact I.
Defined.

(** Loading ends in one of two toolsets: the empty one, or the given one
    with every extracted operation registered. *)
Lemma load_all_or_nothing (document : Type)
    (load : exc document) (extract : document -> exc (list Operation)) (ts : Toolset) :
  _load_operations document load extract ts = empty_toolset
  \/ exists d ops, load = Return d /\ extract d = Return ops
       /\ _load_operations document load extract ts = fold_left register ops ts.
Proof.
  unfold _load_operations, load_body.
  destruct load as [d|e]; [|by left].
  destruct (extract d) as [ops|e] eqn:E; [|by left].
  right. by exists d, ops.
Qed.

(** ** The input model *)

Lemma clean_name_include_all nm :
  _clean_name nm = "include_all" -> nm = "include_all".
Proof.
  unfold _clean_name. destruct (starts_with_digit nm); [|done].
  intros H. discriminate H.
Qed.

Lemma map_parameters_total ps : forall fields,
  forallb (fun p => bool_decide (is_Some (pd_name p))) ps = true ->
  exists fields', map_parameters ps fields = Some fields'.
Proof.
  induction ps as [|p ps IH]; intros fields H; simpl in *; [by eexists|].
  apply andb_prop in H as [Hp Hps].
  apply bool_decide_eq_true_1 in Hp as [nm Hnm]. rewrite Hnm.
  by apply IH.
Qed.

Lemma map_parameters_other ps key : forall fields fields',
  map_parameters ps fields = Some fields' ->
  Some key ∉ map pd_name ps ->
  (forall nm, _clean_name nm = key -> nm = key) ->
  fields' !! key = fields !! key.
Proof.
  induction ps as [|p ps IH]; intros fields fields' H Hnot Hclean; simpl in *.
  - by injection H as <-.
  - destruct (pd_name p) as [nm|] eqn:Hnm; [|done].
    apply not_elem_of_cons in Hnot as [Hne Hnot].
    rewrite (IH _ _ H Hnot Hclean).
    apply lookup_insert_ne. intros Hk. apply Hne. f_equal. symmetry. by apply Hclean.
Qed.

Lemma has_pagination_spec op :
  has_pagination op = true
  <-> Some "page" ∈ map pd_name (parameters op)
      \/ Some "per_page" ∈ map pd_name (parameters op)
      \/ Some "cursor" ∈ map pd_name (parameters op).
Proof.
  unfold has_pagination. simpl.
  rewrite !orb_true_iff, !bool_decide_eq_true. tauto.
Qed.

(** C9, counterexample: an operation whose only parameter is [page] gets
    the [include_all] field. *)
Lemma include_all_counterexample :
  _build_input_model_from_operation paged_operation = Some paged_model
  /\ model_fields paged_model !! "include_all" = Some include_all_field
  /\ ~ include_all_iff_both_or_cursor.
Proof.
  assert (E : _build_input_model_from_operation paged_operation = Some paged_model)
    by (vm_compute; reflexivity).
  assert (L : model_fields paged_model !! "include_all" = Some include_all_field)
    by (vm_compute; reflexivity).
  split; [exact E|]. split; [exact L|].
  intros H. apply (H _ _) in E. destruct E as [E _].
  rewrite L in E. destruct (E (mk_is_Some _ _ eq_refl)) as [[_ Hpp]|Hc].
  - simpl in Hpp. apply list_elem_of_singleton in Hpp. discriminate Hpp.
  - simpl in Hc. apply list_elem_of_singleton in Hc. discriminate Hc.
Qed.

(** C9, amended: for an operation whose parameters all have names the
    input model is built, and it has the optional boolean field
    [include_all] with default false when a parameter is named [page],
    [per_page] or [cursor] (one of them is enough); when none is, the model
    has no field [include_all] unless a parameter itself has that name.  The
    field [extra_headers] is always there. *)
Theorem include_all_field_presence (op : Operation) :
  all_named op = true ->
  exists m,
    _build_input_model_from_operation op = Some m
    /\ model_fields m !! "extra_headers" = Some extra_headers_field
    /\ (Some "page" ∈ map pd_name (parameters op)
        \/ Some "per_page" ∈ map pd_name (parameters op)
        \/ Some "cursor" ∈ map pd_name (parameters op) ->
        model_fields m !! "include_all" = Some include_all_field)
    /\ (~ (Some "page" ∈ map pd_name (parameters op)
           \/ Some "per_page" ∈ map pd_name (parameters op)
           \/ Some "cursor" ∈ map pd_name (parameters op)) ->
        Some "include_all" ∉ map pd_name (parameters op) ->
        model_fields m !! "include_all" = None).
Proof.
  intros Hn. unfold _build_input_model_from_operation.
  destruct (map_parameters_total (parameters op) ∅ Hn) as [fields Hf]. rewrite Hf.
  eexists. split; [reflexivity|]. simpl.
  destruct (has_pagination op) eqn:Hp.
  - split; [by rewrite lookup_insert_ne, lookup_insert_eq|].
    split; [intros _; by rewrite lookup_insert_eq|].
    intros Hnot. exfalso. apply Hnot. by apply has_pagination_spec.
  - split; [by rewrite lookup_insert_eq|].
    split.
    + intros H. apply has_pagination_spec in H. congruence.
    + intros _ Hia. rewrite lookup_insert_ne by done.
      assert (Hb : forall fs : gmap string FieldSpec,
                (<["body" := body_field]> fs) !! "include_all" = fs !! "include_all")
        by (intros fs; by rewrite lookup_insert_ne).
      assert (Hl : fields !! "include_all" = None).
      { rewrite (map_parameters_other _ "include_all" _ _ Hf Hia clean_name_include_all).
        apply lookup_empty. }
      destruct (request_body_schema op); [by rewrite Hb|done].
Qed.

Lemma include_all_field_presence_witness :
  exists m,
    _build_input_model_from_operation paged_operation = Some m
    /\ model_fields m !! "extra_headers" = Some extra_headers_field
    /\ (Some "page" ∈ map pd_name (parameters paged_operation)
        \/ Some "per_page" ∈ map pd_name (parameters paged_operation)
        \/ Some "cursor" ∈ map pd_name (parameters paged_operation) ->
        model_fields m !! "include_all" = Some include_all_field)
    /\ (~ (Some "page" ∈ map pd_name (parameters paged_operation)
           \/ Some "per_page" ∈ map pd_name (parameters paged_operation)
           \/ Some "cursor" ∈ map pd_name (parameters paged_operation)) ->
        Some "include_all" ∉ map pd_name (parameters paged_operation) ->
        model_fields m !! "include_all" = None).
Proof.
  apply (include_all_field_presence paged_operation).
  vm_compute. reflexivity.
Defined.

(** * Further properties *)

(** ** Extraction: every match is reported *)

Lemma drop_cons n c s : Str.drop (S n) (String c s) = Str.drop n s.
Proof. reflexivity. Qed.

Lemma drop_0 s : Str.drop 0 s = s.
Proof. reflexivity. Qed.

Lemma mem_drop a j : forall o, Str.mem a o = false -> Str.mem a (Str.drop j o) = false.
Proof.
  induction j as [|j IH]; intros o H; [done|].
  destruct o as [|c o]; [done|]. simpl in *.
  destruct (Ascii.eqb a c); [done|]. by apply IH.
Qed.

Lemma startswith_inside a p rest : forall o j,
  j < String.length o ->
  Str.mem a (Str.drop j o) = false ->
  Str.startswith (String a p) (Str.drop j (o +:+ rest)) = false.
Proof.
  induction o as [|c o IH]; intros j Hj Hm; simpl in Hj; [lia|].
  rewrite append_cons. destruct j as [|j].
  - rewrite drop_0 in *. simpl in Hm. rewrite startswith_cons.
    destruct (Ascii.eqb a c); done.
  - rewrite drop_cons in *. apply IH; [lia|done].
Qed.

Lemma startswith_inside_tail a p c o rest j :
  j < String.length o ->
  Str.mem a o = false ->
  Str.startswith (String a p) (Str.drop (S j) (String c o +:+ rest)) = false.
Proof.
  intros Hj Hm. rewrite append_cons, drop_cons.
  apply startswith_inside; [done|]. by apply mem_drop.
Qed.

(** No match of a pattern begins inside a match of the same pattern. *)
Lemma no_inner_match pat s nm o j :
  pat ∈ map fst PARAMETER_PATTERNS ->
  match_here pat s = Some (nm, o) ->
  0 < j < String.length o ->
  match_here pat (Str.drop j s) = None.
Proof.
  intros Hpat Hm [Hj0 Hj].
  apply match_here_sound in Hm as ([Hne Hw] & Ho & Hs).
  apply startswith_split in Hs. set (rest := Str.drop (String.length o) s) in Hs.
  assert (Hnw : forall a, is_word a = false -> Str.mem a nm = false)
    by (intros a; by apply mem_all_false).
  assert (Hp : Str.startswith (pat_prefix pat) (Str.drop j s) = false).
  { rewrite Hs. destruct j as [|j]; [lia|].
    simpl in Hpat.
    repeat (apply elem_of_cons in Hpat as [->|Hpat]); [..|by apply elem_of_nil in Hpat];
      simpl in Ho; rewrite ?append_cons, ?append_nil_l in Ho; subst o.
    - apply startswith_inside_tail; [simpl in *; lia|].
      rewrite mem_append, Hnw by done. done.
    - apply startswith_inside_tail; [simpl in *; lia|].
      rewrite mem_append, Hnw by done. done.
    - (* the double brace: the second brace is followed by the name *)
      destruct j as [|j].
      + cbn [pat_prefix]. rewrite !append_cons, drop_cons, drop_0.
        destruct nm as [|z nm]; [done|]. rewrite !append_cons, !startswith_cons.
        rewrite all_cons in Hw. apply andb_prop in Hw as [Hz _].
        destruct (Ascii.eqb "{" z) eqn:E; [|done].
        apply Ascii.eqb_eq in E as <-. done.
      + rewrite append_cons, drop_cons.
        apply startswith_inside_tail; [simpl in *; lia|].
        rewrite mem_append, Hnw by done. done.
    - apply startswith_inside_tail; [simpl in *; lia|]. simpl.
      rewrite mem_append, Hnw by done. done.
    - apply startswith_inside_tail; [simpl in *; lia|].
      rewrite mem_append, Hnw by done. done. }
  unfold match_here. by rewrite Hp.
Qed.

Lemma match_here_nonempty pat s nm o :
  match_here pat s = Some (nm, o) -> s <> "".
Proof.
  intros H ->. unfold match_here in H.
  destruct (Str.startswith (pat_prefix pat) "") eqn:Hp; [|done].
  rewrite drop_nil in H. done.
Qed.

(** [finditer] reports the match at every offset where the pattern matches
    and that the scan has not passed. *)
Lemma finditer_from_complete pat nm o : forall s pos skip j,
  pat ∈ map fst PARAMETER_PATTERNS ->
  skip <= j ->
  match_here pat (Str.drop j s) = Some (nm, o) ->
  mkPathParameter nm o (pos + j) ∈ finditer_from pat pos skip s.
Proof.
  induction s as [|c s IH]; intros pos skip j Hpat Hskip Hm.
  - rewrite drop_nil in Hm. by apply match_here_nonempty in Hm.
  - cbn [finditer_from]. destruct skip as [|skip].
    + destruct j as [|j].
      * rewrite drop_0 in Hm. rewrite Hm, Nat.add_0_r. apply list_elem_of_here.
      * rewrite drop_cons in Hm.
        replace (pos + S j) with (S pos + j) by lia.
        destruct (match_here pat (String c s)) as [[nm0 o0]|] eqn:Hm0.
        -- apply list_elem_of_further. apply IH; [done| |done].
           destruct (decide (S j < String.length o0)) as [Hin|Hout]; [|lia].
           assert (Hn := no_inner_match pat (String c s) nm0 o0 (S j) Hpat Hm0
                           ltac:(lia)).
           rewrite drop_cons in Hn. congruence.
        -- apply IH; [done|lia|done].
    + destruct j as [|j]; [lia|]. rewrite drop_cons in Hm.
      replace (pos + S j) with (S pos + j) by lia.
      apply IH; [done|lia|done].
Qed.

(** Two patterns do not match at the same place. *)
Lemma match_here_exclusive pat pat' s nm o nm' o' :
  pat ∈ map fst PARAMETER_PATTERNS ->
  pat' ∈ map fst PARAMETER_PATTERNS ->
  match_here pat s = Some (nm, o) ->
  match_here pat' s = Some (nm', o') ->
  pat = pat'.
Proof.
  intros Hpat Hpat' Hm Hm'.
  apply match_here_sound in Hm as ([Hne Hw] & Ho & Hs).
  apply match_here_sound in Hm' as ([Hne' Hw'] & Ho' & Hs').
  destruct nm as [|z nm]; [done|]. destruct nm' as [|z' nm']; [done|].
  rewrite all_cons in Hw, Hw'.
  apply andb_prop in Hw as [Hz _]. apply andb_prop in Hw' as [Hz' _].
  apply startswith_split in Hs, Hs'. rewrite Hs' in Hs. clear Hs'.
  simpl in Hpat, Hpat'.
  repeat (apply elem_of_cons in Hpat as [->|Hpat]); [..|by apply elem_of_nil in Hpat];
  repeat (apply elem_of_cons in Hpat' as [->|Hpat']); try (by apply elem_of_nil in Hpat');
    try reflexivity;
    simpl in Ho, Ho'; subst o o'; rewrite ?append_cons, ?append_nil_l in Hs;
    try discriminate Hs;
    injection Hs as Hs; subst; done.
Qed.

Lemma extract_step_keeps st m :
  seen_have_tokens st ->
  seen_have_tokens (extract_step st m)
  /\ (forall p, p ∈ st.1 -> p ∈ (extract_step st m).1)
  /\ exists p, p ∈ (extract_step st m).1 /\ position p = position m.
Proof.
  intros Hinv. unfold extract_step. case_decide as Hm; simpl.
  - split; [done|]. split; [done|]. by apply Hinv.
  - split; [|split].
    + intros k Hk. simpl in Hk. apply elem_of_union in Hk as [Hk|Hk].
      * apply elem_of_singleton in Hk as ->. exists m. split; [|done].
        apply elem_of_app. right. apply list_elem_of_here.
      * destruct (Hinv k Hk) as (p & Hp & Hpk). exists p. split; [|done].
        apply elem_of_app. by left.
    + intros p Hp. apply elem_of_app. by left.
    + exists m. split; [|done]. apply elem_of_app. right. apply list_elem_of_here.
Qed.

Lemma extract_steps_keep ms : forall st,
  seen_have_tokens st ->
  seen_have_tokens (fold_left extract_step ms st)
  /\ (forall p, p ∈ st.1 -> p ∈ (fold_left extract_step ms st).1)
  /\ (forall m, m ∈ ms ->
        exists p, p ∈ (fold_left extract_step ms st).1 /\ position p = position m).
Proof.
  induction ms as [|m ms IH]; intros st Hinv; simpl.
  - split; [done|]. split; [done|]. intros m Hm. by apply elem_of_nil in Hm.
  - destruct (extract_step_keeps st m Hinv) as (Hinv' & Hmono & (p0 & Hp0 & Hpos0)).
    destruct (IH _ Hinv') as (Hinv'' & Hmono' & Hall).
    split; [done|]. split; [auto|].
    intros m' Hm'. apply elem_of_cons in Hm' as [->|Hm']; [|by apply Hall].
    exists p0. split; [by apply Hmono'|done].
Qed.

Lemma extract_scan_positions t pat m :
  pat ∈ map fst PARAMETER_PATTERNS ->
  m ∈ finditer pat t ->
  exists p, p ∈ (extract_scan t).1 /\ position p = position m.
Proof.
  unfold extract_scan.
  assert (G : forall pats st,
    seen_have_tokens st ->
    let r := fold_left (fun st (pf : pattern * string) =>
                          fold_left extract_step (finditer (fst pf) t) st) pats st in
    (forall p, p ∈ st.1 -> p ∈ r.1)
    /\ (pat ∈ map fst pats -> m ∈ finditer pat t ->
        exists p, p ∈ r.1 /\ position p = position m)).
  { induction pats as [|pf pats IH]; intros st Hinv; simpl.
    - split; [done|]. intros H. by apply elem_of_nil in H.
    - destruct (extract_steps_keep (finditer (fst pf) t) st Hinv) as (Hinv' & Hmono & Hall).
      destruct (IH _ Hinv') as [Hmono' Hfind].
      split; [auto|].
      intros Hpat Hm. apply elem_of_cons in Hpat as [->|Hpat]; [|by apply Hfind].
      destruct (Hall m Hm) as (p & Hp & Hpos). exists p. split; [by apply Hmono'|done]. }
  intros Hpat Hm. apply (G PARAMETER_PATTERNS ([], ∅)); [|done|done].
  intros k Hk. by apply elem_of_empty in Hk.
Qed.

(** A match of a pattern at an offset is a token. *)
Lemma match_is_token t pat k nm o :
  pat ∈ map fst PARAMETER_PATTERNS ->
  match_here pat (Str.drop k t) = Some (nm, o) ->
  mkPathParameter nm o k ∈ extract_parameters t.
Proof.
  intros Hpat Hm. unfold extract_parameters. apply sort_by_position_elem.
  assert (Hin : mkPathParameter nm o (0 + k) ∈ finditer pat t)
    by (apply finditer_from_complete; [done|lia|done]).
  destruct (extract_scan_positions t pat _ Hpat Hin) as (q & Hq & Hpos).
  simpl in Hpos.
  destruct (extract_scan_elem t q Hq) as (pat' & Hpat' & Hq').
  apply finditer_from_elem in Hq' as (j & Hj & Hm'). simpl in Hj. subst j.
  rewrite Hpos in Hm'.
  assert (pat' = pat) by (by eapply match_here_exclusive). subst pat'.
  rewrite Hm in Hm'. injection Hm' as Hn Ho.
  destruct q as [n' o' k']. simpl in *. by subst.
Qed.

(** A token is a match of one of the patterns at the token's offset. *)
Lemma token_iff_match_left t p :
  p ∈ extract_parameters t ->
  exists pat, pat ∈ map fst PARAMETER_PATTERNS
    /\ match_here pat (Str.drop (position p) t) = Some (pp_name p, original_format p).
Proof.
  unfold extract_parameters. rewrite sort_by_position_elem.
  intros H. apply extract_scan_elem in H as (pat & Hpat & H).
  apply finditer_from_elem in H as (k & Hk & Hm). simpl in Hk. subst k.
  by exists pat.
Qed.

(** X2: the tokens of a template are exactly the matches of the five
    patterns: a token is at an offset with a name and a text if and only if
    one of the patterns, tried at that offset, matches with that name and
    that text. *)
Theorem token_iff_match (t : string) (p : PathParameter) :
  p ∈ extract_parameters t
  <-> exists pat, pat ∈ map fst PARAMETER_PATTERNS
        /\ match_here pat (Str.drop (position p) t)
           = Some (pp_name p, original_format p).
Proof.
  split.
  - apply token_iff_match_left.
  - intros (pat & Hpat & Hm). destruct p as [n o k]. simpl in Hm.
    by eapply match_is_token.
Qed.

Lemma match_group_none suf s : head_is_word s = false -> match_group suf s = None.
Proof. destruct s as [|c s]; simpl; [done|]. by intros ->. Qed.

Lemma match_group_run suf rest : forall nm,
  nm <> "" -> Str.all is_word nm = true ->
  head_is_word (suf +:+ rest) = false ->
  match_group suf (nm +:+ suf +:+ rest) = Some (String.length nm).
Proof.
  induction nm as [|z nm IH]; intros Hne Hw Hend; [done|].
  rewrite all_cons in Hw. apply andb_prop in Hw as [Hz Hw].
  rewrite append_cons. cbn [match_group]. rewrite Hz.
  destruct nm as [|y nm].
  - rewrite append_nil_l, match_group_none by done.
    by rewrite startswith_append.
  - rewrite IH by done. done.
Qed.

Lemma match_here_placeholder pat nm after :
  nm <> "" -> Str.all is_word nm = true ->
  head_is_word (pat_suffix pat +:+ after) = false ->
  match_here pat (pat_prefix pat +:+ nm +:+ pat_suffix pat +:+ after)
  = Some (nm, pat_prefix pat +:+ nm +:+ pat_suffix pat).
Proof.
  intros Hne Hw Hend. unfold match_here.
  rewrite startswith_append, drop_append, match_group_run by done.
  f_equal. f_equal.
  - rewrite substring_drop, drop_append. apply substring_append.
  - rewrite <- Nat.add_assoc, substring_append_more. f_equal.
    rewrite substring_append_more. f_equal. apply substring_append.
Qed.

(** X3: a placeholder written in any of the five notations, with a name of
    word characters that ends where the notation ends, is a token of the
    template, at the offset where it is written. *)
Theorem placeholder_is_extracted (pat : pattern) (before nm after : string) :
  pat ∈ map fst PARAMETER_PATTERNS ->
  nm <> "" ->
  Str.all is_word nm = true ->
  head_is_word (pat_suffix pat +:+ after) = false ->
  mkPathParameter nm (pat_prefix pat +:+ nm +:+ pat_suffix pat) (String.length before)
  ∈ extract_parameters (before +:+ pat_prefix pat +:+ nm +:+ pat_suffix pat +:+ after).
Proof.
  intros Hpat Hne Hw Hend. apply (match_is_token _ pat); [done|].
  rewrite drop_append. by apply match_here_placeholder.
Qed.

Lemma placeholder_is_extracted_witness :
  mkPathParameter "id" "{{id}}" 12
  ∈ extract_parameters "/submittals/{{id}}.pdf".
Proof.
  apply (placeholder_is_extracted (mkPattern "{{" "}}") "/submittals/" "id" ".pdf").
  - vm_compute. do 2 apply list_elem_of_further. apply list_elem_of_here.
  - discriminate.
  - reflexivity.
  - reflexivity.
Defined.

(** X4: the text of a token is the piece of the template at the token's
    offset; it is the token's name, a non-empty run of word characters,
    between the prefix and the suffix of one of the five notations. *)
Theorem token_text_in_template (t : string) (p : PathParameter) :
  p ∈ extract_parameters t ->
  substring (position p) (String.length (original_format p)) t = original_format p
  /\ position p < String.length t
  /\ pp_name p <> ""
  /\ Str.all is_word (pp_name p) = true
  /\ exists pat, pat ∈ map fst PARAMETER_PATTERNS
       /\ original_format p = pat_prefix pat +:+ pp_name p +:+ pat_suffix pat.
Proof.
  intros H. destruct (token_sound t p H) as [(pat & Hpat & [Hne Hw] & Ho) Hs].
  assert (Hsub : substring (position p) (String.length (original_format p)) t
                 = original_format p).
  { rewrite substring_drop. apply startswith_split in Hs. rewrite Hs at 1.
    apply substring_append. }
  split; [done|]. split; [|split; [done|split; [done|by exists pat]]].
  destruct (decide (position p < String.length t)) as [Hlt|Hge]; [done|].
  assert (Hd : String.length (Str.drop (position p) t) = 0)
    by (rewrite length_drop; lia).
  destruct (Str.drop (position p) t) as [|c r]; [|done].
  destruct (original_format p) as [|a o] eqn:E; [|done].
  destruct (pat_prefix pat) as [|a' pre] eqn:Epre.
  - simpl in Hpat.
    repeat (apply elem_of_cons in Hpat as [->|Hpat]); try discriminate Epre.
    by apply elem_of_nil in Hpat.
  - rewrite append_cons in Ho. done.
Qed.

Lemma token_text_in_template_witness :
  substring 7 6 "/Plant/{{id}}" = "{{id}}".
Proof.
  apply (token_text_in_template "/Plant/{{id}}" (mkPathParameter "id" "{{id}}" 7)).
  vm_compute. apply list_elem_of_here.
Defined.

(** X5: [validate_path] accepts a path exactly when none of the five
    patterns matches at any offset of it; a rejected path comes with the
    names of its tokens, of which there is at least one. *)
Theorem validate_path_accepts_iff_no_match (path : string) :
  (validate_path path = (true, [])
   <-> forall pat k, pat ∈ map fst PARAMETER_PATTERNS ->
                     match_here pat (Str.drop k path) = None)
  /\ (validate_path path <> (true, []) ->
      validate_path path = (false, map pp_name (extract_parameters path))
      /\ (validate_path path).2 <> []).
Proof.
  split; [split|].
  - intros Hv pat k Hpat.
    destruct (match_here pat (Str.drop k path)) as [[nm o]|] eqn:Hm; [|done].
    apply (match_is_token path pat k nm o Hpat) in Hm.
    unfold validate_path in Hv.
    destruct (extract_parameters path); [|done]. by apply elem_of_nil in Hm.
  - intros Hnone. unfold validate_path.
    destruct (extract_parameters path) as [|p l] eqn:E; [done|].
    assert (Hp : p ∈ extract_parameters path) by (rewrite E; apply list_elem_of_here).
    apply token_iff_match_left in Hp as (pat & Hpat & Hm).
    by rewrite Hnone in Hm.
  - unfold validate_path. destruct (extract_parameters path) as [|p l]; [done|].
    intros _. done.
Qed.

(** X6: a path that has none of the characters [{], [:] and [<] has no
    token: it is accepted by [validate_path], and [substitute_parameters]
    returns it as it is with nothing missing, whatever the values. *)
Theorem plain_path_is_fixed (path : string) (values : gmap string pyval) (f : bool) :
  inert path = true ->
  extract_parameters path = []
  /\ validate_path path = (true, [])
  /\ substitute_parameters path values f = (path, []).
Proof.
  intros H. assert (E : extract_parameters path = []) by (by apply inert_no_tokens).
  split; [done|]. split.
  - unfold validate_path. by rewrite E.
  - unfold substitute_parameters. by rewrite E.
Qed.

Lemma plain_path_is_fixed_witness :
  substitute_parameters "/companies/123/items" (<["id" := PyInt 1]> ∅) true
  = ("/companies/123/items", []).
Proof.
  apply (plain_path_is_fixed "/companies/123/items" (<["id" := PyInt 1]> ∅) true).
  vm_compute. reflexivity.
Defined.

(** X7: when no token of the template has a value, in particular for the
    empty mapping, [substitute_parameters] returns the template as it is
    and reports the name of every token, in offset order. *)
Theorem nothing_mapped_nothing_replaced (t : string) (values : gmap string pyval)
    (f : bool) :
  (forall p, p ∈ extract_parameters t -> unmapped values f p = true) ->
  substitute_parameters t values f = (t, map pp_name (extract_parameters t)).
Proof.
  intros H. unfold substitute_parameters.
  assert (G : forall tokens st,
    (forall p, p ∈ tokens -> unmapped values f p = true) ->
    fold_left (substitute_step values f) tokens st
    = (st.1, st.2 ++ map pp_name tokens)).
  { induction tokens as [|p tokens IH]; intros st Hall; simpl.
    - rewrite app_nil_r. by destruct st.
    - rewrite substitute_step_unmapped by (apply Hall; apply list_elem_of_here).
      rewrite IH by (intros q Hq; apply Hall; by apply list_elem_of_further).
      simpl. by rewrite <- app_assoc. }
  by rewrite G.
Qed.

Lemma nothing_mapped_nothing_replaced_witness :
  substitute_parameters "/a/{x}/b/:y" ∅ false = ("/a/{x}/b/:y", ["x"; "y"]).
Proof.
  rewrite (nothing_mapped_nothing_replaced "/a/{x}/b/:y" ∅ false).
  - vm_compute. reflexivity.
  - intros p _. reflexivity.
Defined.




Lemma default_steps_missing defaults missing : forall st,
  (fold_left (default_step defaults) missing st).2
  = st.2 ++ filter (fun nm => default_for defaults nm = None) missing.
Proof.
  induction missing as [|nm missing IH]; intros st; simpl.
  - by rewrite app_nil_r.
  - rewrite IH, filter_cons. unfold default_step.
    case_decide as E.
    + rewrite E. simpl. by rewrite <- app_assoc.
    + destruct (default_for defaults nm); done.
Qed.

(** X9: a path that [substitute_path] returns is accepted by
    [validate_path]: none of the five patterns matches anywhere in it.  The
    result is a path or an error message, never both. *)
Theorem returned_path_has_no_placeholder (op : Operation)
    (kwargs client_defaults : gmap string pyval) (path : string) (err : option string) :
  substitute_path op kwargs client_defaults = (Some path, err) ->
  err = None
  /\ validate_path path = (true, [])
  /\ extract_parameters path = []
  /\ forall pat k, pat ∈ map fst PARAMETER_PATTERNS ->
                   match_here pat (Str.drop k path) = None.
Proof.
  unfold substitute_path.
  destruct (substitute_parameters _ _ _) as [path0 missing].
  destruct (fold_left _ _ _) as [path1 still]. destruct still; [|done].
  destruct (validate_path path1) as [[] remaining] eqn:Hv; [|done].
  intros [= <- <-].
  assert (E : extract_parameters path1 = []).
  { unfold validate_path in Hv. by destruct (extract_parameters path1). }
  split; [done|]. split; [|split; [done|]].
  - unfold validate_path. by rewrite E.
  - intros pat k Hpat.
    destruct (match_here pat (Str.drop k path1)) as [[nm o]|] eqn:Hm; [|done].
    apply (match_is_token path1 pat k nm o Hpat) in Hm. rewrite E in Hm.
    by apply elem_of_nil in Hm.
Qed.

Lemma returned_path_has_no_placeholder_witness :
  validate_path "/companies/7/projects/456/items/9" = (true, []).
Proof.
  apply (returned_path_has_no_placeholder company_items
           (<["project_id" := PyInt 456]> (<["id" := PyInt 9]> ∅))
           (<["default_company_id" := PyInt 7]> ∅)
           "/companies/7/projects/456/items/9" None).
  vm_compute. reflexivity.
Defined.

(** X10: a placeholder that has no value, under its cleaned name, neither in
    [kwargs] nor in [client_defaults], and that is not [company_id] or
    [project_id] with its client default, makes [substitute_path] return no
    path but the message that lists the missing names, this one among
    them. *)
Theorem missing_without_default_is_reported (op : Operation)
    (kwargs client_defaults : gmap string pyval) (param : PathParameter) :
  param ∈ extract_parameters (path_template op) ->
  unmapped (kwargs ∪ client_defaults) true param = true ->
  default_for client_defaults (pp_name param) = None ->
  exists still_missing,
    substitute_path op kwargs client_defaults
    = (None, Some ("Missing required parameters: " +:+ Str.join ", " still_missing))
    /\ pp_name param ∈ still_missing.
Proof.
  intros Hin Hu Hd. unfold substitute_path.
  pose proof (substitute_missing (path_template op) (kwargs ∪ client_defaults) true) as Hm.
  destruct (substitute_parameters _ _ _) as [path0 missing]. simpl in Hm.
  pose proof (default_steps_missing client_defaults missing (path0, [])) as Hs.
  destruct (fold_left _ _ _) as [path1 still]. simpl in Hs.
  assert (Hp : pp_name param ∈ still).
  { rewrite Hs. apply list_elem_of_filter. split; [done|].
    rewrite Hm. apply list_elem_of_fmap. exists param. split; [done|].
    by apply list_elem_of_filter. }
  destruct still as [|nm still]; [by apply elem_of_nil in Hp|].
  eexists. split; [reflexivity|done].
Qed.

Lemma missing_without_default_is_reported_witness :
  exists still_missing,
    substitute_path company_items (<["project_id" := PyInt 456]> ∅)
      (<["default_company_id" := PyInt 7]> ∅)
    = (None, Some ("Missing required parameters: " +:+ Str.join ", " still_missing))
    /\ "id" ∈ still_missing.
Proof.
  apply (missing_without_default_is_reported company_items
           (<["project_id" := PyInt 456]> ∅) (<["default_company_id" := PyInt 7]> ∅)
           (mkPathParameter "id" "{{id}}" 51)).
  - vm_compute. do 2 apply list_elem_of_further. apply list_elem_of_here.
  - vm_compute. reflexivity.
  - vm_compute. reflexivity.
Defined.

(** X11: a value in [kwargs] wins over the client default under the same
    key: for a key that [kwargs] has, other than the two default keys, the
    entry of [client_defaults] does not change the result. *)
Theorem kwargs_win_over_defaults (op : Operation)
    (kwargs client_defaults : gmap string pyval) (key : string) (v w : pyval) :
  kwargs !! key = Some v ->
  key <> "default_company_id" ->
  key <> "default_project_id" ->
  substitute_path op kwargs (<[key := w]> client_defaults)
  = substitute_path op kwargs client_defaults.
Proof.
  intros Hk Hc Hp. unfold substitute_path.
  assert (Hu : kwargs ∪ <[key := w]> client_defaults = kwargs ∪ client_defaults).
  { apply map_eq. intros i. rewrite !lookup_union.
    destruct (decide (key = i)) as [<-|Hne].
    - rewrite Hk, lookup_insert_eq. by destruct (client_defaults !! key).
    - by rewrite lookup_insert_ne. }
  rewrite Hu.
  destruct (substitute_parameters _ _ _) as [path0 missing].
  assert (Hf : forall st nm,
            default_step (<[key := w]> client_defaults) st nm
            = default_step client_defaults st nm).
  { intros st nm. unfold default_step, default_for.
    repeat case_decide; rewrite ?lookup_insert_ne by done; done. }
  rewrite (fold_left_ext _ _ _ Hf). done.
Qed.

Lemma kwargs_win_over_defaults_witness :
  substitute_path company_items
    (<["company_id" := PyInt 1]> (<["project_id" := PyInt 2]> (<["id" := PyInt 3]> ∅)))
    (<["company_id" := PyInt 99]> ∅)
  = substitute_path company_items
      (<["company_id" := PyInt 1]> (<["project_id" := PyInt 2]> (<["id" := PyInt 3]> ∅)))
      ∅.
Proof.
  apply (kwargs_win_over_defaults company_items _ ∅ "company_id" (PyInt 1) (PyInt 99)).
  - vm_compute. reflexivity.
  - discriminate.
  - discriminate.
Defined.

(** ** Cleaned names *)

Lemma clean_name_not_digit s : starts_with_digit (_clean_name s) = false.
Proof.
  unfold _clean_name. destruct (starts_with_digit s) eqn:E; [|done].
  reflexivity.
Qed.

(** X12: a cleaned name never begins with a digit, cleaning a cleaned name
    changes nothing, and two names are cleaned to the same name exactly when
    they are equal or one begins with a digit and the other is that name
    with [param_] in front. *)
Theorem clean_name_collisions (s s' : string) :
  starts_with_digit (_clean_name s) = false
  /\ _clean_name (_clean_name s) = _clean_name s
  /\ (_clean_name s = _clean_name s'
      <-> s = s'
          \/ (starts_with_digit s = true /\ s' = "param_" +:+ s)
          \/ (starts_with_digit s' = true /\ s = "param_" +:+ s')).
Proof.
  split; [apply clean_name_not_digit|]. split.
  - unfold _clean_name at 1. by rewrite clean_name_not_digit.
  - unfold _clean_name.
    destruct (starts_with_digit s) eqn:E, (starts_with_digit s') eqn:E'.
    + split.
      * intros H. left. by apply (inj (String.app "param_")) in H.
      * intros [->|[[_ ->]|[_ ->]]]; [done|discriminate E'|discriminate E].
    + split.
      * intros H. right. left. by split.
      * intros [->|[[_ ->]|[H _]]]; [congruence|done|discriminate H].
    + split.
      * intros H. right. right. by split.
      * intros [->|[[H _]|[_ ->]]]; [congruence|discriminate H|done].
    + split.
      * intros H. by left.
      * intros [->|[[H _]|[H _]]]; [done|discriminate H|discriminate H].
Qed.

(** ** Extraction of operations: which entries give an operation *)

(** X13: the extracted operations are those of the entries whose method, in
    upper case, is one of GET, POST, PUT, PATCH and DELETE, one operation
    per such entry and in document order; every other entry is skipped, and
    the method of an extracted operation is one of the five. *)
Theorem operations_are_the_allowed_entries (oas : OpenAPI) (op : Operation) :
  (op ∈ iter_operations oas
   <-> exists path methods method oo,
         (path, methods) ∈ oas_paths oas
         /\ (method, oo) ∈ methods
         /\ Str.upper method ∈ HTTP_METHODS
         /\ op = make_operation (oas_components_parameters oas) path method oo)
  /\ (op ∈ iter_operations oas -> op_method op ∈ HTTP_METHODS)
  /\ length (iter_operations oas)
     = length (filter (fun mo : string * OperationObject => Str.upper mo.1 ∈ HTTP_METHODS)
                      (flat_map snd (oas_paths oas))).
Proof.
  split; [split|split].
  - apply iter_operations_elem.
  - intros (path & methods & method & oo & Hp & Hm & Hu & ->).
    by apply (iter_operations_intro oas path methods).
  - intros H. apply iter_operations_elem in H as (path & methods & method & oo & _ & _ & Hu & ->).
    done.
  - unfold iter_operations.
    induction (oas_paths oas) as [|[path methods] entries IH]; [done|].
    simpl. rewrite length_app, filter_app, length_app, IH. f_equal.
    unfold operations_of_path. simpl.
    induction methods as [|[method oo] methods IHm]; [done|].
    simpl. rewrite filter_cons. simpl.
    case_bool_decide; rewrite ?decide_True, ?decide_False by done; simpl; by rewrite IHm.
Qed.

Lemma map_parameters_lookup ps : forall fields fs k,
  map_parameters ps fields = Some fs ->
  fs !! k = match last (filter (fun p => field_key p = Some k) ps) with
            | Some p => Some (parameter_field p)
            | None => fields !! k
            end.
Proof.
  induction ps as [|p ps IH]; intros fields fs k H; simpl in H.
  - by injection H as <-.
  - destruct (pd_name p) as [nm|] eqn:Hnm; [|done].
    assert (Hkey : field_key p = Some (_clean_name nm))
      by (unfold field_key; by rewrite Hnm).
    rewrite (IH _ _ k H), filter_cons.
    case_decide as Hk; rewrite Hkey in Hk.
    + injection Hk as <-. rewrite last_cons.
      destruct (last _); [done|]. by rewrite lookup_insert_eq.
    + destruct (last _); [done|]. rewrite lookup_insert_ne; [done|]. congruence.
Qed.

Lemma map_parameters_fails ps : forall fields,
  map_parameters ps fields = None <-> exists p, p ∈ ps /\ pd_name p = None.
Proof.
  induction ps as [|p ps IH]; intros fields; simpl.
  - split; [done|]. intros (p & Hp & _). by apply elem_of_nil in Hp.
  - destruct (pd_name p) as [nm|] eqn:Hnm.
    + rewrite IH. split.
      * intros (q & Hq & Hn). exists q. split; [by apply list_elem_of_further|done].
      * intros (q & Hq & Hn). apply elem_of_cons in Hq as [->|Hq]; [congruence|].
        by exists q.
    + split; [|done]. intros _. exists p. split; [apply list_elem_of_here|done].
Qed.

(** X14: an operation with a parameter that has no name gets no input
    model: [_clean_name] raises on [None].  So a model is only built for an
    operation whose parameters all have a name; and none is built for an
    operation extracted from a parameter whose reference names no shared
    parameter. *)
Theorem input_model_needs_names (op : Operation) :
  (forall p, p ∈ parameters op -> pd_name p = None ->
             _build_input_model_from_operation op = None)
  /\ (forall m, _build_input_model_from_operation op = Some m ->
                forall p, p ∈ parameters op -> is_Some (pd_name p))
  /\ forall gp path method oo p ref,
       op = make_operation gp path method oo ->
       p ∈ declared_parameters oo ->
       po_ref p = Some ref ->
       gp !! Str.last_segment "/" ref = None ->
       _build_input_model_from_operation op = None.
Proof.
  assert (E : forall p, p ∈ parameters op -> pd_name p = None ->
                        _build_input_model_from_operation op = None).
  { intros p Hp Hn. unfold _build_input_model_from_operation.
    assert (Hf : map_parameters (parameters op) ∅ = None)
      by (apply map_parameters_fails; by exists p).
    by rewrite Hf. }
  split; [exact E|]. split.
  - intros m Hm p Hp. destruct (pd_name p) eqn:Hn; [by eexists|].
    rewrite (E p Hp Hn) in Hm. discriminate Hm.
  - intros gp path method oo p ref -> Hp Href Hgp.
    apply (E (make_descriptor gp p)).
    + simpl. apply list_elem_of_fmap. by exists p.
    + unfold make_descriptor, resolve_parameter. by rewrite Href, Hgp.
Qed.

(** X15: the fields of an input model.  [include_all], when the operation
    is paginated, [extra_headers] and, when the operation has a request
    body, [body] are the three fixed fields, in this order of precedence;
    under any other name the field is that of the last parameter with this
    cleaned name, required with the plain type when the parameter is
    required and optional with default [None] when it is not; and there is
    no other field. *)
Theorem input_model_fields (op : Operation) (m : InputModel) (k : string) :
  _build_input_model_from_operation op = Some m ->
  model_name m = _clean_name (op_name op) +:+ "_Input"
  /\ model_fields m !! k
     = (if decide (k = "include_all" /\ has_pagination op = true)
        then Some include_all_field
        else if decide (k = "extra_headers") then Some extra_headers_field
        else if decide (k = "body" /\ request_body_schema op <> None)
        then Some body_field
        else parameter_field
               <$> last (filter (fun p => field_key p = Some k) (parameters op)))
  /\ forall p, field_default_value (parameter_field p)
               = (if pd_required p then Ellipsis else Default PyNone)
               /\ field_type (parameter_field p)
                  = (if pd_required p then type_of_tag (schema_type (pd_schema p))
                     else TOptional (type_of_tag (schema_type (pd_schema p)))).
Proof.
  unfold _build_input_model_from_operation.
  destruct (map_parameters (parameters op) ∅) as [fields|] eqn:Hf; [|done].
  intros [= <-]. simpl. split; [done|]. split; [|done].
  pose proof (map_parameters_lookup _ _ _ k Hf) as Hk. rewrite lookup_empty in Hk.
  assert (Hlast : fields !! k
            = parameter_field
                <$> last (filter (fun p => field_key p = Some k) (parameters op))).
  { rewrite Hk. by destruct (last _). }
  clear Hk.
  destruct (has_pagination op) eqn:Hp.
  - destruct (decide (k = "include_all")) as [->|Hia].
    + rewrite decide_True by done. by rewrite lookup_insert_eq.
    + rewrite decide_False by tauto. rewrite lookup_insert_ne by done.
      destruct (decide (k = "extra_headers")) as [->|Heh];
        [by rewrite lookup_insert_eq|]. rewrite lookup_insert_ne by done.
      destruct (request_body_schema op) as [sch|].
      * destruct (decide (k = "body")) as [->|Hb].
        -- rewrite decide_True by done. by rewrite lookup_insert_eq.
        -- rewrite decide_False by tauto. by rewrite lookup_insert_ne.
      * rewrite decide_False by tauto. done.
  - rewrite decide_False by (intros [_ ?]; done).
    destruct (decide (k = "extra_headers")) as [->|Heh];
      [by rewrite lookup_insert_eq|]. rewrite lookup_insert_ne by done.
    destruct (request_body_schema op) as [sch|].
    + destruct (decide (k = "body")) as [->|Hb].
      * rewrite decide_True by done. by rewrite lookup_insert_eq.
      * rewrite decide_False by tauto. by rewrite lookup_insert_ne.
    + rewrite decide_False by tauto. done.
Qed.

Lemma input_model_fields_witness :
  model_fields paged_model !! "page"
  = parameter_field
      <$> last (filter (fun p => field_key p = Some "page") (parameters paged_operation)).
Proof.
  destruct (input_model_fields paged_operation paged_model "page") as (_ & H & _).
  - vm_compute. reflexivity.
  - rewrite H. reflexivity.
Defined.

Lemma input_model_needs_names_witness :
  _build_input_model_from_operation
    (make_operation ∅ "/Plant/{plantId}" "get" dangling_reference) = None.
Proof.
  apply (proj2 (proj2 (input_model_needs_names
                  (make_operation ∅ "/Plant/{plantId}" "get" dangling_reference)))
           ∅ "/Plant/{plantId}" "get" dangling_reference
           (mkParameterObject (Some "#/components/parameters/plantId")
              (Some "ignored") (Some "path") (Some true) None None)
           "#/components/parameters/plantId").
  - reflexivity.
  - vm_compute. apply list_elem_of_here.
  - reflexivity.
  - vm_compute. reflexivity.
Defined.

(** X16: [_schema_to_field] gives an [Optional] annotation with default
    [None] exactly when the field is not required, and a plain annotation
    with no default when it is; the items of an array are optional in both
    cases, also when the schema says nothing about them. *)
Theorem schema_field_optional_iff_not_required (schema : JsonSchema) (required : bool) :
  is_optional (_schema_to_field schema required).1.1 = negb required
  /\ (_schema_to_field schema required).1.2
     = (if required then Ellipsis else Default PyNone)
  /\ (_schema_to_field schema false).1.1
     = AOptional (_schema_to_field schema true).1.1
  /\ (js_type_of schema = Some "array" ->
      exists item, (_schema_to_field schema true).1.1 = AList (AOptional item)).
Proof.
  destruct schema as [t items description].
  assert (Hplain : forall r,
            is_optional (_schema_to_field (mkJsonSchema t items description) r).1.1
            = negb r).
  { intros r. simpl. destruct r; [|done].
    repeat (match goal with |- context [match ?x with _ => _ end] => destruct x end;
            try done). }
  split; [apply Hplain|]. split; [by destruct required|]. split; [done|].
  simpl. intros [= ->]. simpl.
  destruct items as [i|]; [|by eexists].
  destruct i as [t' items' d']. simpl. by eexists.
Qed.

Lemma schema_field_optional_iff_not_required_witness :
  exists item,
    (_schema_to_field (mkJsonSchema (Some "array")
                         (Some (mkJsonSchema (Some "integer") None None)) None) true).1.1
    = AList (AOptional item).
Proof.
  apply (schema_field_optional_iff_not_required
           (mkJsonSchema (Some "array") (Some (mkJsonSchema (Some "integer") None None)) None)
           true).
  reflexivity.
Defined.

Lemma register_agrees ts op : dictionaries_agree ts -> dictionaries_agree (register ts op).
Proof.
  intros H name. unfold register. simpl.
  destruct (decide (_clean_name (op_name op) = name)) as [<-|Hne].
  - by rewrite !lookup_insert_eq.
  - rewrite !lookup_insert_ne by done. apply H.
Qed.

Lemma register_all_agree ops : forall ts,
  dictionaries_agree ts -> dictionaries_agree (fold_left register ops ts).
Proof.
  induction ops as [|op ops IH]; intros ts H; simpl; [done|].
  apply IH. by apply register_agrees.
Qed.

Lemma register_all_from ops : forall ts name op,
  _operations_by_name (fold_left register ops ts) !! name = Some op ->
  op ∈ ops \/ _operations_by_name ts !! name = Some op.
Proof.
  induction ops as [|o ops IH]; intros ts name op H; simpl in H; [by right|].
  apply IH in H as [H|H]; [left; by apply list_elem_of_further|].
  unfold register in H. simpl in H.
  destruct (decide (_clean_name (op_name o) = name)) as [<-|Hne].
  - rewrite lookup_insert_eq in H. injection H as <-. left. apply list_elem_of_here.
  - rewrite lookup_insert_ne in H by done. by right.
Qed.

(** X17: in a toolset as [__init__] leaves it, the registry and the
    operations have the same names; the registry describes each name by the
    description of the operation stored under it (or by its method and path
    when that is empty); and each operation is stored under its cleaned
    name, which does not begin with a digit. *)
Theorem registry_describes_the_operations (document : Type)
    (load : exc document) (extract : document -> exc (list Operation)) (name : string) :
  let ts := AvathonToolset_init document load extract in
  (is_Some (_registry ts !! name) <-> is_Some (_operations_by_name ts !! name))
  /\ forall op,
       get_operation ts name = Some op ->
       _registry ts !! name = Some (describe op)
       /\ name = _clean_name (op_name op)
       /\ starts_with_digit name = false
       /\ exists d ops, load = Return d /\ extract d = Return ops /\ op ∈ ops.
Proof.
  intros ts.
  assert (Hagree : dictionaries_agree ts).
  { subst ts. unfold AvathonToolset_init, _load_operations, load_body.
    destruct load as [d|e]; [|by intros n].
    destruct (extract d) as [ops|e]; [|by intros n].
    apply register_all_agree. by intros n. }
  split.
  - specialize (Hagree name). destruct (_operations_by_name ts !! name) as [op|].
    + destruct Hagree as [-> _]. split; eauto.
    + rewrite Hagree. split; intros [? ?]; done.
  - intros op Hop. unfold get_operation in Hop.
    specialize (Hagree name). rewrite Hop in Hagree. destruct Hagree as [Hr Hn].
    split; [done|]. split; [done|]. split; [rewrite Hn; apply clean_name_not_digit|].
    subst ts. unfold AvathonToolset_init, _load_operations, load_body in Hop.
    destruct load as [d|e]; [|done].
    destruct (extract d) as [ops|e] eqn:E; [|done].
    apply register_all_from in Hop as [Hop|Hop]; [|done].
    by exists d, ops.
Qed.

Lemma registry_describes_the_operations_witness :
  _registry (load_openapi plant_entry) !! "plant" = Some "Plant details".
Proof.
  destruct (registry_describes_the_operations OpenAPI (Return plant_entry)
              (fun d => Return (iter_operations d)) "plant") as [_ H].
  destruct (H (make_operation (oas_components_parameters plant_entry)
                 "/Plant/{plantId}" "get"
                 (mkOperationObject (Some "plant") (Some ["Plants"]) None
                    (Some " Plant details ")
                    (Some [ mkParameterObject (Some "#/components/parameters/plantId")
                              None None None None None;
                            mkParameterObject None (Some "page") (Some "query") None
                              (Some (mkSchema (Some "integer"))) None ])
                    None))) as [Hd _].
  - vm_compute. reflexivity.
  - exact Hd.
Defined.

Lemma dict_set_elem {V : Type} (k : string) (v : V) items kv :
  kv ∈ dict_set k v items -> kv = (k, v) \/ kv ∈ items.
Proof.
  induction items as [|[k' v'] items IH]; simpl.
  - intros H. apply list_elem_of_singleton in H. by left.
  - case_decide as Hd.
    + intros H. apply elem_of_cons in H as [H|H]; [by left|].
      right. by apply list_elem_of_further.
    + intros H. apply elem_of_cons in H as [H|H].
      * right. rewrite H. apply list_elem_of_here.
      * apply IH in H as [H|H]; [by left|]. right. by apply list_elem_of_further.
Qed.

Lemma dict_set_length {V : Type} (k : string) (v : V) items :
  length (dict_set k v items) <= S (length items).
Proof.
  induction items as [|[k' v'] items IH]; simpl; [lia|].
  case_decide; simpl; lia.
Qed.

Lemma dict_set_fresh {V : Type} (k : string) (v : V) items :
  k ∉ map fst items -> dict_set k v items = items ++ [(k, v)].
Proof.
  induction items as [|[k' v'] items IH]; simpl; [done|].
  intros H. apply not_elem_of_cons in H as [Hne H].
  rewrite decide_False by done. by rewrite IH.
Qed.

Lemma get_tools_loop_sound ts search categories methods limit items : forall results,
  (Z.of_nat (length results) <= Z.max limit 0)%Z ->
  let out := get_tools_loop ts search categories methods limit items results in
  (Z.of_nat (length out) <= Z.max limit 0)%Z
  /\ forall kv, kv ∈ out ->
       kv ∈ results
       \/ (kv ∈ items
           /\ passes_filters ts search categories methods kv.1 kv.2 = true).
Proof.
  induction items as [|[name desc] items IH]; intros results Hlen; simpl.
  - split; [done|]. intros kv H. by left.
  - destruct (limit <=? Z.of_nat (length results))%Z eqn:Hl.
    + split; [done|]. intros kv H. by left.
    + apply Z.leb_gt in Hl.
      destruct (passes_filters ts search categories methods name desc) eqn:Hp.
      * destruct (IH (dict_set name desc results)) as [Hlen' Hin].
        { pose proof (dict_set_length name desc results). lia. }
        split; [done|]. intros kv H. apply Hin in H as [H|[H Hf]].
        -- apply dict_set_elem in H as [->|H]; [|by left].
           right. split; [apply list_elem_of_here|done].
        -- right. split; [by apply list_elem_of_further|done].
      * destruct (IH results Hlen) as [Hlen' Hin].
        split; [done|]. intros kv H. apply Hin in H as [H|[H Hf]]; [by left|].
        right. split; [by apply list_elem_of_further|done].
Qed.

(** X18: [get_tools] returns at most [limit] tools (none for a limit that
    is not positive); each of them is an item of the registry that passes
    the three filters: when an operation is stored under its name, the
    method of this operation is, in upper case, one of the requested methods
    if there are any. *)
Theorem get_tools_is_bounded_and_filtered (ts : Toolset) (items : list (string * string))
    (search_terms categories methods : list string) (limit : Z)
    (tool_name description : string) :
  (Z.of_nat (length (get_tools ts items search_terms categories methods limit))
   <= Z.max limit 0)%Z
  /\ ((tool_name, description)
        ∈ get_tools ts items search_terms categories methods limit ->
      (tool_name, description) ∈ items
      /\ passes_filters ts search_terms categories methods tool_name description = true
      /\ forall op, methods <> [] ->
           get_operation ts tool_name = Some op ->
           op_method op ∈ map Str.upper methods).
Proof.
  destruct (get_tools_loop_sound ts search_terms categories methods limit items [])
    as [Hlen Hin]; [simpl; lia|].
  split; [exact Hlen|].
  intros H. apply Hin in H as [H|[H Hf]]; [by apply elem_of_nil in H|].
  simpl in Hf. split; [done|]. split; [done|].
  intros op Hm Hop. unfold passes_filters in Hf.
  apply andb_prop in Hf as [Hf _]. apply andb_prop in Hf as [_ Hf].
  destruct methods as [|m methods]; [done|].
  unfold matches_methods in Hf. unfold get_operation in Hop. rewrite Hop in Hf.
  by apply bool_decide_eq_true in Hf.
Qed.

Lemma get_tools_loop_all ts limit : forall items results,
  NoDup (map fst (results ++ items)) ->
  get_tools_loop ts [] [] [] limit items results
  = results ++ take (Z.to_nat limit - length results) items.
Proof.
  induction items as [|[name desc] items IH]; intros results Hnd; simpl.
  - by rewrite take_nil, app_nil_r.
  - destruct (limit <=? Z.of_nat (length results))%Z eqn:Hl.
    + apply Z.leb_le in Hl.
      replace (Z.to_nat limit - length results) with 0 by lia.
      by rewrite app_nil_r.
    + apply Z.leb_gt in Hl. unfold passes_filters. simpl.
      assert (Hfresh : name ∉ map fst results).
      { rewrite map_app in Hnd. apply NoDup_app in Hnd as (_ & Hd & _).
        intros Hin. apply (Hd name Hin). apply list_elem_of_here. }
      rewrite dict_set_fresh by done.
      rewrite IH by (by rewrite <- app_assoc).
      rewrite length_app. simpl. rewrite <- app_assoc. simpl.
      replace (Z.to_nat limit - length results)
        with (S (Z.to_nat limit - (length results + 1))) by lia.
      done.
Qed.

(** X19: without filters, [get_tools] returns the first [limit] items of
    the registry, in the order of the registry. *)
Theorem get_tools_without_filters (ts : Toolset) (items : list (string * string))
    (limit : Z) :
  NoDup (map fst items) ->
  get_tools ts items [] [] [] limit = take (Z.to_nat limit) items.
Proof.
  intros Hnd. unfold get_tools. rewrite get_tools_loop_all by done.
  simpl. by rewrite Nat.sub_0_r.
Qed.

Lemma get_tools_without_filters_witness :
  get_tools empty_toolset [("a", "first"); ("b", "second"); ("c", "third")] [] [] [] 2
  = [("a", "first"); ("b", "second")].
Proof.
  rewrite (get_tools_without_filters empty_toolset
             [("a", "first"); ("b", "second"); ("c", "third")] 2).
  - reflexivity.
  - apply (bool_decide_unpack (NoDup (map fst
             [("a", "first"); ("b", "second"); ("c", "third")]))).
    vm_compute. exact I.
Defined.

Lemma get_tools_is_bounded_and_filtered_witness :
  ("plant", "Plant details") ∈ [("plant", "Plant details")]
  /\ passes_filters (load_openapi plant_entry) ["PLANT"] [] ["get"] "plant" "Plant details"
     = true
  /\ forall op, ["get"] <> [] ->
       get_operation (load_openapi plant_entry) "plant" = Some op ->
       op_method op ∈ map Str.upper ["get"].
Proof.
  apply (get_tools_is_bounded_and_filtered (load_openapi plant_entry)
           [("plant", "Plant details")] ["PLANT"] [] ["get"] 10 "plant" "Plant details").
  vm_compute. apply list_elem_of_here.
Defined.

(** X20: in a toolset as [__init__] leaves it, [get_tool_schema] answers
    with a schema exactly for the names of the registry and with the error
    for every other name; the description of the schema is the one the
    registry has for the name, and the schema has one parameter entry per
    parameter of the operation, with the type [string] where the parameter
    has none. *)
Theorem tool_schema_matches_registry (document : Type)
    (load : exc document) (extract : document -> exc (list Operation)) (name : string) :
  let ts := AvathonToolset_init document load extract in
  match get_tool_schema ts name with
  | inl e => _registry ts !! name = None /\ e = "Tool '" +:+ name +:+ "' not found"
  | inr sch =>
      _registry ts !! name = Some (sch_description sch)
      /\ sch_name sch = name
      /\ exists op, get_operation ts name = Some op
           /\ length (sch_parameters sch) = length (parameters op)
           /\ (forall i p, parameters op !! i = Some p ->
                 exists q, sch_parameters sch !! i = Some q
                   /\ ps_name q = pd_name p
                   /\ ps_type q = match schema_type (pd_schema p) with
                                  | Some t => t
                                  | None => "string"
                                  end)
           /\ (sch_has_request_body sch = true <-> request_body_schema op <> None)
  end.
Proof.
  intros ts.
  assert (Hagree : dictionaries_agree ts).
  { subst ts. unfold AvathonToolset_init, _load_operations, load_body.
    destruct load as [d|e]; [|by intros n].
    destruct (extract d) as [ops|e]; [|by intros n].
    apply register_all_agree. by intros n. }
  specialize (Hagree name). unfold get_tool_schema, get_operation.
  destruct (_operations_by_name ts !! name) as [op|]; [|done].
  destruct Hagree as [Hr _]. simpl. split; [done|]. split; [done|].
  exists op. split; [done|]. split; [by rewrite length_map|]. split.
  - intros i p Hp. exists (parameter_schema p). split; [|done].
    by rewrite list_lookup_fmap, Hp.
  - destruct (request_body_schema op); split; done.
Qed.

(** X21: [tool_func] sends at most one request, and only after the path
    was substituted completely: the request has the method of the operation,
    the path that [substitute_parameters] returns, in which no pattern
    matches any more, and as JSON body the [body] field of the input. *)
Theorem request_only_for_resolved_path (gc : exc (Request -> exc Response))
    (op : Operation) (input_data : ToolInput) (o : outcome) (reqs : list Request) :
  tool_func gc op input_data = (o, reqs) ->
  reqs = []
  \/ exists client req,
       gc = Return client
       /\ reqs = [req]
       /\ req_method req = op_method op
       /\ substitute_parameters (path_template op) (model_dump input_data) false
          = (req_path req, [])
       /\ extract_parameters (req_path req) = []
       /\ req_json_body req = model_dump input_data !! "body".
Proof.
  unfold tool_func. destruct gc as [client|e]; [|intros [= _ <-]; by left].
  destruct (substitute_parameters _ _ _) as [path missing].
  destruct missing; [|intros [= _ <-]; by left].
  destruct (validate_path path) as [[] remaining] eqn:Hv; [|intros [= _ <-]; by left].
  destruct (route_parameters _ _ _) as [[q h]|e]; [|intros [= _ <-]; by left].
  assert (E : extract_parameters path = []).
  { unfold validate_path in Hv. by destruct (extract_parameters path). }
  match goal with |- context [client ?r] => destruct (client r) end;
    intros [= _ <-]; right; eexists _, _; repeat split; done.
Qed.

Lemma request_only_for_resolved_path_witness :
  [plant_request] = []
  \/ exists client req,
       Return (always 200) = Return client
       /\ [plant_request] = [req]
       /\ req_method req = op_method plant_operation
       /\ substitute_parameters (path_template plant_operation) (model_dump plant_input) false
          = (req_path req, [])
       /\ extract_parameters (req_path req) = []
       /\ req_json_body req = model_dump plant_input !! "body".
Proof.
  apply (request_only_for_resolved_path (Return (always 200)) plant_operation plant_input
           (Success (PyDict [("data", PyStr ""); ("status_code", PyInt 200)]))).
  vm_compute. reflexivity.
Defined.

(** X22: [tool_func] returns a result only for a response with a status
    from 200 to 299: the decoded body, or the text and the status when the
    body does not decode.  Every other end is a [ModelRetry]. *)
Theorem success_only_for_2xx (gc : exc (Request -> exc Response))
    (op : Operation) (input_data : ToolInput) (v : pyval) (reqs : list Request) :
  tool_func gc op input_data = (Success v, reqs) ->
  exists client req response,
    gc = Return client
    /\ reqs = [req]
    /\ client req = Return response
    /\ (200 <= status_code response <= 299)%Z
    /\ v = match resp_json response with
           | Some body => body
           | None => PyDict [("data", PyStr (resp_text response));
                             ("status_code", PyInt (status_code response))]
           end.
Proof.
  unfold tool_func. destruct gc as [client|e]; [|done].
  destruct (substitute_parameters _ _ _) as [path missing].
  destruct missing; [|done].
  destruct (validate_path path) as [[] remaining]; [|done].
  destruct (route_parameters _ _ _) as [[q h]|e]; [|done].
  match goal with |- context [client ?r] => destruct (client r) as [response|e] eqn:E end;
    [|done].
  unfold handle_response, raises_for_status.
  destruct ((200 <=? status_code response)%Z && (status_code response <=? 299)%Z) eqn:Hs;
    simpl.
  - apply andb_prop in Hs as [H1 H2]. apply Z.leb_le in H1, H2.
    intros [= Hv <-]. eexists client, _, response.
    split; [done|]. split; [done|]. split; [exact E|]. split; [lia|].
    by destruct (resp_json response) as [body|]; injection Hv as <-.
  - unfold classify_status. repeat (match goal with |- context [if ?b then _ else _] =>
      destruct b end); done.
Qed.

Lemma success_only_for_2xx_witness :
  exists client req response,
    Return (always 200) = Return client
    /\ [plant_request] = [req]
    /\ client req = Return response
    /\ (200 <= status_code response <= 299)%Z
    /\ PyDict [("data", PyStr ""); ("status_code", PyInt 200)]
       = match resp_json response with
         | Some body => body
         | None => PyDict [("data", PyStr (resp_text response));
                           ("status_code", PyInt (status_code response))]
         end.
Proof.
  apply (success_only_for_2xx (Return (always 200)) plant_operation plant_input).
  vm_compute. reflexivity.
Defined.

(** X23: the class of the failure for a response outside 200 to 299: 403 is
    the authorization failure and 404 the not-found failure, both naming the
    operation; 400 is the invalid request; 500 and above is the unavailable
    service, with the status in the message; every other status, 401 apart,
    is the unclassified error. *)
Theorem failure_class_by_status (client : Request -> exc Response) (op : Operation)
    (input_data : ToolInput) (o : outcome) (req : Request) (reqs : list Request)
    (response : Response) :
  tool_func (Return client) op input_data = (o, req :: reqs) ->
  client req = Return response ->
  ~ (200 <= status_code response <= 299)%Z ->
  let s := status_code response in
  (s = 403%Z ->
   o = ModelRetry AuthorizationFailure
         ("Access denied (403). You may not have permission for this resource in "
            +:+ op_name op +:+ "."))
  /\ (s = 404%Z ->
      o = ModelRetry NotFound
            ("Resource not found (404). Please verify the parameters are correct for "
               +:+ op_name op +:+ "."))
  /\ (s = 400%Z ->
      o = ModelRetry InvalidRequest
            ("Invalid request (400): " +:+ bad_request_message response
               +:+ ". Please check your parameters for " +:+ op_name op +:+ "."))
  /\ ((500 <= s)%Z ->
      o = ModelRetry RemoteUnavailable
            ("Avathon server error (" +:+ str_of_Z s
               +:+ "). The service may be temporarily unavailable."))
  /\ ((s < 500)%Z -> s <> 400%Z -> s <> 401%Z -> s <> 403%Z -> s <> 404%Z ->
      o = ModelRetry UnclassifiedTransportError
            ("API error (" +:+ str_of_Z s +:+ ") for " +:+ op_name op
               +:+ ". Please check your request.")).
Proof.
  intros Ht Hc Hs s.
  destruct (tool_func_dispatched _ _ _ _ _ _ Ht) as [_ Ho]. rewrite Hc in Ho.
  assert (Hr : raises_for_status response = true).
  { unfold raises_for_status. apply negb_true_iff. apply not_true_is_false.
    intros H. apply andb_prop in H as [H1 H2]. apply Z.leb_le in H1, H2. lia. }
  unfold handle_response in Ho. rewrite Hr in Ho. subst o. unfold classify_status.
  fold s. repeat split.
  - intros ->. reflexivity.
  - intros ->. reflexivity.
  - intros ->. reflexivity.
  - intros H.
    destruct (s =? 401)%Z eqn:E1; [apply Z.eqb_eq in E1; lia|].
    destruct (s =? 403)%Z eqn:E2; [apply Z.eqb_eq in E2; lia|].
    destruct (s =? 404)%Z eqn:E3; [apply Z.eqb_eq in E3; lia|].
    destruct (s =? 400)%Z eqn:E4; [apply Z.eqb_eq in E4; lia|].
    destruct (500 <=? s)%Z eqn:E5; [done|]. apply Z.leb_gt in E5. lia.
  - intros H5 H400 H401 H403 H404.
    destruct (s =? 401)%Z eqn:E1; [apply Z.eqb_eq in E1; lia|].
    destruct (s =? 403)%Z eqn:E2; [apply Z.eqb_eq in E2; lia|].
    destruct (s =? 404)%Z eqn:E3; [apply Z.eqb_eq in E3; lia|].
    destruct (s =? 400)%Z eqn:E4; [apply Z.eqb_eq in E4; lia|].
    destruct (500 <=? s)%Z eqn:E5; [apply Z.leb_le in E5; lia|]. done.
Qed.

Lemma failure_class_by_status_witness :
  (tool_func (Return (always 503)) plant_operation plant_input).1
  = ModelRetry RemoteUnavailable
      "Avathon server error (503). The service may be temporarily unavailable.".
Proof.
  destruct (failure_class_by_status (always 503) plant_operation plant_input
              (tool_func (Return (always 503)) plant_operation plant_input).1
              plant_request [] (mkResponse 503 None "")) as (_ & _ & _ & H & _).
  - vm_compute. reflexivity.
  - reflexivity.
  - simpl. lia.
  - rewrite H by (simpl; lia). vm_compute. reflexivity.
Defined.

(** ** Invocation: where the parameters go *)

(** The body of the loop, by cases on the value and on the location. *)
Lemma route_parameter_cases kwargs st pd :
  route_parameter kwargs st pd
  = match pd_name pd with
    | None => Raise TypeError_none
    | Some nm =>
        match sent_value kwargs nm with
        | None => Return st
        | Some v =>
            if decide (pd_in pd = Some "query") then Return (<[nm := v]> st.1, st.2)
            else if decide (pd_in pd = Some "header")
                 then Return (st.1, <[nm := py_str v]> st.2)
                 else Return st
        end
    end.
Proof.
  unfold route_parameter, sent_value. destruct (pd_name pd) as [nm|]; [|done].
  assert (G : forall v : pyval,
    match pd_in pd with
    | Some "query" => Return (<[nm := v]> st.1, st.2)
    | Some "header" => Return (st.1, <[nm := py_str v]> st.2)
    | _ => Return st
    end
    = if decide (pd_in pd = Some "query") then Return (<[nm := v]> st.1, st.2)
      else if decide (pd_in pd = Some "header")
           then Return (st.1, <[nm := py_str v]> st.2)
           else Return st).
  { intros v. destruct (pd_in pd) as [loc|]; [|done].
    destruct (decide (Some loc = Some "query")) as [[= ->]|Hq]; [done|].
    destruct (decide (Some loc = Some "header")) as [[= ->]|Hh]; [done|].
    repeat (match goal with
            | |- context [match ?x with _ => _ end] => is_var x; destruct x
            end; try done). }
  destruct (kwargs !! _clean_name nm) as [[]|]; try done; apply G.
Qed.

Lemma route_parameters_lookup kwargs ps : forall st st',
  route_parameters kwargs ps st = Return st' ->
  (forall k,
     st'.1 !! k
     = match (if existsb (fun pd => bool_decide (pd_name pd = Some k
                                                  /\ pd_in pd = Some "query")) ps
              then sent_value kwargs k else None) with
       | Some v => Some v
       | None => st.1 !! k
       end)
  /\ (forall k,
        st'.2 !! k
        = match (if existsb (fun pd => bool_decide (pd_name pd = Some k
                                                     /\ pd_in pd = Some "header")) ps
                 then sent_value kwargs k else None) with
          | Some v => Some (py_str v)
          | None => st.2 !! k
          end).
Proof.
  induction ps as [|pd ps IH]; intros st st' H; simpl in H.
  - injection H as <-. split; intros k; done.
  - destruct (route_parameter kwargs st pd) as [st1|e] eqn:E; [|done].
    destruct (IH _ _ H) as [Hq Hh]. clear IH H.
    rewrite route_parameter_cases in E.
    destruct (pd_name pd) as [nm|] eqn:Hnm; [|done].
    split; intros k; [rewrite Hq|rewrite Hh]; clear Hq Hh; cbn [existsb].
    + destruct (decide (nm = k /\ pd_in pd = Some "query")) as [[-> Hloc]|Hno].
      * rewrite bool_decide_eq_true_2 by (by rewrite Hloc). simpl.
        destruct (sent_value kwargs k) as [v|].
        -- destruct (existsb _ ps); [done|].
           rewrite decide_True in E by done. injection E as <-. simpl.
           by rewrite lookup_insert_eq.
        -- injection E as <-. by destruct (existsb _ ps).
      * rewrite bool_decide_eq_false_2 by (intros [Hk ?]; rewrite Hnm in Hk; injection Hk as ->; tauto). simpl.
        assert (Hsame : st1.1 !! k = st.1 !! k).
        { destruct (sent_value kwargs nm) as [v|]; [|by injection E as <-].
          repeat case_decide; injection E as <-; simpl; try done.
          apply lookup_insert_ne. intros ->. tauto. }
        rewrite Hsame. done.
    + destruct (decide (nm = k /\ pd_in pd = Some "header")) as [[-> Hloc]|Hno].
      * rewrite bool_decide_eq_true_2 by (by rewrite Hloc). simpl.
        destruct (sent_value kwargs k) as [v|].
        -- destruct (existsb _ ps); [done|].
           rewrite decide_False in E by (rewrite Hloc; done).
           rewrite decide_True in E by done. injection E as <-. simpl.
           by rewrite lookup_insert_eq.
        -- injection E as <-. by destruct (existsb _ ps).
      * rewrite bool_decide_eq_false_2 by (intros [Hk ?]; rewrite Hnm in Hk; injection Hk as ->; tauto). simpl.
        assert (Hsame : st1.2 !! k = st.2 !! k).
        { destruct (sent_value kwargs nm) as [v|]; [|by injection E as <-].
          repeat case_decide; injection E as <-; simpl; try done.
          apply lookup_insert_ne. intros ->. tauto. }
        rewrite Hsame. done.
Qed.

Lemma tool_func_request gc op input_data o req :
  tool_func gc op input_data = (o, [req]) ->
  exists q h,
    route_parameters (parameter_kwargs input_data) (parameters op) (∅, ∅) = Return (q, h)
    /\ req_params req = none_if_empty q
    /\ req_headers req
       = none_if_empty (update_headers h (model_dump input_data !! "extra_headers")).
Proof.
  unfold tool_func, parameter_kwargs. destruct gc as [client|e]; [|done].
  destruct (substitute_parameters _ _ _) as [path missing].
  destruct missing; [|done].
  destruct (validate_path path) as [[] remaining]; [|done].
  destruct (route_parameters _ _ _) as [[q h]|e]; [|done].
  match goal with |- context [client ?r] => destruct (client r) end;
    intros [= _ <-]; by exists q, h.
Qed.

Lemma tool_func_request_body gc op input_data o req :
  tool_func gc op input_data = (o, [req]) ->
  req_json_body req = model_dump input_data !! "body" /\ req_method req = op_method op.
Proof.
  unfold tool_func. destruct gc as [client|e]; [|done].
  destruct (substitute_parameters _ _ _) as [path missing].
  destruct missing; [|done].
  destruct (validate_path path) as [[] remaining]; [|done].
  destruct (route_parameters _ _ _) as [[q h]|e]; [|done].
  match goal with |- context [client ?r] => destruct (client r) end;
    by intros [= _ <-].
Qed.

Lemma none_if_empty_lookup {V : Type} (m : gmap string V) (k : string) :
  default ∅ (none_if_empty m) !! k = m !! k.
Proof. unfold none_if_empty. case_decide as E; [by rewrite E|done]. Qed.

Lemma none_if_empty_not_empty {V : Type} (m : gmap string V) :
  none_if_empty m <> Some ∅.
Proof. unfold none_if_empty. case_decide; congruence. Qed.

Lemma update_headers_lookup (d : list (string * string)) (k : string) :
  forall h : gmap string string,
  fold_left (fun h kv => <[ fst kv := py_str (snd kv) ]> h)
            (map (fun kv => (fst kv, PyStr (snd kv))) d) h !! k
  = match (list_to_map (reverse d) : gmap string string) !! k with
    | Some v => Some v
    | None => h !! k
    end.
Proof.
  induction d as [|[a v] d IH]; intros h; simpl; [done|].
  rewrite IH, reverse_cons, list_to_map_app, lookup_union. simpl.
  destruct (list_to_map (reverse d) !! k) as [w|]; simpl.
  - by destruct (_ !! k).
  - destruct (decide (a = k)) as [->|Hne].
    + by rewrite !lookup_insert_eq.
    + by rewrite !lookup_insert_ne.
Qed.

Lemma model_dump_extra_headers (input_data : ToolInput) :
  model_dump input_data !! "extra_headers"
  = (fun h => PyDict (map (fun kv => (fst kv, PyStr (snd kv))) h))
      <$> ti_extra_headers input_data.
Proof.
  unfold model_dump. destruct (ti_extra_headers input_data) as [h|]; simpl.
  - by rewrite lookup_insert_eq.
  - destruct (ti_body input_data).
    + rewrite lookup_insert_ne by done. by rewrite lookup_omap, lookup_delete_eq.
    + by rewrite lookup_omap, lookup_delete_eq.
Qed.

Lemma sent_value_not_popped (input_data : ToolInput) (k : string) :
  k <> "body" -> k <> "extra_headers" ->
  sent_value (parameter_kwargs input_data) k = sent_value (model_dump input_data) k.
Proof.
  intros Hb He. unfold sent_value, parameter_kwargs.
  assert (Hc : _clean_name k <> "body" /\ _clean_name k <> "extra_headers").
  { unfold _clean_name. destruct (starts_with_digit k); [|done].
    split; intros H; discriminate H. }
  destruct Hc as [Hcb Hce]. by rewrite !lookup_delete_ne.
Qed.

Lemma sent_value_popped (input_data : ToolInput) (k : string) :
  k = "body" \/ k = "extra_headers" ->
  sent_value (parameter_kwargs input_data) k = None.
Proof.
  unfold sent_value, parameter_kwargs. intros [-> | ->].
  - replace (_clean_name "body") with "body" by reflexivity.
    rewrite lookup_delete_ne by done. by rewrite lookup_delete_eq.
  - replace (_clean_name "extra_headers") with "extra_headers" by reflexivity.
    by rewrite lookup_delete_eq.
Qed.

(** X24: the query string of the request that [tool_func] sends.  The two
    fields [body] and [extra_headers] are taken out of the input before the
    parameters are routed: the query never has an entry under either name,
    also when the operation declares such a query parameter and the input
    gives it a value, and the value under [body] is sent as the JSON body.
    Under every other name the query has exactly the parameters that the
    operation declares in the query and whose input field (under the
    cleaned name) has a value other than [None], with the value unchanged;
    and the client gets [None], never an empty dictionary. *)
Theorem query_holds_the_declared_parameters (gc : exc (Request -> exc Response))
    (op : Operation) (input_data : ToolInput) (o : outcome) (req : Request) :
  tool_func gc op input_data = (o, [req]) ->
  req_params req <> Some ∅
  /\ (forall k, k <> "body" -> k <> "extra_headers" ->
        default ∅ (req_params req) !! k
        = if declared_at op "query" k
          then match model_dump input_data !! _clean_name k with
               | Some PyNone | None => None
               | Some v => Some v
               end
          else None)
  /\ default ∅ (req_params req) !! "body" = None
  /\ default ∅ (req_params req) !! "extra_headers" = None
  /\ req_json_body req = model_dump input_data !! "body".
Proof.
  intros H. destruct (tool_func_request _ _ _ _ _ H) as (q & h & Hr & Hq & _).
  rewrite Hq.
  assert (Hk : forall k, q !! k = if declared_at op "query" k
                                  then sent_value (parameter_kwargs input_data) k
                                  else None).
  { intros k. destruct (route_parameters_lookup _ _ _ _ Hr) as [Hl _].
    specialize (Hl k). simpl in Hl. rewrite Hl. unfold declared_at.
    destruct (existsb _ (parameters op)); [|done]. by destruct (sent_value _ k). }
  split; [apply none_if_empty_not_empty|]. split; [|split; [|split]].
  - intros k Hb He. rewrite none_if_empty_lookup, Hk, sent_value_not_popped by done.
    done.
  - rewrite none_if_empty_lookup, Hk, sent_value_popped by (by left).
    by destruct (declared_at _ _ _).
  - rewrite none_if_empty_lookup, Hk, sent_value_popped by (by right).
    by destruct (declared_at _ _ _).
  - destruct (tool_func_request_body _ _ _ _ _ H) as [-> _]. done.
Qed.

(** X25: a header of the request that [tool_func] sends is the one given in
    [extra_headers], if there is one, and otherwise the text of the value
    of the header parameter of that name; so [extra_headers] overrides a
    declared header parameter, and no other header is set. *)
Theorem extra_headers_override_parameters (gc : exc (Request -> exc Response))
    (op : Operation) (input_data : ToolInput) (o : outcome) (req : Request) :
  tool_func gc op input_data = (o, [req]) ->
  req_headers req <> Some ∅
  /\ forall k, default ∅ (req_headers req) !! k
               = match extra_header input_data k with
                 | Some v => Some v
                 | None =>
                     if declared_at op "header" k
                     then py_str <$> sent_value (parameter_kwargs input_data) k
                     else None
                 end.
Proof.
  intros H. destruct (tool_func_request _ _ _ _ _ H) as (q & h & Hr & _ & ->).
  split; [apply none_if_empty_not_empty|]. intros k.
  rewrite none_if_empty_lookup, model_dump_extra_headers.
  destruct (route_parameters_lookup _ _ _ _ Hr) as [_ Hh].
  assert (Hk : h !! k = if declared_at op "header" k
                        then py_str <$> sent_value (parameter_kwargs input_data) k
                        else None).
  { specialize (Hh k). simpl in Hh. rewrite Hh. unfold declared_at.
    destruct (existsb _ (parameters op)); [|done].
    by destruct (sent_value _ k). }
  unfold extra_header. destruct (ti_extra_headers input_data) as [d|]; simpl.
  - rewrite update_headers_lookup. by destruct (list_to_map (reverse d) !! k).
  - done.
Qed.

Lemma query_holds_the_declared_parameters_witness :
  req_params notes_request <> Some ∅
  /\ (forall k, k <> "body" -> k <> "extra_headers" ->
        default ∅ (req_params notes_request) !! k
        = if declared_at notes_operation "query" k
          then match model_dump notes_input !! _clean_name k with
               | Some PyNone | None => None
               | Some v => Some v
               end
          else None)
  /\ default ∅ (req_params notes_request) !! "body" = None
  /\ default ∅ (req_params notes_request) !! "extra_headers" = None
  /\ req_json_body notes_request = model_dump notes_input !! "body".
Proof.
  apply (query_holds_the_declared_parameters (Return (always 200)) notes_operation
           notes_input (Success (PyDict [("data", PyStr ""); ("status_code", PyInt 200)]))).
  vm_compute. reflexivity.
Defined.

Lemma extra_headers_override_parameters_witness :
  req_headers search_request <> Some ∅
  /\ forall k, default ∅ (req_headers search_request) !! k
               = match extra_header search_input k with
                 | Some v => Some v
                 | None =>
                     if declared_at search_operation "header" k
                     then py_str <$> sent_value (parameter_kwargs search_input) k
                     else None
                 end.
Proof.
  apply (extra_headers_override_parameters (Return (always 200)) search_operation
           search_input (Success (PyDict [("data", PyStr ""); ("status_code", PyInt 200)]))).
  vm_compute. reflexivity.
Defined.

(** ** Invocation: placeholders with a digit in front *)

Lemma model_field_not_digit (op : Operation) (m : InputModel) (k : string) :
  _build_input_model_from_operation op = Some m ->
  is_Some (model_fields m !! k) ->
  starts_with_digit k = false.
Proof.
  unfold _build_input_model_from_operation.
  destruct (map_parameters (parameters op) ∅) as [fields|] eqn:Hf; [|done].
  intros [= <-]. simpl. intros Hk.
  destruct (decide (k = "include_all")) as [->|Hia]; [done|].
  destruct (decide (k = "extra_headers")) as [->|Heh]; [done|].
  destruct (decide (k = "body")) as [->|Hb]; [done|].
  assert (Hin : is_Some (fields !! k)).
  { destruct (has_pagination op); [rewrite lookup_insert_ne in Hk by done|];
      rewrite lookup_insert_ne in Hk by done;
      destruct (request_body_schema op); try done;
      by rewrite lookup_insert_ne in Hk. }
  rewrite (map_parameters_lookup _ _ _ k Hf), lookup_empty in Hin.
  destruct (last _) as [p|] eqn:Hl; [|by destruct Hin].
  apply last_Some_elem_of, list_elem_of_filter in Hl. destruct Hl as [Hp _].
  unfold field_key in Hp. destruct (pd_name p) as [nm|]; [|done].
  injection Hp as <-. apply clean_name_not_digit.
Qed.

Lemma model_dump_digit (input_data : ToolInput) (k : string) :
  starts_with_digit k = true ->
  ti_fields input_data !! k = None ->
  model_dump input_data !! k = None.
Proof.
  intros Hd Hk. unfold model_dump.
  assert (k <> "body") by (intros ->; done).
  assert (k <> "extra_headers") by (intros ->; done).
  assert (Hkw : omap not_none (delete "extra_headers" (ti_fields input_data)) !! k = None).
  { by rewrite lookup_omap, lookup_delete_ne, Hk. }
  destruct (ti_extra_headers input_data); [rewrite lookup_insert_ne by done|];
    destruct (ti_body input_data); try done; by rewrite lookup_insert_ne.
Qed.

(** X26: a placeholder whose name begins with a digit can not be filled
    through the tool.  The input model names the field [param_<name>], the
    substitution of [tool_func] looks the raw name up; so for every input
    whose fields are fields of the model built for the operation the name is
    reported missing and no request is sent. *)
Theorem digit_placeholder_is_never_filled (client : Request -> exc Response)
    (op : Operation) (m : InputModel) (input_data : ToolInput) (p : PathParameter) :
  _build_input_model_from_operation op = Some m ->
  (forall k, is_Some (ti_fields input_data !! k) -> is_Some (model_fields m !! k)) ->
  p ∈ extract_parameters (path_template op) ->
  starts_with_digit (pp_name p) = true ->
  pp_name p ∈ (substitute_parameters (path_template op) (model_dump input_data) false).2
  /\ exists message,
       tool_func (Return client) op input_data
       = (ModelRetry MissingPathParameter message, []).
Proof.
  intros Hm Hfields Hp Hd.
  assert (Hnone : model_dump input_data !! pp_name p = None).
  { apply model_dump_digit; [done|].
    destruct (ti_fields input_data !! pp_name p) eqn:E; [|done].
    assert (Hs : is_Some (model_fields m !! pp_name p)) by (apply Hfields; by rewrite E).
    apply (model_field_not_digit _ _ _ Hm) in Hs. congruence. }
  assert (Hin : pp_name p
                ∈ (substitute_parameters (path_template op) (model_dump input_data) false).2).
  { rewrite substitute_missing. apply list_elem_of_fmap. exists p. split; [done|].
    apply list_elem_of_filter. split; [|done].
    unfold unmapped, dict_get, lookup_key. by rewrite Hnone. }
  split; [done|]. unfold tool_func.
  destruct (substitute_parameters _ _ _) as [path missing]. simpl in Hin.
  destruct missing; [by apply elem_of_nil in Hin|]. by eexists.
Qed.

Lemma digit_placeholder_is_never_filled_witness :
  "2fa" ∈ (substitute_parameters "/codes/{2fa}" (model_dump code_input) false).2
  /\ exists message,
       tool_func (Return (always 200)) code_operation code_input
       = (ModelRetry MissingPathParameter message, []).
Proof.
  apply (digit_placeholder_is_never_filled (always 200) code_operation code_model
           code_input (mkPathParameter "2fa" "{2fa}" 7)).
  - vm_compute. reflexivity.
  - intros k. unfold code_input. simpl.
    destruct (decide (k = "param_2fa")) as [->|Hne].
    + intros _. vm_compute. eauto.
    + rewrite lookup_insert_ne by done. rewrite lookup_empty. by intros [? ?].
  - apply (bool_decide_unpack _). vm_compute. exact I.
  - reflexivity.
Defined.

Lemma last_char_append (s t : string) :
  t <> "" -> last_char (s +:+ t) = last_char t.
Proof.
  intros Ht. induction s as [|a s IH]; [done|].
  rewrite append_cons. simpl. rewrite IH.
  destruct (s +:+ t) eqn:E; [|done].
  destruct s; [by rewrite append_nil_l in E|by rewrite append_cons in E].
Qed.

Lemma rstrip_char_last (c : ascii) (s : string) :
  last_char (rstrip_char c s) <> Some c.
Proof.
  induction s as [|a s IH]; simpl; [done|].
  destruct (rstrip_char c s) as [|b r] eqn:E.
  - destruct (Ascii.eqb a c) eqn:Ha; simpl; [done|].
    intros [= ->]. by rewrite Ascii.eqb_refl in Ha.
  - done.
Qed.

Lemma rstrip_char_split (s : string) :
  exists n, s = rstrip_char "/" s +:+ slashes n.
Proof.
  induction s as [|a s [n IH]]; simpl.
  - by exists 0.
  - destruct (rstrip_char "/" s) as [|b r] eqn:E.
    + destruct (Ascii.eqb a "/") eqn:Ha.
      * apply Ascii.eqb_eq in Ha as ->. exists (S n). rewrite append_nil_l in *.
        simpl. by rewrite <- IH.
      * exists n. rewrite append_cons. by rewrite <- IH.
    + exists n. rewrite append_cons. by rewrite <- IH.
Qed.

(** X27: the base URL of a client never ends with a slash.  A base URL
    given to [__init__] is kept up to its trailing slashes, all of which are
    removed; without one the URL is built from the deployment and ends
    with [/v2].  Without an API key (argument or environment, non-empty) no
    client is made. *)
Theorem base_url_has_no_trailing_slash (getenv key : option string)
    (deployment : string) (url : option string) (c : AvathonClient) :
  AvathonClient_init getenv key deployment url = Return c ->
  last_char (base_url c) <> Some "/"%char
  /\ (truthy key || truthy getenv = true)
  /\ match url with
     | Some (String b u) => exists n, String b u = base_url c +:+ slashes n
     | _ => base_url c = "https://" +:+ deployment +:+ ".apm.sparkcognition.com/v2"
     end.
Proof.
  unfold AvathonClient_init.
  destruct (if truthy key then key else getenv) as [[|a k]|] eqn:Hk; [done| |done].
  intros [= <-]. simpl. split; [|split].
  - destruct url as [[|b u]|]; [|apply (rstrip_char_last "/" (String b u))|];
      rewrite <- append_assoc; by rewrite last_char_append.
  - destruct (truthy key); [done|]. by rewrite Hk.
  - destruct url as [[|b u]|]; try done. apply rstrip_char_split.
Qed.

Lemma base_url_has_no_trailing_slash_witness :
  last_char (base_url (mkAvathonClient "k" "https://host/v2")) <> Some "/"%char
  /\ (truthy None || truthy (Some "k") = true)
  /\ exists n, "https://host/v2//" = "https://host/v2" +:+ slashes n.
Proof.
  apply (base_url_has_no_trailing_slash (Some "k") None "sandbox"
           (Some "https://host/v2//") (mkAvathonClient "k" "https://host/v2")).
  vm_compute. reflexivity.
Defined.
